(** * Recall planner (python_learning): tasks, storage, service, analytics, batch job

    A shallow embedding of the Python package [python_learning]
    (models.py, storage.py, service.py, analytics.py, async_jobs.py) and the
    properties its specification states about it.

    Conventions.
    - A Python [str] is the list of its Unicode code points.
    - A Python [int] is a [Z]; a Python [float] is a binary64 [float].
    - Built-ins whose definition lives in the interpreter and its Unicode tables
      ([str.lower], [str.isspace], [repr], [int] of a string, [round], [int / int])
      are the fields of the class [Runtime]; every theorem holds for every runtime.
    - The file behind [TaskStorage.path] is the only mutable state; an operation
      is a function from the file before to a result and the file after.
    - The text of the file is represented by the value [json.loads] returns for
      it; what [json.dumps] writes, once encoded, is read back as the value
      written. *)

From Stdlib Require Import String Ascii.
From Stdlib Require Import ZArith NArith List Bool Lia.
From Stdlib Require Import Permutation Sorted.
From Stdlib Require Import Floats DecimalString.
Import ListNotations.
Set Warnings "-register-all,-inexact-float".
Local Open Scope Z_scope.

(** ** Python strings *)

Definition char := N.
Definition str := list char.

(** An ASCII literal as a Python string. *)
Definition lit (s : string) : str :=
  map N_of_ascii (list_ascii_of_string s).

Fixpoint str_eqb (a b : str) : bool :=
  match a, b with
  | [], [] => true
  | x :: a', y :: b' => N.eqb x y && str_eqb a' b'
  | _, _ => false
  end.

(** [a < b] on strings: lexicographic on code points. *)
Fixpoint str_ltb (a b : str) : bool :=
  match a, b with
  | _, [] => false
  | [], _ :: _ => true
  | x :: a', y :: b' => N.ltb x y || (N.eqb x y && str_ltb a' b')
  end.

Fixpoint startswith (p s : str) : bool :=
  match p, s with
  | [], _ => true
  | _ :: _, [] => false
  | x :: p', y :: s' => N.eqb x y && startswith p' s'
  end.

(** [sub in s]: [sub] occurs in [s] as a contiguous block. *)
Fixpoint str_in (sub s : str) : bool :=
  startswith sub s ||
  match s with
  | [] => false
  | _ :: s' => str_in sub s'
  end.

(** Truthiness of a string: [if s:] / [not s]. *)
Definition nonempty (s : str) : bool :=
  match s with [] => false | _ :: _ => true end.

(** ** Exceptions and results *)

Inductive exn : Type :=
| ValueError (msg : str)
| JSONDecodeError
| KeyError (key : str)
| TypeError
| AttributeError
| OverflowError
| UnicodeEncodeError.

Inductive result (A : Type) : Type :=
| Ok (a : A)
| Raise (e : exn).
Arguments Ok {A} a.
Arguments Raise {A} e.

Definition rbind {A B} (r : result A) (f : A -> result B) : result B :=
  match r with
  | Ok a => f a
  | Raise e => Raise e
  end.

Declare Scope result_scope.
Delimit Scope result_scope with result.
Notation "x <- r ;; k" := (rbind r (fun x => k))
  (at level 61, r at next level, right associativity) : result_scope.

(** ** Values produced by [json.loads] *)

Inductive pyval : Type :=
| PNone
| PBool (b : bool)
| PInt (z : Z)
| PFloat (f : float)
| PStr (s : str)
| PList (items : list pyval)
| PDict (entries : list (str * pyval)).   (* the items of a dict: no key twice *)

(** ** The interpreter's built-ins *)

Class Runtime : Type := {
  (** [c.isspace()] for a one-character string *)
  isspace : char -> bool;
  (** [s.lower()] *)
  lower : str -> str;
  (** [str(v)] for a value that is not already a string *)
  repr : pyval -> str;
  (** [int(s)] for a string: [None] when it raises ValueError *)
  int_of_str : str -> option Z;
  (** the message of the ValueError that [int(s)] raises *)
  int_error : str -> str;
  (** [a / b] on integers, [b <> 0] *)
  truediv : Z -> Z -> float;
  (** [round(x, ndigits)] *)
  py_round : float -> Z -> float;
  (** whether the standard output can encode a text: [print] raises
      UnicodeEncodeError when it cannot *)
  stdout_accepts : str -> bool
}.

(** ** models.py *)

(** The dataclass [Task]: its fields, in declaration order. *)
Record Task : Type := mk_Task {
  id : str;
  title : str;
  description : str;
  priority : Z;
  done : bool;
  tags : list str;
  created_at : str
}.

Definition set_done (t : Task) : Task :=
  mk_Task (id t) (title t) (description t) (priority t) true (tags t) (created_at t).

Section Models.
Context {rt : Runtime}.

Fixpoint lstrip (s : str) : str :=
  match s with
  | [] => []
  | c :: s' => if isspace c then lstrip s' else s
  end.

Definition rstrip (s : str) : str := rev (lstrip (rev s)).

(** [s.strip()] *)
Definition strip (s : str) : str := rstrip (lstrip s).

(** [Task(id=.., title=.., ...)]: the generated [__init__] followed by
    [__post_init__] (models.py, lines 18-23). *)
Definition Task_new (id0 title0 description0 : str) (priority0 : Z) (done0 : bool)
    (tags0 : list str) (created_at0 : str) : result Task :=
  let title1 := strip title0 in
  if negb (nonempty title1) then
    Raise (ValueError (lit "title must not be empty"))
  else if negb ((1 <=? priority0) && (priority0 <=? 5)) then
    Raise (ValueError (lit "priority must be in range 1..5"))
  else
    Ok (mk_Task id0 title1 description0 priority0 done0 tags0 created_at0).

(** [Task.to_dict] (models.py, lines 25-34). *)
Definition to_dict (t : Task) : pyval :=
  PDict [ (lit "id", PStr (id t));
          (lit "title", PStr (title t));
          (lit "description", PStr (description t));
          (lit "priority", PInt (priority t));
          (lit "done", PBool (done t));
          (lit "tags", PList (map PStr (tags t)));
          (lit "created_at", PStr (created_at t)) ].

(** Lookup in a dict: the entry of the key. *)
Fixpoint lookup (key : str) (entries : list (str * pyval)) : option pyval :=
  match entries with
  | [] => None
  | (k, v) :: rest => if str_eqb k key then Some v else lookup key rest
  end.

(** [raw[key]] *)
Definition getitem (raw : pyval) (key : str) : result pyval :=
  match raw with
  | PDict entries =>
      match lookup key entries with
      | Some v => Ok v
      | None => Raise (KeyError key)
      end
  | _ => Raise TypeError
  end.

(** [raw.get(key, default)] *)
Definition dict_get (raw : pyval) (key : str) (default : pyval) : result pyval :=
  match raw with
  | PDict entries =>
      match lookup key entries with
      | Some v => Ok v
      | None => Ok default
      end
  | _ => Raise AttributeError
  end.

(** [str(v)] *)
Definition py_str (v : pyval) : str :=
  match v with
  | PStr s => s
  | _ => repr v
  end.

(** [int(f)] for a float: truncation towards zero. *)
Definition int_of_float (f : float) : result Z :=
  match Prim2SF f with
  | S754_zero _ => Ok 0
  | S754_infinity _ => Raise OverflowError
  | S754_nan => Raise (ValueError (lit "cannot convert float NaN to integer"))
  | S754_finite neg m e =>
      let magnitude :=
        if 0 <=? e then Z.pos m * 2 ^ e else Z.pos m / 2 ^ (- e) in
      Ok (if neg then - magnitude else magnitude)
  end.

(** [int(v)] *)
Definition py_int (v : pyval) : result Z :=
  match v with
  | PInt z => Ok z
  | PBool b => Ok (if b then 1 else 0)
  | PFloat f => int_of_float f
  | PStr s =>
      match int_of_str s with
      | Some z => Ok z
      | None => Raise (ValueError (int_error s))
      end
  | PNone | PList _ | PDict _ => Raise TypeError
  end.

(** [bool(v)] *)
Definition py_bool (v : pyval) : bool :=
  match v with
  | PNone => false
  | PBool b => b
  | PInt z => negb (z =? 0)
  | PFloat f => negb (PrimFloat.eqb f PrimFloat.zero)
  | PStr s => nonempty s
  | PList items => match items with [] => false | _ :: _ => true end
  | PDict entries => match entries with [] => false | _ :: _ => true end
  end.

(** [for item in v]: the items a value yields when iterated. *)
Definition py_iter (v : pyval) : result (list pyval) :=
  match v with
  | PList items => Ok items
  | PStr s => Ok (map (fun c => PStr [c]) s)
  | PDict entries => Ok (map (fun kv => PStr (fst kv)) entries)
  | PNone | PBool _ | PInt _ | PFloat _ => Raise TypeError
  end.

(** [Task.from_dict] (models.py, lines 36-46); [now] is what
    [datetime.now(timezone.utc).isoformat()] returns during the call.
    Keyword arguments are evaluated in the order written. *)
Definition from_dict (now : str) (raw : pyval) : result Task :=
  (v_id <- getitem raw (lit "id") ;;
   v_title <- getitem raw (lit "title") ;;
   v_description <- dict_get raw (lit "description") (PStr []) ;;
   v_priority <- dict_get raw (lit "priority") (PInt 3) ;;
   n_priority <- py_int v_priority ;;
   v_done <- dict_get raw (lit "done") (PBool false) ;;
   v_tags <- dict_get raw (lit "tags") (PList []) ;;
   l_tags <- py_iter v_tags ;;
   v_created <- dict_get raw (lit "created_at") (PStr now) ;;
   Task_new (py_str v_id) (py_str v_title) (py_str v_description) n_priority
            (py_bool v_done) (map py_str l_tags) (py_str v_created))%result.

(** Empty, or starting with a character that is not white space. *)
Definition clean_head (s : str) : Prop :=
  match s with
  | [] => True
  | c :: _ => isspace c = false
  end.

(** A task that keeps the invariants of the data model: the title is trimmed
    and not empty, the priority is within 1..5. *)
Definition valid_task (t : Task) : Prop :=
  strip (title t) = title t /\ title t <> [] /\ 1 <= priority t <= 5.

End Models.

(** ** Strings that encode as UTF-8 *)

(** A surrogate code point, U+D800-U+DFFF: the one thing UTF-8 cannot encode. *)
Definition is_surrogate (c : char) : bool := ((55296 <=? c) && (c <=? 57343))%N.

(** [s.encode("utf-8")] does not raise. *)
Definition encodable (s : str) : bool := forallb (fun c => negb (is_surrogate c)) s.

(** Every string of the task encodes. *)
Definition task_encodable (t : Task) : bool :=
  encodable (id t) && encodable (title t) && encodable (description t) &&
  forallb encodable (tags t) && encodable (created_at t).

(** ** storage.py *)

(** What [TaskStorage.path] holds. *)
Inductive file : Type :=
| Missing                 (* the path does not exist *)
| Unparsable              (* text that [json.loads] rejects *)
| Content (v : pyval).    (* text that [json.loads] reads as [v] *)

(** An operation on the storage: the file before, the outcome and the file after. *)
Definition io (A : Type) : Type := file -> result A * file.

Definition io_ret {A} (a : A) : io A := fun f => (Ok a, f).

Definition io_lift {A} (r : result A) : io A := fun f => (r, f).

Definition io_bind {A B} (m : io A) (k : A -> io B) : io B :=
  fun f =>
    match m f with
    | (Ok a, f') => k a f'
    | (Raise e, f') => (Raise e, f')
    end.

Declare Scope io_scope.
Delimit Scope io_scope with io.
Notation "x <- m ;; k" := (io_bind m (fun x => k))
  (at level 61, m at next level, right associativity) : io_scope.

Section Storage.
Context {rt : Runtime}.

(** [[Task.from_dict(item) for item in data]]; [clock i] is the time read while
    the element of index [i] is decoded. *)
Fixpoint from_dicts (clock : nat -> str) (i : nat) (data : list pyval)
    : result (list Task) :=
  match data with
  | [] => Ok []
  | item :: rest =>
      (t <- from_dict (clock i) item ;;
       ts <- from_dicts clock (S i) rest ;;
       Ok (t :: ts))%result
  end.

(** [TaskStorage.load_tasks] (storage.py, lines 14-21). *)
Definition load_tasks (clock : nat -> str) : io (list Task) :=
  fun f =>
    match f with
    | Missing => (Ok [], f)
    | Unparsable => (Raise JSONDecodeError, f)
    | Content data =>
        match data with
        | PList items => (from_dicts clock 0 items, f)
        | _ => (Raise (ValueError (lit "storage file must contain JSON list")), f)
        end
    end.

(** [TaskStorage.save_tasks] (storage.py, lines 23-26). [json.dumps] with
    [ensure_ascii=False] keeps every character as it is, and [write_text]
    truncates the file before it encodes the text: with a lone surrogate in a
    string it raises UnicodeEncodeError and leaves the file empty, which is a
    text [json.loads] rejects. *)
Definition save_tasks (tasks : list Task) : io unit :=
  fun _ =>
    if forallb task_encodable tasks then (Ok tt, Content (PList (map to_dict tasks)))
    else (Raise UnicodeEncodeError, Unparsable).

(** The optional keys of a stored element, each with the value [from_dict] takes
    when the key is missing. *)
Definition optional_defaults (now : str) : list (str * pyval) :=
  [ (lit "description", PStr []);
    (lit "priority", PInt 3);
    (lit "done", PBool false);
    (lit "tags", PList []);
    (lit "created_at", PStr now) ].

(** Two tasks with the same content, field by field. *)
Definition same_fields (a b : Task) : Prop :=
  id a = id b /\ title a = title b /\ description a = description b /\
  priority a = priority b /\ done a = done b /\ tags a = tags b /\
  created_at a = created_at b.

(** The error of a file whose top-level value is not a list. *)
Definition format_error : exn := ValueError (lit "storage file must contain JSON list").

End Storage.

(** ** service.py *)

(** The sort key of [list_tasks]: [(-item.priority, item.created_at)]. *)
Definition sort_key (item : Task) : Z * str := (- priority item, created_at item).

Definition key_eqb (a b : Z * str) : bool :=
  (fst a =? fst b) && str_eqb (snd a) (snd b).

(** [a < b] on the key tuples. *)
Definition key_ltb (a b : Z * str) : bool :=
  (fst a <? fst b) || ((fst a =? fst b) && str_ltb (snd a) (snd b)).

Section Sorted.
Context {A K : Type} (ltb : K -> K -> bool) (key : A -> K).

(** [x] goes in front of the first element whose key is not below its own. *)
Fixpoint insert_by (x : A) (l : list A) : list A :=
  match l with
  | [] => [x]
  | y :: l' => if ltb (key y) (key x) then y :: insert_by x l' else x :: y :: l'
  end.

(** [sorted(l, key=key)]: the stable sort, comparing keys with [<] only. *)
Fixpoint sorted_by (l : list A) : list A :=
  match l with
  | [] => []
  | x :: l' => insert_by x (sorted_by l')
  end.

(** [a] may stand before [b]: the key of [b] is not below the key of [a]. *)
Definition in_order (a b : A) : Prop := ltb (key b) (key a) = false.

End Sorted.

(** The loop of [complete_task]: the first task with the id is marked, and the
    flag says whether there was one. *)
Fixpoint mark_first (task_id : str) (tasks : list Task) : list Task * bool :=
  match tasks with
  | [] => ([], false)
  | task :: rest =>
      if str_eqb (id task) task_id then (set_done task :: rest, true)
      else let (rest', changed) := mark_first task_id rest in (task :: rest', changed)
  end.

(** [sum(...)] over integers. *)
Definition py_sum (l : list Z) : Z := fold_left Z.add l 0.

(** [len(l)] *)
Definition len {A} (l : list A) : Z := Z.of_nat (length l).

(** The dict [stats] returns, by key. *)
Record Stats : Type := mk_Stats {
  stats_total : Z;
  stats_done : Z;
  stats_open : Z;
  stats_completion_rate : float
}.

(** [tags or []] for [tags : list[str] | None]. *)
Definition or_empty (tags0 : option (list str)) : list str :=
  match tags0 with
  | Some ((_ :: _) as l) => l
  | _ => []
  end.

Section Service.
Context {rt : Runtime}.

(** [TaskService.add_task] (service.py, lines 15-32); [uuid] is what
    [str(uuid4())] returns and [now] the time the new task is stamped with. *)
Definition add_task (clock : nat -> str) (uuid now : str)
    (title0 description0 : str) (priority0 : Z) (tags0 : option (list str))
    : io Task :=
  (tasks <- load_tasks clock ;;
   task <- io_lift (Task_new uuid title0 description0 priority0 false
                      (or_empty tags0) now) ;;
   _ <- save_tasks (tasks ++ [task]) ;;
   io_ret task)%io.

(** [TaskService.list_tasks] (service.py, lines 34-41). *)
Definition list_tasks (clock : nat -> str) (include_done : bool) (query : option str)
    : io (list Task) :=
  (tasks <- load_tasks clock ;;
   let tasks1 :=
     if negb include_done then filter (fun task => negb (done task)) tasks
     else tasks in
   let tasks2 :=
     match query with
     | Some ((_ :: _) as q) =>
         let lowered := lower q in
         filter (fun task => str_in lowered (lower (title task))) tasks1
     | _ => tasks1
     end in
   io_ret (sorted_by key_ltb sort_key tasks2))%io.

(** [TaskService.complete_task] (service.py, lines 43-53). *)
Definition complete_task (clock : nat -> str) (task_id : str) : io bool :=
  (tasks <- load_tasks clock ;;
   let (tasks', changed) := mark_first task_id tasks in
   if changed then (_ <- save_tasks tasks' ;; io_ret changed)
   else io_ret changed)%io.

(** [TaskService.delete_task] (service.py, lines 55-61). *)
Definition delete_task (clock : nat -> str) (task_id : str) : io bool :=
  (tasks <- load_tasks clock ;;
   let kept := filter (fun task => negb (str_eqb (id task) task_id)) tasks in
   if len kept =? len tasks then io_ret false
   else (_ <- save_tasks kept ;; io_ret true))%io.

(** [TaskService.next_task] (service.py, lines 63-65). *)
Definition next_task (clock : nat -> str) : io (option Task) :=
  (open_tasks <- list_tasks clock false None ;;
   io_ret (match open_tasks with [] => None | t :: _ => Some t end))%io.

(** [TaskService.count_tasks] (service.py, lines 67-68). *)
Definition count_tasks (clock : nat -> str) (include_done : bool) : io Z :=
  (tasks <- list_tasks clock include_done None ;; io_ret (len tasks))%io.

(** [TaskService.stats] (service.py, lines 70-81). *)
Definition stats (clock : nat -> str) : io Stats :=
  (tasks <- load_tasks clock ;;
   let total := len tasks in
   let done_n := py_sum (map (fun _ => 1) (filter done tasks)) in
   let open_count := total - done_n in
   let completion_rate :=
     if negb (total =? 0) then py_round (PrimFloat.mul (truediv done_n total) 100%float) 2
     else PrimFloat.zero in
   io_ret (mk_Stats total done_n open_count completion_rate))%io.

(** What [list_tasks] keeps: the open tasks unless [include_done], and, for a
    query that is not empty, the tasks whose lower-cased title contains the
    lower-cased query. *)
Definition selected (include_done : bool) (query : option str) (task : Task) : bool :=
  (include_done || negb (done task)) &&
  match query with
  | Some ((_ :: _) as q) => str_in (lower q) (lower (title task))
  | _ => true
  end.

(** [round(done_count / total_count * 100, 2)] *)
Definition rate_of (done_count total_count : Z) : float :=
  py_round (PrimFloat.mul (truediv done_count total_count) 100%float) 2.

End Service.

(** The order of a listing: [a] may stand before [b] when its priority is
    higher, or equal with [created_at] not after that of [b]. *)
Definition listed_before (a b : Task) : Prop :=
  priority b < priority a \/
  (priority a = priority b /\ str_ltb (created_at b) (created_at a) = false).

(** The task has the id. *)
Definition has_id (task_id : str) (task : Task) : bool := str_eqb (id task) task_id.

(** ** analytics.py *)

(** The class of [_WORD_RE], [[A-Za-zА-Яа-я0-9]]: the code points of
    A-Z, a-z, U+0410-U+042F, U+0430-U+044F and 0-9. *)
Definition is_word_char (c : char) : bool :=
  (((65 <=? c) && (c <=? 90)) ||
   ((97 <=? c) && (c <=? 122)) ||
   ((1040 <=? c) && (c <=? 1071)) ||
   ((1072 <=? c) && (c <=? 1103)) ||
   ((48 <=? c) && (c <=? 57)))%N.

(** The scan of [_WORD_RE.findall]: [cur] is the run being read, latest first. *)
Fixpoint findall_from (cur : str) (s : str) : list str :=
  match s with
  | [] => match cur with [] => [] | _ :: _ => [rev cur] end
  | c :: s' =>
      if is_word_char c then findall_from (c :: cur) s'
      else match cur with
           | [] => findall_from [] s'
           | _ :: _ => rev cur :: findall_from [] s'
           end
  end.

(** [_WORD_RE.findall(s)] *)
Definition _WORD_RE_findall (s : str) : list str := findall_from [] s.

Definition _STOPWORDS : list str :=
  [ lit "a"; lit "an"; lit "and"; lit "the"; lit "to"; lit "of"; lit "in";
    lit "on"; lit "for";
    [1080%N];                      (* U+0438 *)
    [1074%N];                      (* U+0432 *)
    [1085%N; 1072%N];              (* U+043D U+0430 *)
    [1089%N];                      (* U+0441 *)
    [1087%N; 1086%N];              (* U+043F U+043E *)
    [1076%N; 1083%N; 1103%N] ].    (* U+0434 U+043B U+044F *)

(** [w in words] *)
Definition str_mem (w : str) (words : list str) : bool := existsb (str_eqb w) words.

(** One more occurrence of [w] in a counter: a known key keeps its place, a new
    one goes last (dicts keep insertion order). *)
Fixpoint counter_incr (w : str) (c : list (str * Z)) : list (str * Z) :=
  match c with
  | [] => [(w, 1)]
  | (k, n) :: c' => if str_eqb k w then (k, n + 1) :: c' else (k, n) :: counter_incr w c'
  end.

(** [Counter(words)], as its items in insertion order. *)
Definition Counter (words : list str) : list (str * Z) :=
  fold_left (fun c w => counter_incr w c) words [].

(** [c.most_common(n)]: the first [n] items of the stable sort by descending
    count; none when [n <= 0]. *)
Definition most_common (n : Z) (c : list (str * Z)) : list (str * Z) :=
  firstn (Z.to_nat n) (sorted_by (fun a b => b <? a) snd c).

(** [ws] are the maximal runs of word characters of [s], in order: [s] is a gap
    of other characters, then a run that is not empty and is followed by the
    end or by another character, then the rest. *)
Inductive runs_of : str -> list str -> Prop :=
| runs_done (gap : str) :
    Forall (fun c => is_word_char c = false) gap ->
    runs_of gap []
| runs_word (gap w rest : str) (ws : list str) :
    Forall (fun c => is_word_char c = false) gap ->
    w <> [] ->
    Forall (fun c => is_word_char c = true) w ->
    match rest with [] => True | c :: _ => is_word_char c = false end ->
    runs_of rest ws ->
    runs_of (gap ++ w ++ rest) (w :: ws).

Definition str_eq_dec : forall a b : str, {a = b} + {a <> b} := list_eq_dec N.eq_dec.

(** The number of occurrences of [w] in [words]. *)
Definition occurrences (w : str) (words : list str) : Z :=
  Z.of_nat (count_occ str_eq_dec words w).

(** The position of the first occurrence of [w] in [words] (their number when
    there is none). *)
Fixpoint first_index (w : str) (words : list str) : nat :=
  match words with
  | [] => 0
  | x :: rest => if str_eqb x w then 0 else S (first_index w rest)
  end.

(** The rank of keywords: [a] is ahead of [b] when it is more frequent, or as
    frequent and first met earlier in [words]. *)
Definition ahead (words : list str) (a b : str * Z) : Prop :=
  snd b < snd a \/
  (snd a = snd b /\ (first_index (fst a) words < first_index (fst b) words)%nat).

(** [c] counts [words]: one entry per distinct word, with its number of
    occurrences, the entries in the order the words are first met. *)
Definition counts_of (words : list str) (c : list (str * Z)) : Prop :=
  NoDup (map fst c) /\
  (forall k, In k (map fst c) <-> In k words) /\
  (forall k n, In (k, n) c -> n = occurrences k words) /\
  StronglySorted (fun a b => (first_index a words < first_index b words)%nat)
                 (map fst c).

Section Analytics.
Context {rt : Runtime}.

(** [completion_rate] (analytics.py, lines 29-34). *)
Definition completion_rate (tasks : list Task) : float :=
  let task_list := tasks in
  match task_list with
  | [] => PrimFloat.zero
  | _ :: _ =>
      let done_n := py_sum (map (fun _ => 1) (filter done task_list)) in
      py_round (PrimFloat.mul (truediv done_n (len task_list)) 100%float) 2
  end.

(** The list [words] built by the loop of [top_keywords]. *)
Definition keyword_words (tasks : list Task) : list str :=
  flat_map (fun task => _WORD_RE_findall (lower (title task)) ++
                        _WORD_RE_findall (lower (description task))) tasks.

Definition keep_word (word : str) : bool :=
  negb (str_mem word _STOPWORDS) && (2 <? len word).

(** The list [filtered] of [top_keywords]. *)
Definition kept_words (tasks : list Task) : list str :=
  filter keep_word (keyword_words tasks).

(** The two texts of a task that [top_keywords] reads, lower-cased. *)
Definition lowered_texts (task : Task) : str * str :=
  (lower (title task), lower (description task)).

(** [top_keywords] (analytics.py, lines 44-51). *)
Definition top_keywords (tasks : list Task) (limit : Z) : list (str * Z) :=
  let words := keyword_words tasks in
  let filtered := filter keep_word words in
  most_common limit (Counter filtered).

End Analytics.

(** ** async_jobs.py *)

(** A coroutine: it returns, raises, or suspends in [asyncio.sleep(delay)] and
    goes on when resumed. *)
Inductive coro (A : Type) : Type :=
| Return (a : A)
| Throw (e : exn)
| Sleep (delay : float) (k : coro A).
Arguments Return {A} a.
Arguments Throw {A} e.
Arguments Sleep {A} delay k.

(** [await m], then [k] on its value. *)
Fixpoint coro_bind {A B} (m : coro A) (k : A -> coro B) : coro B :=
  match m with
  | Return a => k a
  | Throw e => Throw e
  | Sleep d m' => Sleep d (coro_bind m' k)
  end.

(** Running a coroutine to its end: the delays it slept, in order, and its outcome. *)
Fixpoint run {A} (m : coro A) : list float * result A :=
  match m with
  | Return a => ([], Ok a)
  | Throw e => ([], Raise e)
  | Sleep d m' => let (ds, r) := run m' in (d :: ds, r)
  end.

(** The loop of [simulate_sync] from a count of [synced]. *)
Fixpoint simulate_sync_from (synced : Z) (tasks : list Task) (delay : float) : coro Z :=
  match tasks with
  | [] => Return synced
  | _task :: rest => Sleep delay (simulate_sync_from (synced + 1) rest delay)
  end.

(** [simulate_sync] (async_jobs.py, lines 9-14). *)
Definition simulate_sync (tasks : list Task) (delay : float) : coro Z :=
  simulate_sync_from 0 tasks delay.

(** [range(start, stop, step)] for [step > 0]. *)
Definition py_range (start stop step : Z) : list Z :=
  map (fun i => start + Z.of_nat i * step)
      (seq 0 (Z.to_nat ((stop - start + step - 1) / step))).

(** [l[a:b]] for [0 <= a] and [0 <= b]. *)
Definition slice {A} (l : list A) (a b : Z) : list A :=
  skipn (Z.to_nat a) (firstn (Z.to_nat b) l).

(** The [for start in ...] loop of [sync_in_batches] from a count of [total]. *)
Fixpoint sync_from (total : Z) (tasks : list Task) (batch_size : Z) (delay : float)
    (starts : list Z) : coro Z :=
  match starts with
  | [] => Return total
  | start :: more =>
      let batch := slice tasks start (start + batch_size) in
      coro_bind (simulate_sync batch delay)
                (fun n => sync_from (total + n) tasks batch_size delay more)
  end.

(** [sync_in_batches] (async_jobs.py, lines 17-25). *)
Definition sync_in_batches (tasks : list Task) (batch_size : Z) (delay : float) : coro Z :=
  if batch_size <=? 0 then Throw (ValueError (lit "batch_size must be > 0"))
  else sync_from 0 tasks batch_size delay (py_range 0 (len tasks) batch_size).

(** The batches the loop of [sync_in_batches] takes, in the order it takes them. *)
Definition batches (tasks : list Task) (batch_size : Z) : list (list Task) :=
  map (fun start => slice tasks start (start + batch_size))
      (py_range 0 (len tasks) batch_size).


(** The loop of [sync_in_batches] over the batches it takes: each batch is
    awaited in turn and its count added to [total]. *)
Fixpoint sync_batches (total : Z) (delay : float) (bl : list (list Task)) : coro Z :=
  match bl with
  | [] => Return total
  | batch :: more =>
      coro_bind (simulate_sync batch delay)
                (fun n => sync_batches (total + n) delay more)
  end.

(** ** A runtime to compute with

    The examples and the closed instances of the theorems run on this runtime.
    It follows CPython on the inputs they use: the white space of [str.isspace],
    lower-casing of ASCII and of the Cyrillic block U+0400-U+042F, [str] of
    [None], booleans and integers, [int] of a signed run of ASCII digits (and
    its error message for a string without a quote or a backslash),
    division of integers below 2^53 and [round] of a finite float whose scaled
    value stays below 2^53. *)

Definition cpython_isspace (c : char) : bool :=
  existsb (N.eqb c)
    [9; 10; 11; 12; 13; 28; 29; 30; 31; 32; 133; 160; 5760;
     8192; 8193; 8194; 8195; 8196; 8197; 8198; 8199; 8200; 8201; 8202;
     8232; 8233; 8239; 8287; 12288]%N.

Definition basic_lower_char (c : char) : char :=
  (if (65 <=? c) && (c <=? 90) then c + 32
   else if (1040 <=? c) && (c <=? 1071) then c + 32
   else if (1024 <=? c) && (c <=? 1039) then c + 80
   else c)%N.

Definition basic_lower (s : str) : str := map basic_lower_char s.

Definition basic_repr (v : pyval) : str :=
  match v with
  | PNone => lit "None"
  | PBool true => lit "True"
  | PBool false => lit "False"
  | PInt z => lit (NilZero.string_of_int (Z.to_int z))
  | _ => []
  end.

Fixpoint digits_value (acc : Z) (s : str) : option Z :=
  match s with
  | [] => Some acc
  | c :: s' =>
      if ((48 <=? c) && (c <=? 57))%N then digits_value (acc * 10 + (Z.of_N c - 48)) s'
      else None
  end.

Definition basic_int_of_str (s : str) : option Z :=
  match s with
  | [] => None
  | 45%N :: ((_ :: _) as ds) => option_map Z.opp (digits_value 0 ds)
  | 43%N :: ((_ :: _) as ds) => digits_value 0 ds
  | _ => digits_value 0 s
  end.

(** The message of [int(s)] in CPython, for a string whose [repr] is the
    string between single quotes. *)
Definition basic_int_error (s : str) : str :=
  lit "invalid literal for int() with base 10: '" ++ s ++ lit "'".

Definition float_of_Z (z : Z) : float :=
  if z <? 0 then PrimFloat.opp (PrimFloat.of_uint63 (Uint63.of_Z (- z)))
  else PrimFloat.of_uint63 (Uint63.of_Z z).

Definition basic_truediv (a b : Z) : float :=
  PrimFloat.div (float_of_Z a) (float_of_Z b).

(** [num / den] rounded to the nearest integer, halves to the even one. *)
Definition div_half_even (num den : Z) : Z :=
  let q := num / den in
  let r := num mod den in
  if 2 * r <? den then q
  else if den <? 2 * r then q + 1
  else if Z.even q then q else q + 1.

Definition basic_round (x : float) (ndigits : Z) : float :=
  match Prim2SF x with
  | S754_finite neg m e =>
      let scale := 10 ^ ndigits in
      let n :=
        if 0 <=? e then Z.pos m * scale * 2 ^ e
        else div_half_even (Z.pos m * scale) (2 ^ (- e)) in
      let r := PrimFloat.div (float_of_Z n) (float_of_Z scale) in
      if neg then PrimFloat.opp r else r
  | _ => x
  end.

Definition example_runtime : Runtime := {|
  isspace := cpython_isspace;
  lower := basic_lower;
  repr := basic_repr;
  int_of_str := basic_int_of_str;
  int_error := basic_int_error;
  truediv := basic_truediv;
  py_round := basic_round;
  stdout_accepts := encodable
|}.

(** The clock of the examples. *)
Definition noon : str := lit "2024-01-01T12:00:00+00:00".

Definition fixed_clock (_ : nat) : str := noon.

(** A task of the tests: id, title, priority, done flag and description. *)
Definition test_task (i t : string) (p : Z) (d : bool) (desc : string) : Task :=
  mk_Task (lit i) (lit t) (lit desc) p d [] noon.

(** The outcome of an operation and the file it leaves. *)
Definition outcome {A} (m : io A) (f : file) : result A := fst (m f).

Definition file_after {A} (m : io A) (f : file) : file := snd (m f).

(** The store of tests/test_service.py after its two [add_task] calls, titles
    [a] and [b] with priorities [pa] and [pb], from no file. *)
Definition after_two_adds (a b : string) (pa pb : Z) : file :=
  file_after (add_task (rt := example_runtime) fixed_clock (lit "id-2")
                (lit "2024-01-01T12:00:01+00:00") (lit b) [] pb None)
    (file_after (add_task (rt := example_runtime) fixed_clock (lit "id-1")
                   (lit "2024-01-01T12:00:00+00:00") (lit a) [] pa None)
       Missing).

(** A task with an id, a priority and a creation time. *)
Definition dated_task (i : string) (p : Z) (c : string) : Task :=
  mk_Task (lit i) (lit "t") [] p false [] (lit c).

(** ** The stores of the examples *)

(** The tasks of tests/test_storage.py: [test_round_trip_save_and_load]. *)
Definition round_trip_tasks : list Task :=
  [ mk_Task (lit "1") (lit "Learn Python") [] 5 false [lit "study"] noon;
    mk_Task (lit "2") (lit "Write tests") [] 4 true [] noon ].

(** A stored array whose second element has no ["id"]. *)
Definition stored_without_id : list pyval :=
  [ PDict [(lit "id", PStr (lit "1")); (lit "title", PStr (lit "Learn Python"))];
    PDict [(lit "title", PStr (lit "Write tests")); (lit "priority", PInt 4)] ].

(** The store of tests/test_service.py, [test_add_list_and_count], with a third
    task that is done. *)
Definition listing_tasks : list Task :=
  [ mk_Task (lit "a") (lit "A") [] 2 false [] (lit "2024-01-01T10:00:00+00:00");
    mk_Task (lit "b") (lit "B") [] 5 false [] (lit "2024-01-01T11:00:00+00:00");
    mk_Task (lit "c") (lit "Abc") [] 5 true [] (lit "2024-01-01T09:00:00+00:00") ].

Definition listing_file : file := Content (PList (map to_dict listing_tasks)).

(** The store of tests/test_service.py, [test_complete_delete_and_next]. *)
Definition two_tasks : list Task :=
  [ mk_Task (lit "one") (lit "Task one") [] 3 false [] (lit "2024-01-01T10:00:00+00:00");
    mk_Task (lit "two") (lit "Task two") [] 4 false [] (lit "2024-01-01T11:00:00+00:00") ].

Definition two_tasks_file : file := Content (PList (map to_dict two_tasks)).

(** ** analytics.py: the distribution of priorities *)

(** [distribution[key] += 1]: [None] is the KeyError of a key the dict lacks. *)
Fixpoint bump (key : Z) (distribution : list (Z * Z)) : option (list (Z * Z)) :=
  match distribution with
  | [] => None
  | (level, n) :: rest =>
      if level =? key then Some ((level, n + 1) :: rest)
      else option_map (cons (level, n)) (bump key rest)
  end.

(** The loop of [priority_distribution]: [inl key] is [KeyError(key)]. *)
Fixpoint distribution_from (distribution : list (Z * Z)) (tasks : list Task)
    : Z + list (Z * Z) :=
  match tasks with
  | [] => inr distribution
  | task :: rest =>
      match bump (priority task) distribution with
      | Some distribution' => distribution_from distribution' rest
      | None => inl (priority task)
      end
  end.

(** [priority_distribution] (analytics.py, lines 37-41): the items of the dict
    in insertion order, or the KeyError of the first priority it has no key for. *)
Definition priority_distribution (tasks : list Task) : Z + list (Z * Z) :=
  distribution_from (map (fun level => (level, 0)) (py_range 1 6 1)) tasks.

(** The number of tasks of a priority. *)
Definition at_level (level : Z) (tasks : list Task) : Z :=
  len (filter (fun task => priority task =? level) tasks).

(** ** cli.py *)

(** [sep.join(parts)] *)
Fixpoint py_join (sep : str) (parts : list str) : str :=
  match parts with
  | [] => []
  | [p] => p
  | p :: rest => p ++ sep ++ py_join sep rest
  end.

Section Cli.
Context {rt : Runtime}.

(** What a handler of the command line does on the file behind the service:
    the texts it has printed, one per [print] call, in order; then the exit
    code it returns or the exception it raises; and the file it leaves. A text
    spans several lines of output when a string in it holds a line break. *)
Definition handler : Type := file -> (list str * result Z) * file.

(** [print(text)] for each text in turn, then [return code]: a text that the
    standard output cannot encode raises UnicodeEncodeError, after the texts
    before it were printed. *)
Fixpoint say (texts : list str) (code : Z) : list str * result Z :=
  match texts with
  | [] => ([], Ok code)
  | text :: rest =>
      if stdout_accepts text
      then let (out, r) := say rest code in (text :: out, r)
      else ([], Raise UnicodeEncodeError)
  end.

(** A handler starts with its calls of the service, which print nothing; an
    exception of theirs ends it. *)
Definition calling {A} (m : io A) (k : A -> list str * result Z) : handler :=
  fun f =>
    match m f with
    | (Ok a, f') => (k a, f')
    | (Raise e, f') => (([], Raise e), f')
    end.

(** [cmd_add] (cli.py, lines 18-27), for the parsed [title], [description],
    [priority] and [tag] arguments. *)
Definition cmd_add (clock : nat -> str) (uuid now : str)
    (title0 description0 : str) (priority0 : Z) (tag : list str) : handler :=
  calling (add_task clock uuid now title0 description0 priority0 (Some tag))
          (fun task => say [lit "created: " ++ id task] 0).

(** The text [cmd_list] prints for a task, in one [print] call. *)
Definition list_line (task : Task) : str :=
  let state := if done task then lit "x" else lit " " in
  let tags_text :=
    match tags task with
    | [] => []
    | _ :: _ => lit " tags=" ++ py_join (lit ",") (tags task)
    end in
  lit "[" ++ state ++ lit "] (" ++ py_str (PInt (priority task)) ++ lit ") " ++
  id task ++ lit " " ++ title task ++ tags_text.

(** [cmd_list] (cli.py, lines 30-41), for the [--open] flag and the [--query]
    argument. *)
Definition cmd_list (clock : nat -> str) (open_only : bool) (query : option str)
    : handler :=
  calling (list_tasks clock (negb open_only) query)
          (fun tasks =>
             match tasks with
             | [] => say [lit "no tasks"] 0
             | _ :: _ => say (map list_line tasks) 0
             end).

(** [cmd_done] (cli.py, lines 44-48). *)
Definition cmd_done (clock : nat -> str) (task_id : str) : handler :=
  calling (complete_task clock task_id)
          (fun changed =>
             say [if changed then lit "done" else lit "not found"]
                 (if changed then 0 else 1)).

(** [cmd_delete] (cli.py, lines 51-55). *)
Definition cmd_delete (clock : nat -> str) (task_id : str) : handler :=
  calling (delete_task clock task_id)
          (fun changed =>
             say [if changed then lit "deleted" else lit "not found"]
                 (if changed then 0 else 1)).

(** The text [cmd_next] prints for the task to do next. *)
Definition next_line (task : Task) : str :=
  lit "next: (" ++ py_str (PInt (priority task)) ++ lit ") " ++
  id task ++ lit " " ++ title task.

(** [cmd_next] (cli.py, lines 69-76). *)
Definition cmd_next (clock : nat -> str) : handler :=
  calling (next_task clock)
          (fun task =>
             match task with
             | None => say [lit "all tasks completed"] 0
             | Some t => say [next_line t] 0
             end).

(** [cmd_count] (cli.py, lines 79-83). *)
Definition cmd_count (clock : nat -> str) (open_only : bool) : handler :=
  calling (count_tasks clock (negb open_only))
          (fun count => say [py_str (PInt count)] 0).

End Cli.

(** [d.get(key, default)] on the items of a dict: the value stored under the
    key, the default when the key is absent. *)
Definition entry_or (entries : list (str * pyval)) (key : str) (default : pyval) : pyval :=
  match lookup key entries with
  | Some v => v
  | None => default
  end.

(** The keys [from_dict] reads. *)
Definition task_keys : list str :=
  [ lit "id"; lit "title"; lit "description"; lit "priority"; lit "done";
    lit "tags"; lit "created_at" ].

(** A coroutine that sleeps [ds] in turn and returns [a]. *)
Definition sleeps {A} (ds : list float) (a : A) : coro A :=
  fold_right Sleep (Return a) ds.

(** A stored array with an element whose title has white space around it and
    whose optional keys are missing. *)
Definition stored_untrimmed : file :=
  Content (PList [ PDict [(lit "id", PStr (lit "1"));
                          (lit "title", PStr (lit "  Learn Python "))] ]).

(** ** Words, following the specification *)

(** Following the words of the specification ("Latin/Cyrillic letters and
    digits"): a letter of the Latin script (Basic Latin, Latin-1 Supplement,
    Latin Extended-A and B), a letter of the Cyrillic block, or a digit 0-9. *)
Definition latin_cyrillic_or_digit (c : char) : bool :=
  (((65 <=? c) && (c <=? 90)) || ((97 <=? c) && (c <=? 122)) ||
   ((192 <=? c) && (c <=? 214)) || ((216 <=? c) && (c <=? 246)) ||
   ((248 <=? c) && (c <=? 591)) ||
   ((1024 <=? c) && (c <=? 1153)) || ((1162 <=? c) && (c <=? 1279)) ||
   ((48 <=? c) && (c <=? 57)))%N.

(** [ws] are the maximal runs of the characters of a class [cls] in [s]. *)
Inductive runs_in (cls : char -> bool) : str -> list str -> Prop :=
| runs_in_done (gap : str) :
    Forall (fun c => cls c = false) gap ->
    runs_in cls gap []
| runs_in_word (gap w rest : str) (ws : list str) :
    Forall (fun c => cls c = false) gap ->
    w <> [] ->
    Forall (fun c => cls c = true) w ->
    match rest with [] => True | c :: _ => cls c = false end ->
    runs_in cls rest ws ->
    runs_in cls (gap ++ w ++ rest) (w :: ws).

(** The word U+0451 U+043B U+043A U+0430 (a fir tree, in Russian). *)
Definition yolka : str := [1105; 1083; 1082; 1072]%N.

(** ** Stores with a lone surrogate, a done task, and a repeated id *)

(** A task whose title is the lone surrogate U+D800. *)
Definition surrogate_task : Task :=
  mk_Task (lit "2") [55296%N] [] 3 false [] noon.

(** A file that [json.loads] reads as one task whose title is the escape
    [\ud800]. *)
Definition surrogate_store : file :=
  Content (PList [ PDict [ (lit "id", PStr (lit "2"));
                           (lit "title", PStr [55296%N]);
                           (lit "created_at", PStr noon) ] ]).

(** A file with the task ["1"] and the task of [surrogate_store]. *)
Definition mixed_store : file :=
  Content (PList [ PDict [ (lit "id", PStr (lit "1"));
                           (lit "title", PStr (lit "A"));
                           (lit "created_at", PStr noon) ];
                   PDict [ (lit "id", PStr (lit "2"));
                           (lit "title", PStr [55296%N]);
                           (lit "created_at", PStr noon) ] ]).

(** A store whose only task is done. *)
Definition done_tasks : list Task :=
  [ mk_Task (lit "1") (lit "A") [] 3 true [] noon ].

Definition done_store : file := Content (PList (map to_dict done_tasks)).

(** An id as [uuid4] writes it, and a store that holds a task with it. *)
Definition a_uuid : str := lit "6fa459ea-ee8a-4ca4-894e-db77e160355e".

Definition uuid_tasks : list Task :=
  [ mk_Task a_uuid (lit "A") [] 3 false [] noon ].

Definition uuid_store : file := Content (PList (map to_dict uuid_tasks)).
(** * Facts about the embedding *)

(** ** Strings *)

Lemma str_eqb_eq (a b : str) : str_eqb a b = true <-> a = b.
Proof.
  revert b; induction a as [|x a IH]; intros [|y b]; simpl; split;
    try congruence; try reflexivity.
  - intros H. apply andb_true_iff in H as [Hx Hab].
    apply N.eqb_eq in Hx. apply IH in Hab. congruence.
  - intros H. injection H as -> ->. rewrite N.eqb_refl. simpl. now apply IH.
Qed.

Lemma str_eqb_refl (a : str) : str_eqb a a = true.
Proof. now apply str_eqb_eq. Qed.

Lemma str_eqb_neq (a b : str) : str_eqb a b = false <-> a <> b.
Proof.
  split.
  - intros H Heq. apply str_eqb_eq in Heq. congruence.
  - intros H. destruct (str_eqb a b) eqn:E; [|reflexivity].
    apply str_eqb_eq in E. contradiction.
Qed.

Lemma str_eqb_sym (a b : str) : str_eqb a b = str_eqb b a.
Proof.
  destruct (str_eqb a b) eqn:E.
  - apply str_eqb_eq in E. subst. symmetry. apply str_eqb_refl.
  - symmetry. apply str_eqb_neq. apply str_eqb_neq in E. congruence.
Qed.

Lemma startswith_spec (p s : str) :
  startswith p s = true <-> exists post, s = p ++ post.
Proof.
  revert s; induction p as [|x p IH]; intros s; simpl.
  - split; [intros _; now exists s | reflexivity].
  - destruct s as [|y s].
    + split; [discriminate | intros [post H]; discriminate].
    + rewrite andb_true_iff, N.eqb_eq, IH. split.
      * intros [-> [post ->]]. now exists post.
      * intros [post H]. injection H as -> ->. split; [reflexivity | now exists post].
Qed.

(** [sub in s] holds exactly when [s] is [pre ++ sub ++ post]. *)
Lemma str_in_spec (sub s : str) :
  str_in sub s = true <-> exists pre post, s = pre ++ sub ++ post.
Proof.
  induction s as [|y s IH]; simpl.
  - rewrite orb_false_r, startswith_spec. split.
    + intros [post H]. exists [], post. exact H.
    + intros [pre [post H]]. destruct pre; simpl in H.
      * now exists post.
      * discriminate.
  - rewrite orb_true_iff, startswith_spec, IH. split.
    + intros [[post H] | [pre [post H]]].
      * exists [], post. exact H.
      * exists (y :: pre), post. simpl. now rewrite H.
    + intros [[|z pre] [post H]]; simpl in H.
      * left. now exists post.
      * right. injection H as -> ->. now exists pre, post.
Qed.

Lemma str_ltb_irrefl (a : str) : str_ltb a a = false.
Proof.
  induction a as [|x a IH]; simpl; [reflexivity|].
  rewrite N.ltb_irrefl, N.eqb_refl, IH. reflexivity.
Qed.

Lemma str_ltb_trans (a b c : str) :
  str_ltb a b = true -> str_ltb b c = true -> str_ltb a c = true.
Proof.
  revert b c; induction a as [|x a IH]; intros [|y b] [|z c]; simpl;
    try congruence.
  rewrite !orb_true_iff, !andb_true_iff, !N.ltb_lt, !N.eqb_eq.
  intros [H1 | [H1 H1']] [H2 | [H2 H2']].
  - left. lia.
  - left. lia.
  - left. lia.
  - right. split; [lia | eauto].
Qed.

(** Two strings are equal, or one is below the other. *)
Lemma str_ltb_total (a b : str) :
  str_ltb a b = false -> str_ltb b a = false -> a = b.
Proof.
  revert b; induction a as [|x a IH]; intros [|y b]; simpl;
    try congruence.
  rewrite !orb_false_iff, !andb_false_iff, !N.ltb_ge, !N.eqb_neq.
  intros [H1 H1'] [H2 H2'].
  assert (x = y) by lia. subst y.
  destruct H1' as [? | H1']; [congruence|].
  destruct H2' as [? | H2']; [congruence|].
  f_equal. now apply IH.
Qed.

Lemma str_ltb_asym (a b : str) : str_ltb a b = true -> str_ltb b a = false.
Proof.
  intros H. destruct (str_ltb b a) eqn:E; [|reflexivity].
  pose proof (str_ltb_trans _ _ _ H E) as Haa.
  rewrite str_ltb_irrefl in Haa. discriminate.
Qed.

(** [a <= b] on strings, as [not (b < a)], is transitive. *)
Lemma str_leb_trans (a b c : str) :
  str_ltb b a = false -> str_ltb c b = false -> str_ltb c a = false.
Proof.
  intros H1 H2. destruct (str_ltb c a) eqn:E; [|reflexivity].
  destruct (str_ltb a b) eqn:Eab.
  - pose proof (str_ltb_trans _ _ _ E Eab). congruence.
  - assert (a = b) by now apply str_ltb_total. subst. congruence.
Qed.

(** ** The stable sort *)

Section SortedFacts.
Context {A K : Type} (ltb : K -> K -> bool) (key : A -> K).

Hypothesis ltb_asym : forall a b, ltb a b = true -> ltb b a = false.
Hypothesis leb_trans :
  forall a b c, ltb b a = false -> ltb c b = false -> ltb c a = false.

Lemma insert_by_perm (x : A) (l : list A) :
  Permutation (x :: l) (insert_by ltb key x l).
Proof.
  induction l as [|y l IH]; simpl; [apply Permutation_refl|].
  destruct (ltb (key y) (key x)).
  - eapply perm_trans; [apply perm_swap|]. now apply perm_skip.
  - apply Permutation_refl.
Qed.

Lemma sorted_by_perm (l : list A) : Permutation l (sorted_by ltb key l).
Proof.
  induction l as [|x l IH]; simpl; [constructor|].
  eapply perm_trans; [apply perm_skip, IH | apply insert_by_perm].
Qed.

Lemma insert_by_in (x y : A) (l : list A) :
  In y (insert_by ltb key x l) <-> y = x \/ In y l.
Proof.
  split.
  - intros H. apply Permutation_in with (l' := x :: l) in H.
    + destruct H; [left; congruence | now right].
    + apply Permutation_sym, insert_by_perm.
  - intros H. apply Permutation_in with (l := x :: l).
    + apply insert_by_perm.
    + destruct H; [left; congruence | now right].
Qed.

Lemma insert_by_sorted (x : A) (l : list A) :
  StronglySorted (in_order ltb key) l -> StronglySorted (in_order ltb key) (insert_by ltb key x l).
Proof.
  induction 1 as [|y l Hs IH Hy]; simpl.
  - constructor; constructor.
  - destruct (ltb (key y) (key x)) eqn:E.
    + constructor; [exact IH|].
      apply Forall_forall. intros z Hz. apply insert_by_in in Hz as [-> | Hz].
      * unfold in_order. now apply ltb_asym.
      * rewrite Forall_forall in Hy. now apply Hy.
    + constructor; [now constructor|].
      constructor; [exact E|].
      apply Forall_forall. intros z Hz. rewrite Forall_forall in Hy.
      unfold in_order. eapply leb_trans; [exact E | now apply Hy].
Qed.

Lemma sorted_by_sorted (l : list A) : StronglySorted (in_order ltb key) (sorted_by ltb key l).
Proof.
  induction l as [|x l IH]; simpl; [constructor | now apply insert_by_sorted].
Qed.

End SortedFacts.

Section Stability.
Context {A K : Type} (ltb : K -> K -> bool) (key : A -> K).

(** A selection [p] of elements none of which is below another: the sort keeps
    the selected elements in the order they had. *)
Lemma insert_by_stable (p : A -> bool) (x : A) (l : list A) :
  (forall a b, p a = true -> p b = true -> ltb (key a) (key b) = false) ->
  filter p (insert_by ltb key x l) = filter p (x :: l).
Proof.
  intros Hp. induction l as [|y l IH]; [reflexivity|].
  simpl insert_by. destruct (ltb (key y) (key x)) eqn:E; [|reflexivity].
  simpl filter at 1. rewrite IH. simpl.
  destruct (p x) eqn:Ex, (p y) eqn:Ey; try reflexivity.
  rewrite (Hp y x Ey Ex) in E. discriminate.
Qed.

Lemma sorted_by_stable (p : A -> bool) (l : list A) :
  (forall a b, p a = true -> p b = true -> ltb (key a) (key b) = false) ->
  filter p (sorted_by ltb key l) = filter p l.
Proof.
  intros Hp. induction l as [|x l IH]; [reflexivity|].
  simpl sorted_by. rewrite insert_by_stable by exact Hp.
  simpl. now rewrite IH.
Qed.

End Stability.

(** ** The order of the sort keys *)

Lemma key_ltb_asym (a b : Z * str) : key_ltb a b = true -> key_ltb b a = false.
Proof.
  destruct a as [p s], b as [q t]. unfold key_ltb. simpl.
  rewrite orb_true_iff, andb_true_iff, orb_false_iff, andb_false_iff,
    !Z.ltb_lt, Z.ltb_ge, Z.eqb_eq, Z.eqb_neq.
  intros [H | [H Hs]].
  - split; [lia | left; lia].
  - split; [lia | right; now apply str_ltb_asym].
Qed.

Lemma key_leb_trans (a b c : Z * str) :
  key_ltb b a = false -> key_ltb c b = false -> key_ltb c a = false.
Proof.
  destruct a as [p s], b as [q t], c as [r u]. unfold key_ltb. simpl.
  rewrite !orb_false_iff, !andb_false_iff, !Z.ltb_ge, !Z.eqb_neq.
  intros [H1 H1'] [H2 H2']. split; [lia|].
  destruct (Z.eq_dec r p) as [->|]; [|now left].
  right. assert (q = p) by lia. subst q.
  destruct H1' as [? | H1']; [congruence|].
  destruct H2' as [? | H2']; [congruence|].
  eapply str_leb_trans; eassumption.
Qed.

(** [not (key b < key a)] read on the tasks: higher priority first, and for
    equal priorities [created_at] not decreasing. *)
Lemma in_order_sort_key (a b : Task) :
  in_order key_ltb sort_key a b <->
  priority b < priority a \/
  (priority a = priority b /\ str_ltb (created_at b) (created_at a) = false).
Proof.
  unfold in_order, key_ltb, sort_key. simpl.
  rewrite orb_false_iff, andb_false_iff, Z.ltb_ge, Z.eqb_neq.
  split.
  - intros [H [H' | H']].
    + left. lia.
    + destruct (Z.eq_dec (priority a) (priority b)); [now right | left; lia].
  - intros [H | [H H']].
    + split; [lia | left; lia].
    + split; [lia | now right].
Qed.

Lemma key_eqb_eq (a b : Z * str) : key_eqb a b = true <-> a = b.
Proof.
  destruct a as [p s], b as [q t]. unfold key_eqb. simpl.
  rewrite andb_true_iff, Z.eqb_eq, str_eqb_eq. split.
  - intros [-> ->]. reflexivity.
  - intros H. injection H as -> ->. now split.
Qed.

Lemma key_ltb_irrefl (a : Z * str) : key_ltb a a = false.
Proof.
  destruct a as [p s]. unfold key_ltb. simpl.
  now rewrite Z.ltb_irrefl, Z.eqb_refl, str_ltb_irrefl.
Qed.


(** ** models.py: trimming and the constructor *)

Section ModelsFacts.
Context {rt : Runtime}.

Lemma lstrip_clean (s : str) : clean_head (lstrip s).
Proof.
  induction s as [|c s IH]; simpl; [exact I|].
  destruct (isspace c) eqn:E; [exact IH | exact E].
Qed.

Lemma lstrip_fix (s : str) : clean_head s -> lstrip s = s.
Proof.
  destruct s as [|c s]; simpl; [reflexivity|]. now intros ->.
Qed.

Lemma lstrip_snoc (s : str) (c : char) :
  isspace c = false -> lstrip (s ++ [c]) = lstrip s ++ [c].
Proof.
  intros Hc. induction s as [|d s IH]; simpl.
  - now rewrite Hc.
  - destruct (isspace d); [exact IH | reflexivity].
Qed.

Lemma rstrip_clean (s : str) : clean_head s -> clean_head (rstrip s).
Proof.
  destruct s as [|c s]; simpl; [intros _; exact I|].
  intros Hc. unfold rstrip. simpl rev.
  rewrite lstrip_snoc by exact Hc. rewrite rev_app_distr. exact Hc.
Qed.

Lemma rstrip_idem (s : str) : rstrip (rstrip s) = rstrip s.
Proof.
  unfold rstrip. rewrite rev_involutive.
  now rewrite (lstrip_fix (lstrip (rev s))) by apply lstrip_clean.
Qed.

(** [s.strip().strip() == s.strip()] *)
Lemma strip_idem (s : str) : strip (strip s) = strip s.
Proof.
  unfold strip.
  rewrite (lstrip_fix (rstrip (lstrip s))) by apply rstrip_clean, lstrip_clean.
  apply rstrip_idem.
Qed.

Lemma nonempty_true (s : str) : nonempty s = true <-> s <> [].
Proof. destruct s; simpl; split; congruence. Qed.

(** The outcome of the constructor, by cases. *)
Lemma Task_new_cases (i t d : str) (p : Z) (b : bool) (g : list str) (c : str) :
  Task_new i t d p b g c =
    if negb (nonempty (strip t)) then Raise (ValueError (lit "title must not be empty"))
    else if negb ((1 <=? p) && (p <=? 5)) then
      Raise (ValueError (lit "priority must be in range 1..5"))
    else Ok (mk_Task i (strip t) d p b g c).
Proof. reflexivity. Qed.

Lemma Task_new_ok (i t d : str) (p : Z) (b : bool) (g : list str) (c : str) :
  strip t <> [] -> 1 <= p <= 5 ->
  Task_new i t d p b g c = Ok (mk_Task i (strip t) d p b g c).
Proof.
  intros Ht Hp. rewrite Task_new_cases.
  apply nonempty_true in Ht. rewrite Ht. simpl.
  assert ((1 <=? p) && (p <=? 5) = true) as ->; [|reflexivity].
  apply andb_true_iff. split; apply Z.leb_le; lia.
Qed.

(** What the constructor builds is a valid task. *)
Lemma Task_new_valid (i t d : str) (p : Z) (b : bool) (g : list str) (c : str)
    (task : Task) :
  Task_new i t d p b g c = Ok task -> valid_task task.
Proof.
  rewrite Task_new_cases.
  destruct (nonempty (strip t)) eqn:E; simpl; [|discriminate].
  destruct ((1 <=? p) && (p <=? 5)) eqn:Ep; simpl; [|discriminate].
  intros H. injection H as <-. unfold valid_task. simpl.
  apply andb_true_iff in Ep as [H1 H2]. apply Z.leb_le in H1, H2.
  repeat split; try lia; [apply strip_idem | now apply nonempty_true].
Qed.

Lemma set_done_valid (t : Task) : valid_task t -> valid_task (set_done t).
Proof. intros H. exact H. Qed.

Lemma map_py_str_PStr (l : list str) : map py_str (map PStr l) = l.
Proof.
  induction l as [|x l IH]; simpl; [reflexivity | now rewrite IH].
Qed.

(** Decoding what [to_dict] built gives the task back. *)
Lemma from_dict_to_dict (now : str) (t : Task) :
  valid_task t -> from_dict now (to_dict t) = Ok t.
Proof.
  intros (Hs & Hne & Hp). unfold from_dict, to_dict. simpl.
  rewrite map_py_str_PStr.
  rewrite Task_new_ok; rewrite ?Hs; try assumption.
  destruct t; reflexivity.
Qed.

End ModelsFacts.

(** ** storage.py: decoding and loading *)

Section StorageFacts.
Context {rt : Runtime}.

(** Loading never writes. *)
Lemma load_tasks_file (clock : nat -> str) (f : file) : snd (load_tasks clock f) = f.
Proof.
  destruct f as [| |v]; try reflexivity. destruct v; reflexivity.
Qed.

Lemma load_tasks_content (clock : nat -> str) (items : list pyval) :
  load_tasks clock (Content (PList items)) =
  (from_dicts clock 0 items, Content (PList items)).
Proof. reflexivity. Qed.

Lemma from_dicts_app (clock : nat -> str) (i : nat) (pre post : list pyval) :
  from_dicts clock i (pre ++ post) =
  (ts1 <- from_dicts clock i pre ;;
   ts2 <- from_dicts clock (i + List.length pre) post ;;
   Ok (ts1 ++ ts2))%result.
Proof.
  revert i; induction pre as [|x pre IH]; intros i; simpl.
  - rewrite Nat.add_0_r. destruct (from_dicts clock i post); reflexivity.
  - destruct (from_dict (clock i) x) as [t|e]; simpl; [|reflexivity].
    rewrite IH. replace (S i + List.length pre)%nat with (i + S (List.length pre))%nat by lia.
    destruct (from_dicts clock (S i) pre) as [ts1|e]; simpl; [|reflexivity].
    destruct (from_dicts clock (i + S (List.length pre)) post); reflexivity.
Qed.

Lemma from_dicts_to_dict (clock : nat -> str) (i : nat) (ts : list Task) :
  Forall valid_task ts -> from_dicts clock i (map to_dict ts) = Ok ts.
Proof.
  intros H. revert i. induction H as [|t ts Ht Hts IH]; intros i; [reflexivity|].
  cbn [map from_dicts]. rewrite from_dict_to_dict by exact Ht.
  cbn [rbind]. rewrite IH. reflexivity.
Qed.

(** Every task of a loaded collection is valid, and there is one per element. *)
Lemma from_dicts_valid (clock : nat -> str) (i : nat) (data : list pyval)
    (ts : list Task) :
  from_dicts clock i data = Ok ts ->
  Forall valid_task ts /\ List.length ts = List.length data.
Proof.
  revert i ts; induction data as [|x data IH]; intros i ts; simpl.
  - intros H. injection H as <-. split; [constructor | reflexivity].
  - destruct (from_dict (clock i) x) as [t|e] eqn:Ex; simpl; [|discriminate].
    destruct (from_dicts clock (S i) data) as [ts'|e] eqn:Ed; simpl; [|discriminate].
    intros H. injection H as <-. destruct (IH _ _ Ed) as [Hv Hl]. split.
    + constructor; [|exact Hv]. unfold from_dict in Ex.
      repeat match type of Ex with
             | rbind ?r _ = Ok _ => destruct r; simpl in Ex; [|discriminate]
             end.
      eapply Task_new_valid. exact Ex.
    + simpl. now rewrite Hl.
Qed.

Lemma load_tasks_valid (clock : nat -> str) (f : file) (ts : list Task) :
  fst (load_tasks clock f) = Ok ts -> Forall valid_task ts.
Proof.
  destruct f as [| |v]; simpl.
  - intros H. injection H as <-. constructor.
  - discriminate.
  - destruct v; simpl; try discriminate.
    intros H. now apply from_dicts_valid in H.
Qed.

Lemma lookup_app (k key : str) (d : pyval) (entries : list (str * pyval)) :
  lookup key (entries ++ [(k, d)]) =
  match lookup key entries with
  | Some v => Some v
  | None => if str_eqb k key then Some d else None
  end.
Proof.
  induction entries as [|[k' v'] entries IH]; simpl; [reflexivity|].
  destruct (str_eqb k' key); [reflexivity | exact IH].
Qed.

(** Comparisons of key literals are decided by computation. *)
Ltac decide_keys :=
  repeat match goal with
         | |- context [str_eqb (lit ?a) (lit ?b)] =>
             let v := eval vm_compute in (str_eqb (lit a) (lit b)) in
             change (str_eqb (lit a) (lit b)) with v
         end.

(** A missing optional key decodes as the key with its default. *)
Lemma from_dict_default (now k : str) (d : pyval) (entries : list (str * pyval)) :
  In (k, d) (optional_defaults now) ->
  lookup k entries = None ->
  from_dict now (PDict entries) = from_dict now (PDict (entries ++ [(k, d)])).
Proof.
  intros Hin Hk. unfold optional_defaults in Hin.
  unfold from_dict, getitem, dict_get.
  rewrite !lookup_app.
  destruct Hin as [H|[H|[H|[H|[H|[]]]]]]; injection H as <- <-;
    rewrite Hk; decide_keys;
    repeat match goal with
           | |- context [lookup ?key entries] => destruct (lookup key entries)
           end; reflexivity.
Qed.

(** An element without ["id"], or with ["id"] and without ["title"]. *)
Lemma from_dict_missing_id (now : str) (entries : list (str * pyval)) :
  lookup (lit "id") entries = None ->
  from_dict now (PDict entries) = Raise (KeyError (lit "id")).
Proof. intros H. unfold from_dict, getitem. now rewrite H. Qed.

Lemma from_dict_missing_title (now : str) (entries : list (str * pyval)) :
  lookup (lit "id") entries <> None ->
  lookup (lit "title") entries = None ->
  from_dict now (PDict entries) = Raise (KeyError (lit "title")).
Proof.
  intros Hi Ht. unfold from_dict, getitem.
  destruct (lookup (lit "id") entries); [|contradiction].
  cbn [rbind]. now rewrite Ht.
Qed.

End StorageFacts.

Section StorageDefaults.
Context {rt : Runtime}.

(** An element with ["id"] and ["title"] and no optional key: every optional
    field takes its default. *)
Lemma from_dict_all_defaults (now : str) (entries : list (str * pyval))
    (v_id v_title : pyval) :
  lookup (lit "id") entries = Some v_id ->
  lookup (lit "title") entries = Some v_title ->
  (forall k d, In (k, d) (optional_defaults now) -> lookup k entries = None) ->
  from_dict now (PDict entries) =
  Task_new (py_str v_id) (py_str v_title) [] 3 false [] now.
Proof.
  intros Hi Ht Hopt. unfold from_dict, getitem, dict_get.
  rewrite Hi, Ht.
  rewrite (Hopt (lit "description") (PStr [])) by (simpl; tauto).
  rewrite (Hopt (lit "priority") (PInt 3)) by (simpl; tauto).
  rewrite (Hopt (lit "done") (PBool false)) by (simpl; tauto).
  rewrite (Hopt (lit "tags") (PList [])) by (simpl; tauto).
  rewrite (Hopt (lit "created_at") (PStr now)) by (simpl; tauto).
  reflexivity.
Qed.

(** Loading stops at the first element that fails to decode. *)
Lemma load_tasks_fails_at (clock : nat -> str) (pre post : list pyval) (item : pyval)
    (ts : list Task) (e : exn) :
  from_dicts clock 0 pre = Ok ts ->
  from_dict (clock (List.length pre)) item = Raise e ->
  load_tasks clock (Content (PList (pre ++ item :: post))) =
  (Raise e, Content (PList (pre ++ item :: post))).
Proof.
  intros Hpre Hitem. rewrite load_tasks_content, from_dicts_app, Hpre.
  simpl. now rewrite Hitem.
Qed.

End StorageDefaults.

(** ** service.py *)

Lemma py_sum_from (l : list Z) (acc : Z) : fold_left Z.add l acc = acc + py_sum l.
Proof.
  unfold py_sum. revert acc. induction l as [|x l IH]; intros acc; simpl; [lia|].
  rewrite IH, (IH x). lia.
Qed.

(** [sum(1 for x in l)] is the length of [l]. *)
Lemma py_sum_ones {A} (l : list A) : py_sum (map (fun _ => 1) l) = len l.
Proof.
  unfold len. induction l as [|x l IH]; [reflexivity|].
  unfold py_sum in *. cbn [map fold_left List.length].
  rewrite py_sum_from. unfold py_sum. rewrite IH. lia.
Qed.

Lemma filter_length_split {A} (p : A -> bool) (l : list A) :
  (List.length (filter p l) + List.length (filter (fun x => negb (p x)) l)
   = List.length l)%nat.
Proof.
  induction l as [|x l IH]; simpl; [reflexivity|].
  destruct (p x); simpl; lia.
Qed.

Lemma filter_twice {A} (p q : A -> bool) (l : list A) :
  filter q (filter p l) = filter (fun x => p x && q x) l.
Proof.
  induction l as [|x l IH]; simpl; [reflexivity|].
  destruct (p x); simpl; [|exact IH].
  destruct (q x); [f_equal|]; exact IH.
Qed.

Lemma filter_all {A} (p : A -> bool) (l : list A) :
  (forall x, In x l -> p x = true) -> filter p l = l.
Proof.
  induction l as [|x l IH]; simpl; intros H; [reflexivity|].
  rewrite (H x) by now left. f_equal. apply IH. intros y Hy. apply H. now right.
Qed.

Lemma filter_length_eq {A} (p : A -> bool) (l : list A) :
  List.length (filter p l) = List.length l -> forall x, In x l -> p x = true.
Proof.
  induction l as [|x l IH]; simpl; intros H y Hy; [contradiction|].
  pose proof (filter_length_le p l) as Hle.
  destruct (p x) eqn:E; simpl in H.
  - destruct Hy as [<- | Hy]; [exact E | apply IH; [lia | exact Hy]].
  - lia.
Qed.

(** The loop of [complete_task] when no task has the id. *)
Lemma mark_first_none (task_id : str) (tasks : list Task) :
  (forall t, In t tasks -> id t <> task_id) ->
  mark_first task_id tasks = (tasks, false).
Proof.
  induction tasks as [|t tasks IH]; simpl; intros H; [reflexivity|].
  assert (str_eqb (id t) task_id = false) as ->
    by (apply str_eqb_neq, H; now left).
  rewrite IH; [reflexivity|]. intros u Hu. apply H. now right.
Qed.

(** The loop of [complete_task] when [t] is the first task with the id. *)
Lemma mark_first_some (task_id : str) (pre post : list Task) (t : Task) :
  (forall u, In u pre -> id u <> task_id) -> id t = task_id ->
  mark_first task_id (pre ++ t :: post) = (pre ++ set_done t :: post, true).
Proof.
  intros Hpre Ht. induction pre as [|u pre IH]; simpl.
  - assert (str_eqb (id t) task_id = true) as -> by now apply str_eqb_eq.
    reflexivity.
  - assert (str_eqb (id u) task_id = false) as ->
      by (apply str_eqb_neq, Hpre; now left).
    rewrite IH; [reflexivity|]. intros v Hv. apply Hpre. now right.
Qed.

Lemma mark_first_flag (task_id : str) (tasks : list Task) :
  snd (mark_first task_id tasks) = existsb (has_id task_id) tasks.
Proof.
  induction tasks as [|t tasks IH]; simpl; [reflexivity|].
  unfold has_id at 1. destruct (str_eqb (id t) task_id); [reflexivity|].
  destruct (mark_first task_id tasks). simpl in *. exact IH.
Qed.

(** A list with a task of the id splits at the first one. *)
Lemma first_match_split (task_id : str) (tasks : list Task) :
  existsb (has_id task_id) tasks = true ->
  exists pre t post,
    tasks = pre ++ t :: post /\ (forall u, In u pre -> id u <> task_id) /\
    id t = task_id.
Proof.
  induction tasks as [|t tasks IH]; simpl; [discriminate|].
  unfold has_id at 1. destruct (str_eqb (id t) task_id) eqn:E; simpl.
  - intros _. exists [], t, tasks. repeat split.
    + intros u [].
    + now apply str_eqb_eq.
  - intros H. destruct (IH H) as (pre & u & post & -> & Hpre & Hu).
    exists (t :: pre), u, post. repeat split; [|exact Hu].
    intros v [<- | Hv]; [now apply str_eqb_neq | now apply Hpre].
Qed.

Lemma existsb_has_id_false (task_id : str) (tasks : list Task) :
  existsb (has_id task_id) tasks = false <->
  (forall t, In t tasks -> id t <> task_id).
Proof.
  induction tasks as [|t tasks IH]; simpl.
  - split; [intros _ u [] | reflexivity].
  - rewrite orb_false_iff, IH. unfold has_id. rewrite str_eqb_neq. split.
    + intros [H1 H2] u [<- | Hu]; [exact H1 | now apply H2].
    + intros H. split; [apply H; now left | intros u Hu; apply H; now right].
Qed.

(** Removing the tasks of an id that only [t] has. *)
Lemma filter_unique_id (task_id : str) (pre post : list Task) (t : Task) :
  (forall u, In u (pre ++ post) -> id u <> task_id) -> id t = task_id ->
  filter (fun task => negb (has_id task_id task)) (pre ++ t :: post) = pre ++ post.
Proof.
  intros Hothers Ht. rewrite filter_app. simpl.
  assert (has_id task_id t = true) as -> by now apply str_eqb_eq.
  simpl. rewrite <- filter_app. apply filter_all.
  intros u Hu. apply negb_true_iff, str_eqb_neq. now apply Hothers.
Qed.

Section ServiceFacts.
Context {rt : Runtime}.

(** The two comprehensions of [list_tasks] keep the [selected] tasks. *)
Lemma list_tasks_run (clock : nat -> str) (include_done : bool) (query : option str)
    (f : file) (tasks : list Task) :
  load_tasks clock f = (Ok tasks, f) ->
  list_tasks clock include_done query f =
  (Ok (sorted_by key_ltb sort_key (filter (selected include_done query) tasks)), f).
Proof.
  intros Hload. unfold list_tasks, io_bind. rewrite Hload. unfold io_ret.
  do 2 f_equal. f_equal.
  unfold selected. destruct include_done; simpl.
  - destruct query as [[|c q]|]; simpl; try (symmetry; now apply filter_all).
    reflexivity.
  - destruct query as [[|c q]|]; simpl.
    + apply filter_ext. intros t. now rewrite andb_true_r.
    + apply filter_twice.
    + apply filter_ext. intros t. now rewrite andb_true_r.
Qed.

(** Saving, by cases: the tasks encode, or the file is left empty. *)
Lemma save_tasks_run (tasks : list Task) (f : file) :
  save_tasks tasks f =
  if forallb task_encodable tasks then (Ok tt, Content (PList (map to_dict tasks)))
  else (Raise UnicodeEncodeError, Unparsable).
Proof. reflexivity. Qed.

Lemma complete_task_run (clock : nat -> str) (task_id : str) (f : file)
    (tasks : list Task) :
  load_tasks clock f = (Ok tasks, f) ->
  complete_task clock task_id f =
  if existsb (has_id task_id) tasks
  then if forallb task_encodable (fst (mark_first task_id tasks))
       then (Ok true, Content (PList (map to_dict (fst (mark_first task_id tasks)))))
       else (Raise UnicodeEncodeError, Unparsable)
  else (Ok false, f).
Proof.
  intros Hload. unfold complete_task, io_bind. rewrite Hload.
  rewrite <- mark_first_flag.
  destruct (mark_first task_id tasks) as [tasks' changed]. simpl.
  destruct changed; [|reflexivity].
  rewrite save_tasks_run. now destruct (forallb task_encodable tasks').
Qed.

Lemma delete_task_run (clock : nat -> str) (task_id : str) (f : file)
    (tasks : list Task) :
  load_tasks clock f = (Ok tasks, f) ->
  delete_task clock task_id f =
  if existsb (has_id task_id) tasks
  then if forallb task_encodable
            (filter (fun task => negb (has_id task_id task)) tasks)
       then (Ok true,
             Content (PList (map to_dict
                        (filter (fun task => negb (has_id task_id task)) tasks))))
       else (Raise UnicodeEncodeError, Unparsable)
  else (Ok false, f).
Proof.
  intros Hload. unfold delete_task, io_bind. rewrite Hload.
  fold (has_id task_id).
  change (fun task => negb (str_eqb (id task) task_id))
    with (fun task => negb (has_id task_id task)).
  destruct (existsb (has_id task_id) tasks) eqn:E.
  - destruct (len _ =? len tasks) eqn:El;
      [|rewrite save_tasks_run;
        now destruct (forallb task_encodable
                        (filter (fun task => negb (has_id task_id task)) tasks))].
    apply Z.eqb_eq in El. unfold len in El. apply Nat2Z.inj in El.
    pose proof (filter_length_eq _ _ El) as Hall.
    apply existsb_exists in E as (t & Hin & Ht).
    specialize (Hall t Hin). simpl in Hall. rewrite Ht in Hall. discriminate.
  - rewrite filter_all.
    + now rewrite Z.eqb_refl.
    + intros t Hin. apply negb_true_iff. apply str_eqb_neq.
      now apply (proj1 (existsb_has_id_false task_id tasks) E).
Qed.

Lemma add_task_run (clock : nat -> str) (uuid now title0 description0 : str)
    (priority0 : Z) (tags0 : option (list str)) (f : file) (tasks : list Task) :
  load_tasks clock f = (Ok tasks, f) ->
  add_task clock uuid now title0 description0 priority0 tags0 f =
  match Task_new uuid title0 description0 priority0 false (or_empty tags0) now with
  | Ok task =>
      if forallb task_encodable (tasks ++ [task])
      then (Ok task, Content (PList (map to_dict (tasks ++ [task]))))
      else (Raise UnicodeEncodeError, Unparsable)
  | Raise e => (Raise e, f)
  end.
Proof.
  intros Hload. unfold add_task, io_bind. rewrite Hload. unfold io_lift.
  destruct (Task_new _ _ _ _ _ _ _) as [task|e]; [|reflexivity].
  rewrite save_tasks_run. now destruct (forallb task_encodable (tasks ++ [task])).
Qed.

(** What a mutation saved loads back as the collection saved. *)
Lemma load_saved (clock : nat -> str) (tasks : list Task) :
  Forall valid_task tasks ->
  load_tasks clock (Content (PList (map to_dict tasks)))
  = (Ok tasks, Content (PList (map to_dict tasks))).
Proof.
  intros H. rewrite load_tasks_content. now rewrite from_dicts_to_dict.
Qed.

End ServiceFacts.

Lemma StronglySorted_impl {A} (R R' : A -> A -> Prop) (l : list A) :
  (forall a b, R a b -> R' a b) -> StronglySorted R l -> StronglySorted R' l.
Proof.
  intros HR. induction 1 as [|x l Hs IH Hx]; constructor; [exact IH|].
  eapply Forall_impl; [|exact Hx]. intros b. apply HR.
Qed.

Section SelectedFacts.
Context {rt : Runtime}.

(** [selected] spelled out: the done flag and the query. *)
Lemma selected_spec (include_done : bool) (query : option str) (t : Task) :
  selected include_done query t = true <->
  (include_done = false -> done t = false) /\
  (forall q, query = Some q -> q <> [] ->
     exists pre post, lower (title t) = pre ++ lower q ++ post).
Proof.
  unfold selected. rewrite andb_true_iff. split.
  - intros [Hd Hq]. split.
    + intros ->. simpl in Hd. now apply negb_true_iff.
    + intros q -> Hne. destruct q as [|c q]; [contradiction|].
      apply str_in_spec. exact Hq.
  - intros [Hd Hq]. split.
    + destruct include_done; [reflexivity|]. simpl. now rewrite (Hd eq_refl).
    + destruct query as [[|c q]|]; try reflexivity.
      apply str_in_spec. apply Hq; [reflexivity | discriminate].
Qed.

End SelectedFacts.

(** ** async_jobs.py *)

Lemma coro_bind_ext {A B} (m : coro A) (k k' : A -> coro B) :
  (forall a, k a = k' a) -> coro_bind m k = coro_bind m k'.
Proof.
  intros H. induction m as [a|e|d m IH]; simpl; [apply H | reflexivity | now rewrite IH].
Qed.

Lemma run_bind {A B} (m : coro A) (k : A -> coro B) :
  run (coro_bind m k) =
  match run m with
  | (ds, Ok a) => let (ds', r) := run (k a) in (ds ++ ds', r)
  | (ds, Raise e) => (ds, Raise e)
  end.
Proof.
  induction m as [a|e|d m IH]; simpl.
  - now destruct (run (k a)).
  - reflexivity.
  - rewrite IH. destruct (run m) as [ds [a|e]]; [|reflexivity].
    now destruct (run (k a)).
Qed.

(** [simulate_sync] sleeps once per task and counts the tasks. *)
Lemma run_simulate_sync_from (synced : Z) (tasks : list Task) (delay : float) :
  run (simulate_sync_from synced tasks delay)
  = (repeat delay (List.length tasks), Ok (synced + len tasks)).
Proof.
  unfold len. revert synced. induction tasks as [|t tasks IH]; intros synced; simpl.
  - now rewrite Z.add_0_r.
  - rewrite IH. do 2 f_equal. lia.
Qed.

Lemma run_sync_batches (total : Z) (delay : float) (bl : list (list Task)) :
  run (sync_batches total delay bl)
  = (repeat delay (List.length (concat bl)), Ok (total + len (concat bl))).
Proof.
  unfold len. revert total. induction bl as [|b bl IH]; intros total; simpl.
  - now rewrite Z.add_0_r.
  - rewrite run_bind. unfold simulate_sync. rewrite run_simulate_sync_from, IH.
    rewrite length_app, repeat_app. unfold len. do 2 f_equal. lia.
Qed.

Lemma sync_from_batches (total : Z) (tasks : list Task) (batch_size : Z)
    (delay : float) (starts : list Z) :
  sync_from total tasks batch_size delay starts
  = sync_batches total delay
      (map (fun start => slice tasks start (start + batch_size)) starts).
Proof.
  revert total. induction starts as [|start more IH]; intros total; simpl;
    [reflexivity|].
  apply coro_bind_ext. intros n. apply IH.
Qed.

(** The batches of indices [0 .. k-1] are the first [k * b] elements. *)
Lemma concat_slices {A} (l : list A) (b k : nat) :
  concat (map (fun i => skipn (i * b) (firstn (i * b + b) l)) (seq 0 k))
  = firstn (k * b) l.
Proof.
  induction k as [|k IH]; [reflexivity|].
  rewrite seq_S, map_app, concat_app, IH. simpl. rewrite app_nil_r.
  replace (firstn (k * b) l) with (firstn (k * b) (firstn (k * b + b) l)).
  - rewrite firstn_skipn. f_equal. lia.
  - rewrite firstn_firstn. f_equal. lia.
Qed.

Lemma py_range_from_zero (stop step : Z) :
  0 < step ->
  py_range 0 stop step
  = map (fun i => Z.of_nat (i * Z.to_nat step))
        (seq 0 (Z.to_nat ((stop + step - 1) / step))).
Proof.
  intros Hstep. unfold py_range. rewrite Z.sub_0_r.
  apply map_ext. intros i. lia.
Qed.

(** The number of batches: enough to cover the list, and no more. *)
Lemma batch_count_bounds (n step : Z) :
  0 <= n -> 0 < step ->
  let k := (n + step - 1) / step in
  0 <= k /\ n <= k * step /\ (0 < k -> (k - 1) * step < n).
Proof.
  intros Hn Hstep k. subst k.
  pose proof (Z.div_mod (n + step - 1) step ltac:(lia)) as Hdm.
  pose proof (Z.mod_pos_bound (n + step - 1) step Hstep) as Hmod.
  assert (0 <= (n + step - 1) / step) by (apply Z.div_pos; lia).
  repeat split; nia.
Qed.

Lemma batches_as_slices (tasks : list Task) (batch_size : Z) :
  0 < batch_size ->
  batches tasks batch_size
  = map (fun i => skipn (i * Z.to_nat batch_size)
                    (firstn (i * Z.to_nat batch_size + Z.to_nat batch_size) tasks))
        (seq 0 (Z.to_nat ((len tasks + batch_size - 1) / batch_size))).
Proof.
  intros Hb. unfold batches. rewrite py_range_from_zero by exact Hb.
  rewrite map_map. apply map_ext. intros i. unfold slice.
  rewrite Nat2Z.id. do 2 f_equal. lia.
Qed.

(** The batches, one after the other, are the tasks. *)
Lemma concat_batches (tasks : list Task) (batch_size : Z) :
  0 < batch_size -> concat (batches tasks batch_size) = tasks.
Proof.
  intros Hb. rewrite batches_as_slices by exact Hb. rewrite concat_slices.
  apply firstn_all2.
  destruct (batch_count_bounds (len tasks) batch_size) as (Hk & Hcover & _);
    [unfold len; lia | exact Hb |].
  unfold len in *. nia.
Qed.

(** Every batch has between 1 and [batch_size] tasks, and every batch but the
    last has [batch_size]. *)
Lemma batches_sizes (tasks : list Task) (batch_size : Z) (i : nat) (b : list Task) :
  0 < batch_size ->
  nth_error (batches tasks batch_size) i = Some b ->
  0 < len b <= batch_size /\
  (S i < List.length (batches tasks batch_size) -> len b = batch_size)%nat.
Proof.
  intros Hb Hnth. rewrite batches_as_slices in * by exact Hb.
  rewrite length_map, length_seq.
  destruct (batch_count_bounds (len tasks) batch_size) as (Hk & Hcover & Hlast);
    [unfold len; lia | exact Hb |].
  set (k := (len tasks + batch_size - 1) / batch_size) in *.
  assert (i < Z.to_nat k)%nat as Hi.
  { assert (nth_error (map (fun i => skipn (i * Z.to_nat batch_size)
                (firstn (i * Z.to_nat batch_size + Z.to_nat batch_size) tasks))
              (seq 0 (Z.to_nat k))) i <> None) as Hsome by congruence.
    apply nth_error_Some in Hsome. now rewrite length_map, length_seq in Hsome. }
  rewrite nth_error_map, nth_error_seq in Hnth.
  destruct (Nat.ltb_spec i (Z.to_nat k)); [|lia]. simpl in Hnth.
  injection Hnth as <-. unfold len in *.
  rewrite length_skipn, length_firstn. split.
  - nia.
  - intros Hnext. nia.
Qed.

(** ** analytics.py: the words of a text *)

Lemma runs_of_gap (c : char) (s : str) (ws : list str) :
  is_word_char c = false -> runs_of s ws -> runs_of (c :: s) ws.
Proof.
  intros Hc H. destruct H as [gap Hgap | gap w rest ws Hgap Hw Hword Hrest Hruns].
  - apply runs_done. now constructor.
  - apply (runs_word (c :: gap) w rest ws); try assumption. now constructor.
Qed.

(** The scan, with a run [cur] being read or none. *)
Lemma findall_from_runs (s : str) :
  forall cur, Forall (fun c => is_word_char c = true) cur ->
    (cur = [] -> runs_of s (findall_from [] s)) /\
    (cur <> [] ->
     exists w rest ws,
       findall_from cur s = (rev cur ++ w) :: ws /\ s = w ++ rest /\
       Forall (fun c => is_word_char c = true) w /\
       match rest with [] => True | c :: _ => is_word_char c = false end /\
       runs_of rest ws).
Proof.
  induction s as [|c s IH]; intros cur Hcur.
  - split.
    + intros _. simpl. apply runs_done. constructor.
    + intros Hne. exists [], [], []. destruct cur as [|d cur]; [congruence|].
      simpl. rewrite app_nil_r. repeat split; repeat constructor.
  - destruct (is_word_char c) eqn:Ec.
    + assert (Hcur' : forall l, Forall (fun c => is_word_char c = true) l ->
                Forall (fun c => is_word_char c = true) (c :: l))
        by (intros l Hl; now constructor).
      split.
      * intros _. simpl. rewrite Ec.
        destruct (IH [c] (Hcur' [] (Forall_nil _))) as [_ H].
        destruct H as (w & rest & ws & Hf & -> & Hw & Hrest & Hruns); [discriminate|].
        rewrite Hf. simpl.
        apply (runs_word [] (c :: w) rest ws); try assumption;
          [constructor | discriminate | now constructor].
      * intros Hne. simpl. rewrite Ec.
        destruct (IH (c :: cur) (Hcur' cur Hcur)) as [_ H].
        destruct H as (w & rest & ws & Hf & -> & Hw & Hrest & Hruns); [discriminate|].
        exists (c :: w), rest, ws. rewrite Hf. simpl. rewrite <- app_assoc. simpl.
        repeat split; try assumption. now constructor.
    + destruct (IH [] (Forall_nil _)) as [Hruns _]. specialize (Hruns eq_refl).
      split.
      * intros ->. simpl. rewrite Ec. now apply runs_of_gap.
      * intros Hne. exists [], (c :: s), (findall_from [] s).
        destruct cur as [|d cur]; [congruence|].
        simpl. rewrite Ec, app_nil_r. repeat split; try assumption; repeat constructor.
        now apply runs_of_gap.
Qed.

(** [_WORD_RE.findall(s)] is the list of the maximal runs of word characters. *)
Lemma findall_runs (s : str) : runs_of s (_WORD_RE_findall s).
Proof.
  now apply (proj1 (findall_from_runs s [] (Forall_nil _))).
Qed.

Lemma str_mem_In (w : str) (words : list str) : str_mem w words = true <-> In w words.
Proof.
  unfold str_mem. rewrite existsb_exists. split.
  - intros (x & Hin & Hx). apply str_eqb_eq in Hx. now subst.
  - intros Hin. exists w. split; [exact Hin | apply str_eqb_refl].
Qed.

(** What the comprehension of [top_keywords] keeps. *)
Lemma keep_word_spec (w : str) :
  keep_word w = true <-> ~ In w _STOPWORDS /\ 2 < len w.
Proof.
  unfold keep_word. rewrite andb_true_iff, negb_true_iff, Z.ltb_lt.
  rewrite <- str_mem_In. destruct (str_mem w _STOPWORDS); intuition congruence.
Qed.

(** ** Sorted lists *)

Lemma StronglySorted_impl_in {A} (R R' : A -> A -> Prop) (l : list A) :
  (forall a b, In a l -> In b l -> R a b -> R' a b) ->
  StronglySorted R l -> StronglySorted R' l.
Proof.
  intros HR Hs. induction Hs as [|x l Hs IH Hx]; constructor.
  - apply IH. intros a b Ha Hb. apply HR; now right.
  - rewrite Forall_forall in *. intros b Hb. apply HR; [now left | now right | now apply Hx].
Qed.

Lemma StronglySorted_app {A} (R : A -> A -> Prop) (l1 l2 : list A) :
  StronglySorted R (l1 ++ l2) <->
  StronglySorted R l1 /\ StronglySorted R l2 /\
  (forall a b, In a l1 -> In b l2 -> R a b).
Proof.
  induction l1 as [|x l1 IH]; simpl.
  - split; [intros H | intros (_ & H & _); exact H].
    repeat split; [constructor | exact H | intros a b []].
  - split.
    + intros H. inversion H as [|? ? Hs Hx]; subst.
      apply IH in Hs as (H1 & H2 & H12). rewrite Forall_forall in Hx.
      repeat split; [constructor; [exact H1|] | exact H2 |].
      * apply Forall_forall. intros b Hb. apply Hx, in_or_app. now left.
      * intros a b [<- | Ha] Hb; [apply Hx, in_or_app; now right | now apply H12].
    + intros (H1 & H2 & H12). inversion H1 as [|? ? Hs Hx]; subst.
      constructor.
      * apply IH. repeat split; [exact Hs | exact H2 |].
        intros a b Ha Hb. apply H12; [now right | exact Hb].
      * apply Forall_forall. intros b Hb. apply in_app_or in Hb as [Hb | Hb].
        -- rewrite Forall_forall in Hx. now apply Hx.
        -- apply H12; [now left | exact Hb].
Qed.

Lemma StronglySorted_map {A B} (R : B -> B -> Prop) (g : A -> B) (l : list A) :
  StronglySorted (fun a b => R (g a) (g b)) l <-> StronglySorted R (map g l).
Proof.
  induction l as [|x l IH]; simpl.
  - split; constructor.
  - split; intros H; inversion H as [|? ? Hs Hx]; subst; constructor;
      try (now apply IH).
    + apply Forall_forall. intros b Hb. apply in_map_iff in Hb as (a & <- & Ha).
      rewrite Forall_forall in Hx. now apply Hx.
    + apply Forall_forall. intros a Ha. rewrite Forall_forall in Hx.
      apply Hx. now apply in_map.
Qed.

(** In a sorted list an element stands in relation with every later one. *)
Lemma StronglySorted_nth {A} (R : A -> A -> Prop) (l : list A) (i j : nat) (a b : A) :
  StronglySorted R l -> (i < j)%nat ->
  nth_error l i = Some a -> nth_error l j = Some b -> R a b.
Proof.
  intros Hs. revert i j. induction Hs as [|x l Hs IH Hx]; intros i j Hij Hi Hj.
  - destruct i; discriminate.
  - destruct j as [|j]; [lia|]. simpl in Hj. destruct i as [|i]; simpl in Hi.
    + injection Hi as <-. rewrite Forall_forall in Hx. apply Hx.
      eapply nth_error_In. exact Hj.
    + apply (IH i j); [lia | assumption | assumption].
Qed.

Section LexFacts.
Context {A K : Type} (ltb : K -> K -> bool) (key : A -> K) (T : A -> A -> Prop).

Hypothesis ltb_asym : forall a b, ltb a b = true -> ltb b a = false.
Hypothesis leb_trans :
  forall a b c, ltb b a = false -> ltb c b = false -> ltb c a = false.

(** Sorting a list that is in [T] order: an element stands before the ones with
    a greater key, and before the ones with an equivalent key that it preceded
    in [T]. *)
Lemma insert_by_lex (x : A) (l : list A) :
  StronglySorted (fun a b => ltb (key b) (key a) = false /\
                             (ltb (key a) (key b) = true \/ T a b)) l ->
  Forall (T x) l ->
  StronglySorted (fun a b => ltb (key b) (key a) = false /\
                             (ltb (key a) (key b) = true \/ T a b))
                 (insert_by ltb key x l).
Proof.
  intros Hs HT. induction Hs as [|y l Hs IH Hy]; simpl.
  - repeat constructor.
  - inversion HT as [|? ? HTy HTl]; subst.
    destruct (ltb (key y) (key x)) eqn:E.
    + constructor; [now apply IH|].
      apply Forall_forall. intros z Hz. apply insert_by_in in Hz as [-> | Hz].
      * split; [now apply ltb_asym | now left].
      * rewrite Forall_forall in Hy. now apply Hy.
    + constructor; [now constructor|].
      constructor; [split; [exact E | now right]|].
      rewrite Forall_forall in *. intros z Hz. split.
      * eapply leb_trans; [exact E | now apply Hy].
      * right. now apply HTl.
Qed.

Lemma sorted_by_lex (l : list A) :
  StronglySorted T l ->
  StronglySorted (fun a b => ltb (key b) (key a) = false /\
                             (ltb (key a) (key b) = true \/ T a b))
                 (sorted_by ltb key l).
Proof.
  induction 1 as [|x l Hs IH Hx]; simpl; [constructor|].
  apply insert_by_lex; [exact IH|].
  rewrite Forall_forall in *. intros y Hy. apply Hx.
  eapply Permutation_in; [apply Permutation_sym, (sorted_by_perm ltb key) | exact Hy].
Qed.

End LexFacts.

(** ** analytics.py: counting *)

Lemma first_index_app_in (k : str) (ws l : list str) :
  In k ws -> first_index k (ws ++ l) = first_index k ws.
Proof.
  induction ws as [|x ws IH]; simpl; [intros []|].
  intros Hin. destruct (str_eqb x k) eqn:E; [reflexivity|].
  f_equal. apply IH. destruct Hin as [-> | Hin]; [|exact Hin].
  rewrite str_eqb_refl in E. discriminate.
Qed.

Lemma first_index_lt (k : str) (ws : list str) :
  In k ws -> (first_index k ws < List.length ws)%nat.
Proof.
  induction ws as [|x ws IH]; simpl; [intros []|].
  intros Hin. destruct (str_eqb x k) eqn:E; [lia|].
  apply -> Nat.succ_lt_mono. apply IH. destruct Hin as [-> | Hin]; [|exact Hin].
  rewrite str_eqb_refl in E. discriminate.
Qed.

Lemma first_index_new (k : str) (ws : list str) :
  ~ In k ws -> first_index k (ws ++ [k]) = List.length ws.
Proof.
  induction ws as [|x ws IH]; simpl; intros Hnot.
  - now rewrite str_eqb_refl.
  - destruct (str_eqb x k) eqn:E.
    + apply str_eqb_eq in E. subst. destruct Hnot. now left.
    + f_equal. apply IH. intros Hin. apply Hnot. now right.
Qed.

Lemma occurrences_snoc (k w : str) (ws : list str) :
  occurrences k (ws ++ [w]) = occurrences k ws + (if str_eqb w k then 1 else 0).
Proof.
  unfold occurrences. rewrite count_occ_app. simpl.
  destruct (str_eq_dec w k) as [-> | Hne].
  - rewrite str_eqb_refl. lia.
  - apply str_eqb_neq in Hne. rewrite Hne. lia.
Qed.

Lemma occurrences_absent (k : str) (ws : list str) : ~ In k ws -> occurrences k ws = 0.
Proof.
  intros H. unfold occurrences.
  now rewrite (proj1 (count_occ_not_In str_eq_dec ws k) H).
Qed.

Lemma Counter_snoc (ws : list str) (w : str) :
  Counter (ws ++ [w]) = counter_incr w (Counter ws).
Proof. unfold Counter. now rewrite fold_left_app. Qed.

Lemma counter_incr_present (w : str) (n : Z) (c1 c2 : list (str * Z)) :
  ~ In w (map fst c1) ->
  counter_incr w (c1 ++ (w, n) :: c2) = c1 ++ (w, n + 1) :: c2.
Proof.
  induction c1 as [|[k m] c1 IH]; simpl; intros Hnot.
  - now rewrite str_eqb_refl.
  - destruct (str_eqb k w) eqn:E.
    + apply str_eqb_eq in E. subst. destruct Hnot. now left.
    + f_equal. apply IH. intros Hin. apply Hnot. now right.
Qed.

Lemma counter_incr_absent (w : str) (c : list (str * Z)) :
  ~ In w (map fst c) -> counter_incr w c = c ++ [(w, 1)].
Proof.
  induction c as [|[k m] c IH]; simpl; intros Hnot; [reflexivity|].
  destruct (str_eqb k w) eqn:E.
  - apply str_eqb_eq in E. subst. destruct Hnot. now left.
  - f_equal. apply IH. intros Hin. apply Hnot. now right.
Qed.

(** [Counter(words)] counts [words]. *)
Lemma Counter_counts (ws : list str) : counts_of ws (Counter ws).
Proof.
  induction ws as [|w ws IH] using rev_ind.
  - repeat split; try constructor; simpl; tauto.
  - destruct IH as (Hnd & Hkeys & Hvals & Hsort).
    rewrite Counter_snoc.
    assert (Hfi : forall a b, In a (map fst (Counter ws)) -> In b (map fst (Counter ws)) ->
              (first_index a ws < first_index b ws)%nat ->
              (first_index a (ws ++ [w]) < first_index b (ws ++ [w]))%nat).
    { intros a b Ha Hb Hlt. apply Hkeys in Ha, Hb.
      now rewrite !first_index_app_in. }
    destruct (in_dec str_eq_dec w ws) as [Hin | Hnot].
    + (* a word met before: its entry is incremented in place *)
      assert (In w (map fst (Counter ws))) as Hk by now apply Hkeys.
      apply in_map_iff in Hk as ([k n] & Hfst & Hentry). simpl in Hfst. subst k.
      apply in_split in Hentry as (c1 & c2 & Hc).
      rewrite Hc in *. rewrite map_app in Hnd. simpl in Hnd.
      assert (~ In w (map fst c1) /\ ~ In w (map fst c2)) as [Hc1 Hc2].
      { apply NoDup_remove_2 in Hnd. split; intros H; apply Hnd, in_or_app; tauto. }
      rewrite counter_incr_present by exact Hc1.
      assert (Hsame : map fst (c1 ++ (w, n + 1) :: c2) = map fst (c1 ++ (w, n) :: c2))
        by now rewrite !map_app.
      repeat split.
      * rewrite Hsame, map_app. exact Hnd.
      * rewrite Hsame. intros H. apply Hkeys in H. apply in_or_app. now left.
      * rewrite Hsame. intros H. apply Hkeys.
        apply in_app_or in H as [H | [<- | []]]; assumption.
      * intros k m Hkm. rewrite occurrences_snoc.
        apply in_app_or in Hkm as [Hkm | [Hkm | Hkm]].
        -- assert (str_eqb w k = false) as ->.
           { apply str_eqb_neq. intros <-. apply Hc1.
             apply in_map_iff. now exists (w, m). }
           rewrite Z.add_0_r. apply Hvals, in_or_app. now left.
        -- injection Hkm as <- <-. rewrite str_eqb_refl.
           f_equal. apply Hvals, in_or_app. right. now left.
        -- assert (str_eqb w k = false) as ->.
           { apply str_eqb_neq. intros <-. apply Hc2.
             apply in_map_iff. now exists (w, m). }
           rewrite Z.add_0_r. apply Hvals, in_or_app. right. now right.
      * rewrite Hsame. eapply StronglySorted_impl_in; [|exact Hsort]. exact Hfi.
    + (* a new word: a new entry, last *)
      assert (~ In w (map fst (Counter ws))) as Hk by (intros H; now apply Hkeys in H).
      rewrite counter_incr_absent by exact Hk.
      repeat split.
      * rewrite map_app. simpl. apply NoDup_app; [exact Hnd | repeat constructor; intros [] |].
        intros k Hk1 [<- | []]. contradiction.
      * rewrite map_app. simpl. intros H. apply in_or_app.
        apply in_app_or in H as [H | [<- | []]]; [left; now apply Hkeys | right; now left].
      * rewrite map_app. simpl. intros H. apply in_or_app.
        apply in_app_or in H as [H | [<- | []]]; [left; now apply Hkeys | right; now left].
      * intros k m Hkm. rewrite occurrences_snoc.
        apply in_app_or in Hkm as [Hkm | [Hkm | []]].
        -- assert (str_eqb w k = false) as ->.
           { apply str_eqb_neq. intros <-. apply Hk.
             apply in_map_iff. now exists (w, m). }
           rewrite Z.add_0_r. now apply Hvals.
        -- injection Hkm as <- <-. rewrite str_eqb_refl.
           now rewrite occurrences_absent.
      * rewrite map_app. simpl. apply StronglySorted_app. repeat split.
        -- eapply StronglySorted_impl_in; [|exact Hsort]. exact Hfi.
        -- repeat constructor.
        -- intros a b Ha [<- | []]. apply Hkeys in Ha.
           rewrite first_index_app_in by exact Ha.
           rewrite first_index_new by exact Hnot.
           now apply first_index_lt.
Qed.

Lemma occurrences_filter (p : str -> bool) (w : str) (ws : list str) :
  p w = true -> occurrences w (filter p ws) = occurrences w ws.
Proof.
  intros Hp. unfold occurrences. f_equal.
  induction ws as [|x ws IH]; simpl; [reflexivity|].
  destruct (str_eq_dec x w) as [-> | Hne].
  - rewrite Hp. simpl. destruct (str_eq_dec w w); [now rewrite IH | contradiction].
  - destruct (p x); simpl; [|exact IH].
    destruct (str_eq_dec x w); [contradiction | exact IH].
Qed.

Lemma occurrences_pos (w : str) (ws : list str) : In w ws -> 0 < occurrences w ws.
Proof.
  intros H. unfold occurrences.
  apply (count_occ_In str_eq_dec) in H. lia.
Qed.

(** The counter sorted for [most_common] is ranked: more frequent first, and
    among equally frequent words the one first met earlier. *)
Lemma most_common_ranked (ws : list str) :
  StronglySorted (ahead ws) (sorted_by (fun a b => b <? a) snd (Counter ws)).
Proof.
  destruct (Counter_counts ws) as (_ & _ & _ & Hsort).
  apply StronglySorted_map in Hsort.
  eapply StronglySorted_impl;
    [|apply (sorted_by_lex (fun a b => b <? a) snd
               (fun a b => (first_index (fst a) ws < first_index (fst b) ws)%nat))].
  - intros a b [Hge [Hgt | Hfi]]; unfold ahead.
    + left. now apply Z.ltb_lt.
    + apply Z.ltb_ge in Hge. destruct (Z.eq_dec (snd a) (snd b)); [now right | left; lia].
  - intros a b H. apply Z.ltb_lt in H. apply Z.ltb_ge. lia.
  - intros a b c H1 H2. apply Z.ltb_ge in H1, H2. apply Z.ltb_ge. lia.
  - exact Hsort.
Qed.

Section AnalyticsFacts.
Context {rt : Runtime}.

Lemma keyword_words_lowered (tasks : list Task) :
  keyword_words tasks
  = flat_map (fun texts => _WORD_RE_findall (fst texts) ++ _WORD_RE_findall (snd texts))
             (map lowered_texts tasks).
Proof.
  unfold keyword_words. induction tasks as [|t tasks IH]; simpl; [reflexivity|].
  now rewrite IH.
Qed.

Lemma top_keywords_unfold (tasks : list Task) (limit : Z) :
  top_keywords tasks limit
  = firstn (Z.to_nat limit)
           (sorted_by (fun a b => b <? a) snd (Counter (kept_words tasks))).
Proof. reflexivity. Qed.

(** The entries of the sorted counter: the kept words with their counts. *)
Lemma sorted_counter_entry (tasks : list Task) (w : str) (n : Z) :
  In (w, n) (sorted_by (fun a b => b <? a) snd (Counter (kept_words tasks))) <->
  In w (kept_words tasks) /\ n = occurrences w (kept_words tasks).
Proof.
  destruct (Counter_counts (kept_words tasks)) as (Hnd & Hkeys & Hvals & _).
  pose proof (sorted_by_perm (fun a b => b <? a) snd (Counter (kept_words tasks)))
    as Hperm.
  split.
  - intros Hin. eapply Permutation_in in Hin; [|apply Permutation_sym; exact Hperm].
    split; [|now apply Hvals]. apply Hkeys. apply in_map_iff. now exists (w, n).
  - intros [Hin ->]. eapply Permutation_in; [exact Hperm|].
    apply Hkeys in Hin. apply in_map_iff in Hin as ([k m] & Hfst & Hentry).
    simpl in Hfst. subst k. now rewrite <- (Hvals w m Hentry).
Qed.

End AnalyticsFacts.

(** ** The runs of a text are determined *)

(** A text read as gap, run and rest in two ways is read the same way. *)
Lemma split_gap_run (gap gap' w w' rest rest' : str) :
  Forall (fun c => is_word_char c = false) gap ->
  Forall (fun c => is_word_char c = false) gap' ->
  w <> [] -> w' <> [] ->
  Forall (fun c => is_word_char c = true) w ->
  Forall (fun c => is_word_char c = true) w' ->
  match rest with [] => True | c :: _ => is_word_char c = false end ->
  match rest' with [] => True | c :: _ => is_word_char c = false end ->
  gap ++ w ++ rest = gap' ++ w' ++ rest' ->
  gap = gap' /\ w = w' /\ rest = rest'.
Proof.
  intros Hg Hg' Hw Hw' Hword Hword' Hrest Hrest'.
  revert gap' Hg'. induction Hg as [|c gap Hc Hg IH]; intros gap' Hg' Heq.
  - destruct Hg' as [|c' gap' Hc' Hg'].
    + simpl in Heq. split; [reflexivity|].
      clear Hw Hw'. revert w' Hword' Heq.
      induction Hword as [|c w Hc Hword IH]; intros w' Hword' Heq.
      * destruct Hword' as [|c' w' Hc' Hword']; [now split|].
        simpl in Heq. subst rest. simpl in Hrest. congruence.
      * destruct Hword' as [|c' w' Hc' Hword'].
        -- simpl in Heq. subst rest'. simpl in Hrest'. congruence.
        -- simpl in Heq. injection Heq as <- Heq.
           destruct (IH w' Hword' Heq) as [-> ->]. now split.
    + destruct w as [|d w]; [congruence|]. simpl in Heq. injection Heq as -> _.
      inversion Hword; subst. congruence.
  - destruct Hg' as [|c' gap' Hc' Hg'].
    + destruct w' as [|d w']; [congruence|]. simpl in Heq. injection Heq as -> _.
      inversion Hword'; subst. congruence.
    + simpl in Heq. injection Heq as <- Heq.
      destruct (IH gap' Hg' Heq) as (-> & -> & ->). now repeat split.
Qed.

Lemma runs_of_unique (s : str) (ws ws' : list str) :
  runs_of s ws -> runs_of s ws' -> ws = ws'.
Proof.
  intros H. revert ws'.
  induction H as [gap Hgap | gap w rest ws Hgap Hw Hword Hrest Hruns IH];
    intros ws' H'.
  - inversion H' as [gap' Hgap' | gap' w' rest' ws1 Hgap' Hw' Hword' Hrest' Hruns' Heq];
      subst; [reflexivity|].
    destruct w' as [|d w']; [congruence|].
    rewrite Forall_forall in Hgap. inversion Hword'; subst.
    assert (is_word_char d = false) by (apply Hgap, in_or_app; right; now left).
    congruence.
  - inversion H' as [gap' Hgap' | gap' w' rest' ws1 Hgap' Hw' Hword' Hrest' Hruns' Heq].
    + subst. destruct w as [|d w]; [congruence|].
      rewrite Forall_forall in Hgap'. inversion Hword; subst.
      assert (is_word_char d = false) by (apply Hgap', in_or_app; right; now left).
      congruence.
    + subst. symmetry in Heq.
      destruct (split_gap_run _ _ _ _ _ _ Hgap Hgap' Hw Hw' Hword Hword' Hrest Hrest' Heq)
        as (-> & -> & ->).
      f_equal. now apply IH.
Qed.

(** The runs of [s] are what [_WORD_RE.findall(s)] returns, and nothing else. *)
Lemma findall_iff_runs (s : str) (ws : list str) :
  _WORD_RE_findall s = ws <-> runs_of s ws.
Proof.
  split.
  - intros <-. apply findall_runs.
  - intros H. eapply runs_of_unique; [apply findall_runs | exact H].
Qed.

(** ** Strings that encode *)

Lemma task_encodable_set_done (t : Task) :
  task_encodable (set_done t) = task_encodable t.
Proof. reflexivity. Qed.

Lemma encodable_marked (pre post : list Task) (t : Task) :
  forallb task_encodable (pre ++ set_done t :: post)
  = forallb task_encodable (pre ++ t :: post).
Proof. rewrite !forallb_app. reflexivity. Qed.

Lemma mark_first_encodable (task_id : str) (tasks : list Task) :
  forallb task_encodable (fst (mark_first task_id tasks))
  = forallb task_encodable tasks.
Proof.
  induction tasks as [|t tasks IH]; simpl; [reflexivity|].
  destruct (str_eqb (id t) task_id); [reflexivity|].
  destruct (mark_first task_id tasks) as [tasks' changed]. simpl in *.
  now rewrite IH.
Qed.

Lemma forallb_filter_true {A} (p q : A -> bool) (l : list A) :
  forallb p l = true -> forallb p (filter q l) = true.
Proof.
  rewrite !forallb_forall. intros H x Hx. apply filter_In in Hx as [Hx _].
  now apply H.
Qed.

Lemma set_done_done (t : Task) : done t = true -> set_done t = t.
Proof. destruct t. simpl. now intros ->. Qed.

(** [tags or []] is the list given, or the empty list for [None]. *)
Lemma or_empty_spec (tags0 : option (list str)) :
  or_empty tags0 = match tags0 with Some l => l | None => [] end.
Proof. now destruct tags0 as [[|x l]|]. Qed.

Lemma is_word_char_spec (c : char) :
  is_word_char c = true <->
  (65 <= c <= 90 \/ 97 <= c <= 122 \/ 1040 <= c <= 1103 \/ 48 <= c <= 57)%N.
Proof.
  unfold is_word_char.
  rewrite !orb_true_iff, !andb_true_iff, !N.leb_le. lia.
Qed.

Section WordsFacts.
Context {rt : Runtime}.

(** The words of the tasks: the runs of the lower-cased title, then those of
    the lower-cased description, task after task. *)
Lemma keyword_words_runs (tasks : list Task) :
  exists wss,
    Forall2 (fun t ws =>
               exists wt wd,
                 ws = wt ++ wd /\ runs_of (lower (title t)) wt /\
                 runs_of (lower (description t)) wd) tasks wss /\
    keyword_words tasks = concat wss.
Proof.
  induction tasks as [|t tasks (wss & Hall & Hw)].
  - exists []. split; [constructor | reflexivity].
  - exists ((_WORD_RE_findall (lower (title t)) ++
             _WORD_RE_findall (lower (description t))) :: wss).
    split.
    + constructor; [|exact Hall]. eexists. eexists.
      split; [reflexivity | split; apply findall_runs].
    + unfold keyword_words in *. simpl. now rewrite Hw.
Qed.

Lemma kept_words_filter (tasks : list Task) (kp : str -> bool) :
  (forall w, kp w = true <-> ~ In w _STOPWORDS /\ (2 < List.length w)%nat) ->
  kept_words tasks = filter kp (keyword_words tasks).
Proof.
  intros Hkp. unfold kept_words. apply filter_ext. intros w.
  destruct (kp w) eqn:E.
  - apply keep_word_spec. apply Hkp in E as [H1 H2]. split; [exact H1|].
    unfold len. lia.
  - destruct (keep_word w) eqn:Ek; [|reflexivity].
    apply keep_word_spec in Ek as [H1 H2].
    assert (kp w = true) by (apply Hkp; split; [exact H1 | unfold len in H2; lia]).
    congruence.
Qed.

End WordsFacts.

(** * The claims of the specification *)

(** ** Storage *)

(** C2. Round trip: for every sequence of valid tasks whose strings hold
    no lone surrogate (so that they encode as UTF-8), [save(tasks)] followed by
    [load()] succeeds and yields the tasks saved: the same number of tasks,
    each equal to its original in every field (id, title, description,
    priority, done, tags in order, created_at). With a lone surrogate in a
    string, [save] raises UnicodeEncodeError and leaves an empty file, which
    [load()] then rejects. *)
Theorem save_then_load_round_trip {rt : Runtime} (clock : nat -> str)
    (tasks : list Task) (f : file) :
  Forall valid_task tasks ->
  (forallb task_encodable tasks = true ->
   exists loaded,
     (_ <- save_tasks tasks ;; load_tasks clock)%io f
       = (Ok loaded, Content (PList (map to_dict tasks))) /\
     loaded = tasks /\
     List.length loaded = List.length tasks /\
     Forall2 same_fields loaded tasks) /\
  (forallb task_encodable tasks = false ->
   (_ <- save_tasks tasks ;; load_tasks clock)%io f
     = (Raise UnicodeEncodeError, Unparsable) /\
   load_tasks clock (snd (save_tasks tasks f)) = (Raise JSONDecodeError, Unparsable)).
Proof.
  intros Hvalid. split.
  - intros Henc. exists tasks. repeat split.
    + unfold io_bind. rewrite save_tasks_run, Henc, load_tasks_content.
      now rewrite from_dicts_to_dict.
    + clear. induction tasks as [|t tasks IH]; constructor; [|exact IH].
      unfold same_fields. repeat split; reflexivity.
  - intros Henc. unfold io_bind. rewrite save_tasks_run, Henc. now split.
Qed.

Lemma save_then_load_round_trip_witness :
  exists loaded,
    (_ <- save_tasks round_trip_tasks ;;
     load_tasks (rt := example_runtime) fixed_clock)%io Missing
      = (Ok loaded, Content (PList (map to_dict round_trip_tasks))) /\
    loaded = round_trip_tasks /\
    List.length loaded = List.length round_trip_tasks /\
    Forall2 same_fields loaded round_trip_tasks.
Proof.
  apply (proj1 (save_then_load_round_trip (rt := example_runtime) fixed_clock
                  round_trip_tasks Missing
                  ltac:(repeat constructor; try discriminate; simpl; lia))).
  reflexivity.
Defined.

(** The round trip of C2 does not hold for every valid task: a valid task whose title is the lone surrogate
    U+D800 is not read back; [save] raises and the file is left empty. *)
Lemma save_then_load_fails_on_surrogate :
  Forall (valid_task (rt := example_runtime)) [surrogate_task] /\
  (_ <- save_tasks [surrogate_task] ;;
   load_tasks (rt := example_runtime) fixed_clock)%io Missing
  = (Raise UnicodeEncodeError, Unparsable) /\
  ~ (exists loaded f',
       (_ <- save_tasks [surrogate_task] ;;
        load_tasks (rt := example_runtime) fixed_clock)%io Missing
       = (Ok loaded, f')).
Proof.
  split; [|split].
  - repeat constructor; try discriminate; simpl; lia.
  - reflexivity.
  - intros (loaded & f' & H). discriminate H.
Qed.

(** C6. [load()] returns the empty sequence, and no error, when the backing file
    does not exist; when the file exists and its top-level JSON value is not an
    array it fails with the format error (the ValueError "storage file must
    contain JSON list"). Neither case writes the file. *)
Theorem load_tasks_missing_or_not_list {rt : Runtime} (clock : nat -> str) (v : pyval) :
  (forall items, v <> PList items) ->
  load_tasks clock Missing = (Ok [], Missing) /\
  load_tasks clock (Content v) = (Raise format_error, Content v).
Proof.
  intros Hv. split; [reflexivity|].
  destruct v; try reflexivity. now destruct (Hv items).
Qed.

Lemma load_tasks_missing_or_not_list_witness :
  load_tasks (rt := example_runtime) fixed_clock Missing = (Ok [], Missing) /\
  load_tasks (rt := example_runtime) fixed_clock (Content (PDict [(lit "tasks", PList [])]))
    = (Raise format_error, Content (PDict [(lit "tasks", PList [])])).
Proof.
  apply (load_tasks_missing_or_not_list (rt := example_runtime) fixed_clock
           (PDict [(lit "tasks", PList [])])).
  intros items H. discriminate H.
Defined.

(** C10. When [load()] decodes a stored array element (the elements before it
    having decoded), an element without the ["id"] key, or with ["id"] and
    without ["title"], makes [load()] fail with the KeyError of that key, which
    is not the format error, and the file is left as it was; a missing optional
    key (description, priority, done, tags, created_at) decodes as that key with
    its default ("", 3, false, [], now), and with all of them missing the task
    is built from the id, the title and the five defaults. *)
Theorem load_tasks_required_and_optional_keys {rt : Runtime} (clock : nat -> str)
    (pre post : list pyval) (entries : list (str * pyval)) (ts : list Task) :
  from_dicts clock 0 pre = Ok ts ->
  (lookup (lit "id") entries = None ->
   load_tasks clock (Content (PList (pre ++ PDict entries :: post)))
   = (Raise (KeyError (lit "id")), Content (PList (pre ++ PDict entries :: post)))) /\
  (lookup (lit "id") entries <> None -> lookup (lit "title") entries = None ->
   load_tasks clock (Content (PList (pre ++ PDict entries :: post)))
   = (Raise (KeyError (lit "title")), Content (PList (pre ++ PDict entries :: post)))) /\
  KeyError (lit "id") <> format_error /\
  KeyError (lit "title") <> format_error /\
  (forall now k d,
     In (k, d) (optional_defaults now) -> lookup k entries = None ->
     from_dict now (PDict entries) = from_dict now (PDict (entries ++ [(k, d)]))) /\
  (forall now v_id v_title,
     lookup (lit "id") entries = Some v_id ->
     lookup (lit "title") entries = Some v_title ->
     (forall k d, In (k, d) (optional_defaults now) -> lookup k entries = None) ->
     from_dict now (PDict entries)
     = Task_new (py_str v_id) (py_str v_title) [] 3 false [] now).
Proof.
  intros Hpre. repeat split.
  - intros Hid. eapply load_tasks_fails_at; [exact Hpre|].
    now apply from_dict_missing_id.
  - intros Hid Htitle. eapply load_tasks_fails_at; [exact Hpre|].
    now apply from_dict_missing_title.
  - discriminate.
  - discriminate.
  - intros now k d. apply from_dict_default.
  - intros now v_id v_title. apply from_dict_all_defaults.
Qed.

Lemma load_tasks_required_and_optional_keys_witness :
  load_tasks (rt := example_runtime) fixed_clock (Content (PList stored_without_id))
  = (Raise (KeyError (lit "id")), Content (PList stored_without_id)).
Proof.
  apply (proj1 (load_tasks_required_and_optional_keys (rt := example_runtime)
                  fixed_clock
                  [PDict [(lit "id", PStr (lit "1")); (lit "title", PStr (lit "Learn Python"))]]
                  []
                  [(lit "title", PStr (lit "Write tests")); (lit "priority", PInt 4)]
                  [mk_Task (lit "1") (lit "Learn Python") [] 3 false [] noon]
                  eq_refl)).
  reflexivity.
Defined.

(** ** Service *)

(** C1. [list]: for every stored collection, [include_done] flag and query, the
    listing holds exactly the loaded tasks that pass the filters (done tasks
    dropped when [include_done] is false; for a query that is not empty, only
    the tasks whose lower-cased title contains the lower-cased query), each as
    often as loaded; it is sorted by descending priority and, within a
    priority, ascending [created_at]; tasks with the same priority and
    [created_at] keep their loaded order (the sort is stable); and the stored
    file is left as it was. *)
Theorem list_tasks_filters_and_sorts {rt : Runtime} (clock : nat -> str) (f : file)
    (tasks : list Task) (include_done : bool) (query : option str) :
  load_tasks clock f = (Ok tasks, f) ->
  exists listed,
    list_tasks clock include_done query f = (Ok listed, f) /\
    (forall t, In t listed <->
       In t tasks /\
       (include_done = false -> done t = false) /\
       (forall q, query = Some q -> q <> [] ->
          exists pre post, lower (title t) = pre ++ lower q ++ post)) /\
    Permutation (filter (selected include_done query) tasks) listed /\
    StronglySorted listed_before listed /\
    (forall k,
       filter (fun t => key_eqb (sort_key t) k) listed =
       filter (fun t => key_eqb (sort_key t) k)
              (filter (selected include_done query) tasks)).
Proof.
  intros Hload.
  exists (sorted_by key_ltb sort_key (filter (selected include_done query) tasks)).
  pose proof (sorted_by_perm key_ltb sort_key
                (filter (selected include_done query) tasks)) as Hperm.
  refine (conj _ (conj _ (conj Hperm (conj _ _)))).
  - now apply list_tasks_run.
  - intros t. rewrite <- selected_spec, <- filter_In. split; intros Hin.
    + eapply Permutation_in; [apply Permutation_sym; exact Hperm | exact Hin].
    + eapply Permutation_in; [exact Hperm | exact Hin].
  - eapply StronglySorted_impl; [|apply sorted_by_sorted].
    + intros a b. apply in_order_sort_key.
    + apply key_ltb_asym.
    + apply key_leb_trans.
  - intros k. apply sorted_by_stable.
    intros a b Ha Hb. apply key_eqb_eq in Ha, Hb. rewrite Ha, Hb.
    apply key_ltb_irrefl.
Qed.

Lemma list_tasks_filters_and_sorts_witness :
  exists listed,
    list_tasks (rt := example_runtime) fixed_clock true (Some (lit "a")) listing_file
      = (Ok listed, listing_file) /\
    (forall t, In t listed <->
       In t listing_tasks /\
       (true = false -> done t = false) /\
       (forall q, Some (lit "a") = Some q -> q <> [] ->
          exists pre post,
            lower (Runtime := example_runtime) (title t)
            = pre ++ lower (Runtime := example_runtime) q ++ post)) /\
    Permutation (filter (selected (rt := example_runtime) true (Some (lit "a")))
                   listing_tasks) listed /\
    StronglySorted listed_before listed /\
    (forall k,
       filter (fun t => key_eqb (sort_key t) k) listed =
       filter (fun t => key_eqb (sort_key t) k)
              (filter (selected (rt := example_runtime) true (Some (lit "a")))
                 listing_tasks)).
Proof.
  apply (list_tasks_filters_and_sorts (rt := example_runtime) fixed_clock
           listing_file listing_tasks true (Some (lit "a"))).
  reflexivity.
Defined.

(** C3. [complete(id)]: for every stored collection and id, when no
    task has the id the call returns false and the stored file is left as it
    was; when some task has it, the first such task, and only that one, gets
    done = true and the collection is saved: when the strings of the stored
    tasks hold no lone surrogate the save succeeds, the file loads back as the
    marked collection and the call returns true, and otherwise the call raises
    UnicodeEncodeError and leaves an empty file. The flag returned says whether
    a task with the id was found, not whether the collection changed: the
    marked collection differs from the loaded one when that task was open and
    equals it when the task was done already. The file is written only when a
    task with the id was found. *)
Theorem complete_task_marks_first_match {rt : Runtime} (clock : nat -> str) (f : file)
    (tasks : list Task) (task_id : str) :
  load_tasks clock f = (Ok tasks, f) ->
  ((forall t, In t tasks -> id t <> task_id) ->
   complete_task clock task_id f = (Ok false, f)) /\
  (forall pre t post,
     tasks = pre ++ t :: post ->
     (forall u, In u pre -> id u <> task_id) -> id t = task_id ->
     (forallb task_encodable tasks = true ->
      complete_task clock task_id f
      = (Ok true, Content (PList (map to_dict (pre ++ set_done t :: post)))) /\
      load_tasks clock (snd (complete_task clock task_id f))
      = (Ok (pre ++ set_done t :: post), snd (complete_task clock task_id f))) /\
     (forallb task_encodable tasks = false ->
      complete_task clock task_id f = (Raise UnicodeEncodeError, Unparsable)) /\
     (done t = false -> pre ++ set_done t :: post <> tasks) /\
     (done t = true -> pre ++ set_done t :: post = tasks)) /\
  (forallb task_encodable tasks = true ->
   fst (complete_task clock task_id f) = Ok (existsb (has_id task_id) tasks)) /\
  (snd (complete_task clock task_id f) <> f -> existsb (has_id task_id) tasks = true).
Proof.
  intros Hload. pose proof (complete_task_run clock task_id f tasks Hload) as Hrun.
  rewrite mark_first_encodable in Hrun.
  refine (conj _ (conj _ (conj _ _))).
  - intros Hnone. apply existsb_has_id_false in Hnone. now rewrite Hrun, Hnone.
  - intros pre t post -> Hpre Ht.
    assert (existsb (has_id task_id) (pre ++ t :: post) = true) as Hex.
    { apply existsb_exists. exists t. split; [apply in_elt | now apply str_eqb_eq]. }
    rewrite Hrun, Hex, mark_first_some by assumption. cbn [fst].
    refine (conj _ (conj _ (conj _ _))).
    + intros Henc. rewrite Henc. cbn [snd]. split; [reflexivity|].
      apply load_saved.
      assert (Forall valid_task (pre ++ t :: post)) as Hvalid
        by (eapply load_tasks_valid; now rewrite Hload).
      apply Forall_app in Hvalid as [Hv1 Hv2]. apply Forall_app. split; [exact Hv1|].
      inversion Hv2; subst. constructor; [now apply set_done_valid | assumption].
    + intros Henc. now rewrite Henc.
    + intros Hopen Heq. apply app_inv_head in Heq. injection Heq as Heq.
      apply (f_equal done) in Heq. simpl in Heq. congruence.
    + intros Hdone. now rewrite set_done_done.
  - intros Henc. rewrite Hrun, Henc. now destruct (existsb (has_id task_id) tasks).
  - rewrite Hrun. destruct (existsb (has_id task_id) tasks); [reflexivity|].
    simpl. intros H. now destruct H.
Qed.

Lemma complete_task_marks_first_match_witness :
  complete_task (rt := example_runtime) fixed_clock (lit "two") two_tasks_file
  = (Ok true,
     Content (PList (map to_dict
                [ mk_Task (lit "one") (lit "Task one") [] 3 false []
                    (lit "2024-01-01T10:00:00+00:00");
                  mk_Task (lit "two") (lit "Task two") [] 4 true []
                    (lit "2024-01-01T11:00:00+00:00") ]))) /\
  complete_task (rt := example_runtime) fixed_clock (lit "unknown") two_tasks_file
  = (Ok false, two_tasks_file).
Proof.
  destruct (complete_task_marks_first_match (rt := example_runtime) fixed_clock
              two_tasks_file two_tasks (lit "two") eq_refl) as (_ & Hsome & _).
  destruct (complete_task_marks_first_match (rt := example_runtime) fixed_clock
              two_tasks_file two_tasks (lit "unknown") eq_refl) as (Hnone & _).
  split.
  - apply (Hsome [mk_Task (lit "one") (lit "Task one") [] 3 false []
                    (lit "2024-01-01T10:00:00+00:00")]
                 (mk_Task (lit "two") (lit "Task two") [] 4 false []
                    (lit "2024-01-01T11:00:00+00:00")) [] eq_refl).
    + intros u [<- | []]. discriminate.
    + reflexivity.
    + reflexivity.
  - apply Hnone. intros t [<- | [<- | []]]; discriminate.
Defined.

(** Two limits of C3. On a store whose only task is done,
    [complete] of its id returns true although nothing changes: the file and
    the collection are the ones before. On a store that loads, with a title
    that is the lone surrogate U+D800, [complete] of the id neither persists
    nor returns a flag: it raises and leaves an empty file. *)
Lemma complete_task_flag_is_not_change :
  (load_tasks (rt := example_runtime) fixed_clock done_store = (Ok done_tasks, done_store) /\
   complete_task (rt := example_runtime) fixed_clock (lit "1") done_store
   = (Ok true, done_store)) /\
  (load_tasks (rt := example_runtime) fixed_clock surrogate_store
   = (Ok [surrogate_task], surrogate_store) /\
   complete_task (rt := example_runtime) fixed_clock (lit "2") surrogate_store
   = (Raise UnicodeEncodeError, Unparsable)).
Proof. repeat split; vm_compute; reflexivity. Qed.

(** C4. [delete(id)]: for every stored collection and id, when no task
    has the id the call returns false and the stored file is left as it was;
    when some task has it, the tasks with that id are removed, the remaining
    tasks keep their order, and the remaining collection is saved: when the
    strings of the remaining tasks hold no lone surrogate the save succeeds,
    the file loads back as the remaining collection and the call returns true,
    and otherwise the call raises UnicodeEncodeError and leaves an empty file.
    With a single task of that id, the collection [pre ++ t :: post] becomes
    [pre ++ post]. The flag returned says whether a task was removed, and the
    file is written only in that case. *)
Theorem delete_task_removes_matches {rt : Runtime} (clock : nat -> str) (f : file)
    (tasks : list Task) (task_id : str) :
  load_tasks clock f = (Ok tasks, f) ->
  ((forall t, In t tasks -> id t <> task_id) ->
   delete_task clock task_id f = (Ok false, f)) /\
  (existsb (has_id task_id) tasks = true ->
   (forallb task_encodable
      (filter (fun task => negb (has_id task_id task)) tasks) = true ->
    delete_task clock task_id f
    = (Ok true,
       Content (PList (map to_dict
                  (filter (fun task => negb (has_id task_id task)) tasks)))) /\
    load_tasks clock (snd (delete_task clock task_id f))
    = (Ok (filter (fun task => negb (has_id task_id task)) tasks),
       snd (delete_task clock task_id f))) /\
   (forallb task_encodable
      (filter (fun task => negb (has_id task_id task)) tasks) = false ->
    delete_task clock task_id f = (Raise UnicodeEncodeError, Unparsable))) /\
  (forall pre t post,
     tasks = pre ++ t :: post -> id t = task_id ->
     (forall u, In u (pre ++ post) -> id u <> task_id) ->
     forallb task_encodable (pre ++ post) = true ->
     delete_task clock task_id f = (Ok true, Content (PList (map to_dict (pre ++ post))))) /\
  (forallb task_encodable tasks = true ->
   fst (delete_task clock task_id f) = Ok (existsb (has_id task_id) tasks)) /\
  (snd (delete_task clock task_id f) <> f -> existsb (has_id task_id) tasks = true).
Proof.
  intros Hload. pose proof (delete_task_run clock task_id f tasks Hload) as Hrun.
  refine (conj _ (conj _ (conj _ (conj _ _)))).
  - intros Hnone. apply existsb_has_id_false in Hnone. now rewrite Hrun, Hnone.
  - intros Hex. rewrite Hrun, Hex. split.
    + intros Henc. rewrite Henc. cbn [snd]. split; [reflexivity|].
      apply load_saved.
      assert (Forall valid_task tasks) as Hvalid
        by (eapply load_tasks_valid; now rewrite Hload).
      rewrite Forall_forall in *. intros t Ht. apply filter_In in Ht as [Ht _].
      now apply Hvalid.
    + intros Henc. now rewrite Henc.
  - intros pre t post -> Ht Hothers Henc.
    assert (existsb (has_id task_id) (pre ++ t :: post) = true) as Hex.
    { apply existsb_exists. exists t. split; [apply in_elt | now apply str_eqb_eq]. }
    now rewrite Hrun, Hex, filter_unique_id, Henc.
  - intros Henc. rewrite Hrun.
    rewrite (forallb_filter_true _ _ _ Henc).
    now destruct (existsb (has_id task_id) tasks).
  - rewrite Hrun. destruct (existsb (has_id task_id) tasks); [reflexivity|].
    simpl. intros H. now destruct H.
Qed.

Lemma delete_task_removes_matches_witness :
  delete_task (rt := example_runtime) fixed_clock (lit "one") two_tasks_file
  = (Ok true,
     Content (PList (map to_dict
                [ mk_Task (lit "two") (lit "Task two") [] 4 false []
                    (lit "2024-01-01T11:00:00+00:00") ]))) /\
  delete_task (rt := example_runtime) fixed_clock (lit "unknown") two_tasks_file
  = (Ok false, two_tasks_file).
Proof.
  destruct (delete_task_removes_matches (rt := example_runtime) fixed_clock
              two_tasks_file two_tasks (lit "one") eq_refl) as (_ & _ & Hone & _).
  destruct (delete_task_removes_matches (rt := example_runtime) fixed_clock
              two_tasks_file two_tasks (lit "unknown") eq_refl) as (Hnone & _).
  split.
  - apply (Hone [] (mk_Task (lit "one") (lit "Task one") [] 3 false []
                      (lit "2024-01-01T10:00:00+00:00"))
                [mk_Task (lit "two") (lit "Task two") [] 4 false []
                   (lit "2024-01-01T11:00:00+00:00")] eq_refl eq_refl).
    + intros u [<- | []]. discriminate.
    + reflexivity.
  - apply Hnone. intros t [<- | [<- | []]]; discriminate.
Defined.

(** A limit of C4: on a store that loads as the task ["1"] and a
    task whose title is the lone surrogate U+D800, [delete("1")] finds the
    task but neither persists the rest nor returns a flag: it raises and
    leaves an empty file. *)
Lemma delete_task_fails_on_surrogate :
  fst (load_tasks (rt := example_runtime) fixed_clock mixed_store)
  = Ok [mk_Task (lit "1") (lit "A") [] 3 false [] noon; surrogate_task] /\
  delete_task (rt := example_runtime) fixed_clock (lit "1") mixed_store
  = (Raise UnicodeEncodeError, Unparsable).
Proof. split; vm_compute; reflexivity. Qed.

(** C5. [add]: for every stored collection, a title that is empty
    after trimming, or a priority outside 1..5, makes the call fail with a
    ValueError (the validation error of the constructor) and leaves the stored
    file as it was; otherwise exactly one task is built: its id is the one
    [uuid4] returns (the code does not compare it with the stored ids: it is
    new among them exactly when the draw is), its title the trimmed title, its
    description, priority and tags the given ones (no tags for [None]), done =
    false; it is appended after the existing tasks and the collection is
    saved: when no string of the stored tasks and of the new one holds a lone
    surrogate the save succeeds, the file loads back with the new task last
    and the task is returned, and otherwise the call raises UnicodeEncodeError
    and leaves an empty file. *)
Theorem add_task_validates_then_appends {rt : Runtime} (clock : nat -> str)
    (uuid now title0 description0 : str) (priority0 : Z) (tags0 : option (list str))
    (f : file) (tasks : list Task) :
  load_tasks clock f = (Ok tasks, f) ->
  (strip title0 = [] ->
   add_task clock uuid now title0 description0 priority0 tags0 f
   = (Raise (ValueError (lit "title must not be empty")), f)) /\
  (strip title0 <> [] -> ~ 1 <= priority0 <= 5 ->
   add_task clock uuid now title0 description0 priority0 tags0 f
   = (Raise (ValueError (lit "priority must be in range 1..5")), f)) /\
  (strip title0 = [] \/ ~ 1 <= priority0 <= 5 ->
   exists msg,
     add_task clock uuid now title0 description0 priority0 tags0 f
     = (Raise (ValueError msg), f)) /\
  (strip title0 <> [] -> 1 <= priority0 <= 5 ->
   exists task,
     task = mk_Task uuid (strip title0) description0 priority0 false
              (match tags0 with Some given => given | None => [] end) now /\
     (forallb task_encodable (tasks ++ [task]) = true ->
      add_task clock uuid now title0 description0 priority0 tags0 f
      = (Ok task, Content (PList (map to_dict (tasks ++ [task])))) /\
      load_tasks clock (Content (PList (map to_dict (tasks ++ [task]))))
      = (Ok (tasks ++ [task]), Content (PList (map to_dict (tasks ++ [task]))))) /\
     (forallb task_encodable (tasks ++ [task]) = false ->
      add_task clock uuid now title0 description0 priority0 tags0 f
      = (Raise UnicodeEncodeError, Unparsable)) /\
     ((forall t, In t tasks -> id t <> uuid) ->
      NoDup (map id tasks) -> NoDup (map id (tasks ++ [task]))) /\
     ((exists t, In t tasks /\ id t = uuid) -> ~ NoDup (map id (tasks ++ [task])))).
Proof.
  intros Hload.
  pose proof (add_task_run clock uuid now title0 description0 priority0 tags0 f
                tasks Hload) as Hrun.
  rewrite Task_new_cases in Hrun.
  assert (Hempty : strip title0 = [] ->
            add_task clock uuid now title0 description0 priority0 tags0 f
            = (Raise (ValueError (lit "title must not be empty")), f)).
  { intros He. rewrite Hrun, He. reflexivity. }
  assert (Hrange : strip title0 <> [] -> ~ 1 <= priority0 <= 5 ->
            add_task clock uuid now title0 description0 priority0 tags0 f
            = (Raise (ValueError (lit "priority must be in range 1..5")), f)).
  { intros Hne Hp. rewrite Hrun. apply nonempty_true in Hne. rewrite Hne. simpl.
    destruct ((1 <=? priority0) && (priority0 <=? 5)) eqn:E; [|reflexivity].
    apply andb_true_iff in E as [H1 H2]. apply Z.leb_le in H1, H2. lia. }
  refine (conj Hempty (conj Hrange (conj _ _))).
  - intros Hbad. destruct (list_eq_dec N.eq_dec (strip title0) []) as [He | Hne].
    + eexists. now apply Hempty.
    + destruct Hbad as [He | Hp]; [contradiction|]. eexists. now apply Hrange.
  - intros Hne Hp. eexists. split; [reflexivity|].
    rewrite <- or_empty_spec.
    assert (Hnew : Task_new uuid title0 description0 priority0 false (or_empty tags0) now
                   = Ok (mk_Task uuid (strip title0) description0 priority0 false
                           (or_empty tags0) now))
      by now apply Task_new_ok.
    rewrite <- Task_new_cases, Hnew in Hrun.
    refine (conj _ (conj _ (conj _ _))).
    + intros Henc. rewrite Hrun, Henc. split; [reflexivity|].
      apply load_saved. apply Forall_app. split.
      * eapply load_tasks_valid. now rewrite Hload.
      * constructor; [|constructor]. eapply Task_new_valid. exact Hnew.
    + intros Henc. now rewrite Hrun, Henc.
    + intros Hfresh Hnodup. rewrite map_app. simpl.
      apply NoDup_app; [exact Hnodup | repeat constructor; intros [] |].
      intros x Hx [<- | []]. apply in_map_iff in Hx as (t & Ht & Hin).
      exact (Hfresh t Hin Ht).
    + intros (t & Hin & Ht) Hnodup. rewrite map_app in Hnodup. simpl in Hnodup.
      apply NoDup_remove_2 in Hnodup. apply Hnodup. rewrite app_nil_r.
      apply in_map_iff. now exists t.
Qed.

Lemma add_task_validates_then_appends_witness :
  (exists task,
     task = mk_Task (lit "three") (lit "Task three") (lit "more") 5 false
              [lit "study"] noon /\
     add_task (rt := example_runtime) fixed_clock (lit "three") noon
       (lit "  Task three ") (lit "more") 5 (Some [lit "study"]) two_tasks_file
     = (Ok task, Content (PList (map to_dict (two_tasks ++ [task]))))) /\
  add_task (rt := example_runtime) fixed_clock (lit "three") noon (lit "   ") []
    3 None two_tasks_file
  = (Raise (ValueError (lit "title must not be empty")), two_tasks_file).
Proof.
  destruct (add_task_validates_then_appends (rt := example_runtime) fixed_clock
              (lit "three") noon (lit "  Task three ") (lit "more") 5
              (Some [lit "study"]) two_tasks_file two_tasks eq_refl)
    as (_ & _ & _ & Hgood).
  destruct (add_task_validates_then_appends (rt := example_runtime) fixed_clock
              (lit "three") noon (lit "   ") [] 3 None two_tasks_file two_tasks
              eq_refl) as (Hblank & _).
  split.
  - destruct (Hgood ltac:(discriminate) ltac:(lia)) as (task & Htask & Hsave & _).
    exists task. split; [exact Htask|]. apply Hsave. rewrite Htask. reflexivity.
  - apply Hblank. reflexivity.
Defined.

(** Two limits of C5. When [uuid4] returns the id of a stored
    task, [add] appends a task whose id is not fresh: the saved collection
    holds the id twice. When the title holds the lone surrogate U+D800 (and is
    valid), [add] neither persists nor returns the task: it raises and leaves
    an empty file. *)
Lemma add_task_id_not_fresh_nor_saved :
  (load_tasks (rt := example_runtime) fixed_clock uuid_store = (Ok uuid_tasks, uuid_store) /\
   (r <- fst (add_task (rt := example_runtime) fixed_clock a_uuid noon (lit "B") []
                3 None uuid_store) ;;
    Ok (id r))%result = Ok a_uuid /\
   (ts <- fst (load_tasks (rt := example_runtime) fixed_clock
                 (snd (add_task (rt := example_runtime) fixed_clock a_uuid noon
                         (lit "B") [] 3 None uuid_store))) ;;
    Ok (map id ts))%result = Ok [a_uuid; a_uuid]) /\
  add_task (rt := example_runtime) fixed_clock a_uuid noon [55296%N] [] 3 None Missing
  = (Raise UnicodeEncodeError, Unparsable).
Proof. repeat split; vm_compute; reflexivity. Qed.

(** ** Completion rate *)

(** C9. For every non-empty task collection the analytics [completion_rate]
    equals [round(done_count / total_count * 100, 2)], and it is 0.0 for the
    empty collection; the [completion_rate] entry of [stats()] is the same
    value for the stored collection, and [stats()] also returns the total, done
    and open counts, with total = done + open, without writing the file. *)
Theorem completion_rate_and_stats {rt : Runtime} (clock : nat -> str) (f : file)
    (stored tasks : list Task) :
  load_tasks clock f = (Ok stored, f) ->
  (tasks <> [] ->
   completion_rate tasks
   = rate_of (Z.of_nat (List.length (filter done tasks))) (Z.of_nat (List.length tasks))) /\
  completion_rate [] = PrimFloat.zero /\
  exists s,
    stats clock f = (Ok s, f) /\
    stats_completion_rate s = completion_rate stored /\
    (stored <> [] -> stats_completion_rate s = rate_of (stats_done s) (stats_total s)) /\
    (stored = [] -> stats_completion_rate s = PrimFloat.zero) /\
    stats_total s = Z.of_nat (List.length stored) /\
    stats_done s = Z.of_nat (List.length (filter done stored)) /\
    stats_open s = Z.of_nat (List.length (filter (fun t => negb (done t)) stored)) /\
    stats_total s = stats_done s + stats_open s.
Proof.
  intros Hload. refine (conj _ (conj eq_refl _)).
  - destruct tasks as [|t tasks]; [congruence|]. intros _.
    unfold completion_rate, rate_of. rewrite py_sum_ones. reflexivity.
  - unfold stats, io_bind. rewrite Hload. unfold io_ret. eexists.
    split; [reflexivity|]. cbn [stats_completion_rate stats_total stats_done stats_open].
    rewrite py_sum_ones. unfold len.
    pose proof (filter_length_split done stored) as Hsplit.
    refine (conj _ (conj _ (conj _ _))).
    + destruct stored as [|t stored]; [reflexivity|].
      unfold completion_rate. rewrite py_sum_ones. reflexivity.
    + intros Hne. destruct stored as [|t stored]; [congruence|]. reflexivity.
    + intros ->. reflexivity.
    + repeat split; lia.
Qed.

Lemma completion_rate_and_stats_witness :
  exists s,
    stats (rt := example_runtime) fixed_clock two_tasks_file = (Ok s, two_tasks_file) /\
    stats_completion_rate s = completion_rate (rt := example_runtime) two_tasks /\
    stats_total s = 2 /\ stats_done s = 0 /\ stats_open s = 2 /\
    stats_total s = stats_done s + stats_open s.
Proof.
  destruct (proj2 (proj2 (completion_rate_and_stats (rt := example_runtime) fixed_clock
                            two_tasks_file two_tasks two_tasks eq_refl)))
    as (s & Hrun & Hrate & _ & _ & Htotal & Hdone & Hopen & Hsum).
  exists s. repeat split; assumption.
Defined.

(** ** Batch job *)

(** C7. [sync_in_batches] raises the ValueError whose message contains
    "batch_size" exactly when [batch_size <= 0], and then before any
    suspension; for every task list and every [batch_size > 0] it awaits
    [simulate_sync] on consecutive batches that, one after the other, are the
    tasks in their order, each of at least one and at most [batch_size] tasks
    (all but the last of exactly [batch_size]), it suspends once per task, and
    it returns the number of tasks. *)
Theorem sync_in_batches_counts_all (tasks : list Task) (batch_size : Z) (delay : float) :
  (batch_size <= 0 ->
   sync_in_batches tasks batch_size delay
   = Throw (ValueError (lit "batch_size must be > 0")) /\
   run (sync_in_batches tasks batch_size delay)
   = ([], Raise (ValueError (lit "batch_size must be > 0"))) /\
   str_in (lit "batch_size") (lit "batch_size must be > 0") = true) /\
  (0 < batch_size ->
   sync_in_batches tasks batch_size delay
   = sync_batches 0 delay (batches tasks batch_size) /\
   concat (batches tasks batch_size) = tasks /\
   (forall i b, nth_error (batches tasks batch_size) i = Some b ->
      0 < len b <= batch_size /\
      (S i < List.length (batches tasks batch_size) -> len b = batch_size)%nat) /\
   run (sync_in_batches tasks batch_size delay)
   = (repeat delay (List.length tasks), Ok (len tasks))) /\
  ((exists e, snd (run (sync_in_batches tasks batch_size delay)) = Raise e)
   <-> batch_size <= 0).
Proof.
  assert (Hbad : batch_size <= 0 ->
            sync_in_batches tasks batch_size delay
            = Throw (ValueError (lit "batch_size must be > 0"))).
  { intros Hb. unfold sync_in_batches.
    now destruct (Z.leb_spec batch_size 0); [|lia]. }
  assert (Hgood : 0 < batch_size ->
            sync_in_batches tasks batch_size delay
            = sync_batches 0 delay (batches tasks batch_size)).
  { intros Hb. unfold sync_in_batches.
    destruct (Z.leb_spec batch_size 0); [lia|]. apply sync_from_batches. }
  assert (Hrun : 0 < batch_size ->
            run (sync_in_batches tasks batch_size delay)
            = (repeat delay (List.length tasks), Ok (len tasks))).
  { intros Hb. rewrite Hgood, run_sync_batches, concat_batches by exact Hb.
    reflexivity. }
  refine (conj _ (conj _ _)).
  - intros Hb. rewrite (Hbad Hb). repeat split.
  - intros Hb. refine (conj (Hgood Hb) (conj (concat_batches _ _ Hb) (conj _ (Hrun Hb)))).
    intros i b Hnth. now apply batches_sizes.
  - split.
    + intros [e He]. destruct (Z.leb_spec batch_size 0) as [Hle | Hlt]; [exact Hle|].
      rewrite (Hrun Hlt) in He. discriminate.
    + intros Hb. rewrite (Hbad Hb). now eexists.
Qed.

Lemma sync_in_batches_counts_all_witness :
  run (sync_in_batches (repeat (test_task "0" "task" 3 false "") 12) 5 0%float)
  = (repeat 0%float 12, Ok 12).
Proof.
  apply (proj1 (proj2 (sync_in_batches_counts_all
                         (repeat (test_task "0" "task" 3 false "") 12) 5 0%float))).
  lia.
Defined.

(** ** Keywords *)

(** C8. [top_keywords]: for every task collection and limit, the words
    are the maximal runs of the characters A-Z, a-z, U+0410-U+044F and 0-9 (no
    other letter: U+0451 or an accented Latin letter separates words) of the
    lower-cased title, then of the lower-cased description, of each task in
    turn, so that the result depends on the lower-cased texts only; the words
    kept are those that are no stop word and have more than 2 characters, in
    their order; every returned pair is a kept word with its number of
    occurrences; no word is returned twice; the pairs are the [limit] first of
    the ranking (all the kept words when there are fewer, none for a limit of
    0 or less) by descending count, words of equal count in the order they are
    first met; and every kept word left out ranks behind every word
    returned. *)
Theorem top_keywords_ranks_kept_words {rt : Runtime} (tasks : list Task) (limit : Z) :
  (forall c, is_word_char c = true <->
             (65 <= c <= 90 \/ 97 <= c <= 122 \/ 1040 <= c <= 1103 \/ 48 <= c <= 57)%N) /\
  (forall s ws, _WORD_RE_findall s = ws <-> runs_of s ws) /\
  (exists wss,
     Forall2 (fun t ws =>
                exists wt wd,
                  ws = wt ++ wd /\ runs_of (lower (title t)) wt /\
                  runs_of (lower (description t)) wd) tasks wss /\
     keyword_words tasks = concat wss) /\
  (forall kp,
     (forall w, kp w = true <-> ~ In w _STOPWORDS /\ (2 < List.length w)%nat) ->
     kept_words tasks = filter kp (keyword_words tasks)) /\
  (forall tasks',
     map lowered_texts tasks' = map lowered_texts tasks ->
     top_keywords tasks' limit = top_keywords tasks limit) /\
  (forall w n, In (w, n) (top_keywords tasks limit) ->
     In w (keyword_words tasks) /\ ~ In w _STOPWORDS /\ 2 < len w /\
     n = occurrences w (keyword_words tasks) /\ 0 < n) /\
  NoDup (map fst (top_keywords tasks limit)) /\
  List.length (top_keywords tasks limit)
  = Nat.min (Z.to_nat limit) (List.length (nodup str_eq_dec (kept_words tasks))) /\
  StronglySorted (ahead (kept_words tasks)) (top_keywords tasks limit) /\
  (forall w, In w (kept_words tasks) ->
     ~ In w (map fst (top_keywords tasks limit)) ->
     forall e, In e (top_keywords tasks limit) ->
       ahead (kept_words tasks) e (w, occurrences w (kept_words tasks))).
Proof.
  set (sorted := sorted_by (fun a b => b <? a) snd (Counter (kept_words tasks))).
  assert (Hsplit : sorted = top_keywords tasks limit ++ skipn (Z.to_nat limit) sorted)
    by (rewrite top_keywords_unfold; symmetry; apply firstn_skipn).
  pose proof (most_common_ranked (kept_words tasks)) as Hranked.
  fold sorted in Hranked. rewrite Hsplit in Hranked.
  apply StronglySorted_app in Hranked as (Hfront & _ & Hcross).
  destruct (Counter_counts (kept_words tasks)) as (Hnd & Hkeys & Hvals & _).
  pose proof (sorted_by_perm (fun a b => b <? a) snd (Counter (kept_words tasks)))
    as Hperm. fold sorted in Hperm.
  refine (conj is_word_char_spec (conj findall_iff_runs
            (conj (keyword_words_runs tasks) (conj (kept_words_filter tasks)
               (conj _ (conj _ (conj _ (conj _ (conj Hfront _))))))))).
  - intros tasks' Hsame. rewrite !top_keywords_unfold. unfold kept_words.
    now rewrite !keyword_words_lowered, Hsame.
  - intros w n Hin.
    assert (In (w, n) sorted) as Hs by (rewrite Hsplit; apply in_or_app; now left).
    apply sorted_counter_entry in Hs as [Hkept ->].
    pose proof Hkept as Hkept'. unfold kept_words in Hkept'.
    apply filter_In in Hkept' as [Hword Hkeep].
    pose proof Hkeep as Hkeep'. apply keep_word_spec in Hkeep' as [Hstop Hlen].
    repeat split; try assumption.
    + unfold kept_words. now apply occurrences_filter.
    + now apply occurrences_pos.
  - assert (NoDup (map fst sorted)) as Hnds.
    { eapply Permutation_NoDup; [apply Permutation_map; exact Hperm | exact Hnd]. }
    rewrite Hsplit, map_app in Hnds. now apply NoDup_app_remove_r in Hnds.
  - rewrite top_keywords_unfold, length_firstn. f_equal. fold sorted.
    rewrite <- (Permutation_length Hperm), <- (length_map fst).
    apply Permutation_length, NoDup_Permutation; [exact Hnd | apply NoDup_nodup |].
    intros k. rewrite Hkeys. symmetry. apply nodup_In.
  - intros w Hkept Hout e He. apply Hcross; [exact He|].
    assert (In (w, occurrences w (kept_words tasks)) sorted) as Hs
      by now apply sorted_counter_entry.
    rewrite Hsplit in Hs. apply in_app_or in Hs as [Hs | Hs]; [|exact Hs].
    destruct Hout. apply in_map_iff. now exists (w, occurrences w (kept_words tasks)).
Qed.

(** A limit of C8: U+0451 is a Cyrillic letter, yet in the word
    U+0451 U+043B U+043A U+0430 it is taken as a separator; what [findall]
    returns is the rest of the word, which is not a maximal run of Latin or
    Cyrillic letters and digits, and that rest is the keyword counted. *)
Lemma top_keywords_splits_cyrillic_word :
  latin_cyrillic_or_digit 1105%N = true /\
  _WORD_RE_findall yolka = [[1083; 1082; 1072]%N] /\
  ~ runs_in latin_cyrillic_or_digit yolka (_WORD_RE_findall yolka) /\
  top_keywords (rt := example_runtime)
    [mk_Task (lit "1") yolka [] 3 false [] noon] 5
  = [([1083; 1082; 1072]%N, 1)].
Proof.
  refine (conj eq_refl (conj eq_refl (conj _ _))).
  - change (_WORD_RE_findall yolka) with [[1083; 1082; 1072]%N].
    intros H. inversion H as [|gap w rest ws Hgap Hw Hword Hrest Hruns Heq]; subst.
    destruct gap as [|g gap].
    + simpl in Heq. unfold yolka in Heq. discriminate Heq.
    + unfold yolka in Heq. simpl in Heq. injection Heq as -> _.
      inversion Hgap; subst. discriminate.
  - vm_compute. reflexivity.
Qed.

(** * Further properties of the code *)

(** ** models.py: the constructor *)

Section ConstructorFacts.
Context {rt : Runtime}.

Lemma lstrip_split (s : str) :
  exists lead, s = lead ++ lstrip s /\ Forall (fun c => isspace c = true) lead.
Proof.
  induction s as [|c s (lead & Hs & Hlead)]; simpl.
  - exists []. split; [reflexivity | constructor].
  - destruct (isspace c) eqn:E.
    + exists (c :: lead). split; [simpl; now rewrite <- Hs | now constructor].
    + exists []. split; [reflexivity | constructor].
Qed.

Lemma rstrip_split (s : str) :
  exists trail, s = rstrip s ++ trail /\ Forall (fun c => isspace c = true) trail.
Proof.
  destruct (lstrip_split (rev s)) as (lead & Hs & Hlead).
  exists (rev lead). split.
  - unfold rstrip. rewrite <- rev_app_distr, <- Hs. now rewrite rev_involutive.
  - now apply Forall_rev.
Qed.

Lemma strip_split (s : str) :
  exists lead trail,
    s = lead ++ strip s ++ trail /\
    Forall (fun c => isspace c = true) lead /\
    Forall (fun c => isspace c = true) trail.
Proof.
  destruct (lstrip_split s) as (lead & Hs & Hlead).
  destruct (rstrip_split (lstrip s)) as (trail & Hr & Htrail).
  exists lead, trail. unfold strip. now rewrite <- Hr.
Qed.

Lemma strip_clean_ends (s : str) :
  clean_head (strip s) /\ clean_head (rev (strip s)).
Proof.
  split.
  - apply rstrip_clean, lstrip_clean.
  - unfold strip, rstrip. rewrite rev_involutive. apply lstrip_clean.
Qed.

End ConstructorFacts.

(** X1. [Task(...)] succeeds exactly when the title is not empty after
    [strip()] and the priority is within 1..5, and then builds the task with
    the stripped title and the other fields as given; the stripped title is the
    given one without the white space around it, and neither starts nor ends
    with white space; an empty stripped title is reported first, whatever the
    priority; and building a task again from the fields of a built task gives
    that task. *)
Theorem Task_new_trims_and_validates {rt : Runtime} (i t d : str) (p : Z) (b : bool)
    (g : list str) (c : str) :
  (forall task,
     Task_new i t d p b g c = Ok task <->
     strip t <> [] /\ 1 <= p <= 5 /\ task = mk_Task i (strip t) d p b g c) /\
  (exists lead trail,
     t = lead ++ strip t ++ trail /\
     Forall (fun c => isspace c = true) lead /\
     Forall (fun c => isspace c = true) trail) /\
  clean_head (strip t) /\ clean_head (rev (strip t)) /\
  (strip t = [] ->
   Task_new i t d p b g c = Raise (ValueError (lit "title must not be empty"))) /\
  (forall task,
     Task_new i t d p b g c = Ok task ->
     Task_new (id task) (title task) (description task) (priority task)
              (done task) (tags task) (created_at task) = Ok task).
Proof.
  refine (conj _ (conj (strip_split t) (conj (proj1 (strip_clean_ends t))
            (conj (proj2 (strip_clean_ends t)) (conj _ _))))).
  - intros task. split.
    + intros H. pose proof H as H'. rewrite Task_new_cases in H'.
      destruct (nonempty (strip t)) eqn:E; simpl in H'; [|discriminate].
      destruct ((1 <=? p) && (p <=? 5)) eqn:Ep; simpl in H'; [|discriminate].
      apply nonempty_true in E. apply andb_true_iff in Ep as [H1 H2].
      apply Z.leb_le in H1, H2. injection H' as <-. repeat split; try assumption.
    + intros (Ht & Hp & ->). now apply Task_new_ok.
  - intros He. rewrite Task_new_cases, He. reflexivity.
  - intros task H. destruct (Task_new_valid _ _ _ _ _ _ _ _ H) as (Hs & Hne & Hp).
    rewrite Task_new_ok; rewrite ?Hs; try assumption. now destruct task.
Qed.

(** ** storage.py: what loading accepts *)

(** X2. Whatever [load()] returns is a collection of valid tasks (trimmed
    non-empty titles, priorities within 1..5), one per stored element.  When
    none of its strings holds a lone surrogate it is stable: saving it and
    loading again, at any time, returns the same collection.  When one does
    (the stored escape of a lone surrogate is accepted by [load()]), saving it
    raises UnicodeEncodeError and leaves an empty file. *)
Theorem load_then_save_is_stable {rt : Runtime} (clock clock' : nat -> str) (f : file)
    (tasks : list Task) :
  load_tasks clock f = (Ok tasks, f) ->
  Forall valid_task tasks /\
  (forall items, f = Content (PList items) -> List.length tasks = List.length items) /\
  (forallb task_encodable tasks = true ->
   (_ <- save_tasks tasks ;; load_tasks clock')%io f
   = (Ok tasks, Content (PList (map to_dict tasks)))) /\
  (forallb task_encodable tasks = false ->
   save_tasks tasks f = (Raise UnicodeEncodeError, Unparsable) /\
   (_ <- save_tasks tasks ;; load_tasks clock')%io f
   = (Raise UnicodeEncodeError, Unparsable)).
Proof.
  intros Hload.
  assert (Hvalid : Forall valid_task tasks)
    by (eapply load_tasks_valid; now rewrite Hload).
  refine (conj Hvalid (conj _ (conj _ _))).
  - intros items ->. rewrite load_tasks_content in Hload.
    injection Hload as Hload. now apply from_dicts_valid in Hload.
  - intros Henc. unfold io_bind. rewrite save_tasks_run, Henc.
    now apply load_saved.
  - intros Henc. unfold io_bind. rewrite save_tasks_run, Henc. now split.
Qed.

Lemma load_then_save_is_stable_witness :
  (_ <- save_tasks [mk_Task (lit "1") (lit "Learn Python") [] 3 false [] noon] ;;
   load_tasks (rt := example_runtime) (fun _ => lit "later"))%io stored_untrimmed
  = (Ok [mk_Task (lit "1") (lit "Learn Python") [] 3 false [] noon],
     Content (PList (map to_dict
                [mk_Task (lit "1") (lit "Learn Python") [] 3 false [] noon]))) /\
  save_tasks [surrogate_task] surrogate_store
  = (Raise UnicodeEncodeError, Unparsable).
Proof.
  split.
  - apply (load_then_save_is_stable (rt := example_runtime) fixed_clock
             (fun _ => lit "later") stored_untrimmed
             [mk_Task (lit "1") (lit "Learn Python") [] 3 false [] noon]);
      reflexivity.
  - apply (load_then_save_is_stable (rt := example_runtime) fixed_clock
             fixed_clock surrogate_store [surrogate_task]);
      reflexivity.
Defined.

Section RejectFacts.
Context {rt : Runtime}.

Lemma from_dict_not_object (now : str) (raw : pyval) :
  (forall entries, raw <> PDict entries) -> from_dict now raw = Raise TypeError.
Proof.
  intros H. destruct raw; try reflexivity. now destruct (H entries).
Qed.

(** Decoding an object that has ["id"] and ["title"]. *)
Lemma from_dict_with_required (now : str) (entries : list (str * pyval))
    (v_id v_title : pyval) :
  lookup (lit "id") entries = Some v_id ->
  lookup (lit "title") entries = Some v_title ->
  from_dict now (PDict entries) =
  (v_description <- dict_get (PDict entries) (lit "description") (PStr []) ;;
   v_priority <- dict_get (PDict entries) (lit "priority") (PInt 3) ;;
   n_priority <- py_int v_priority ;;
   v_done <- dict_get (PDict entries) (lit "done") (PBool false) ;;
   v_tags <- dict_get (PDict entries) (lit "tags") (PList []) ;;
   l_tags <- py_iter v_tags ;;
   v_created <- dict_get (PDict entries) (lit "created_at") (PStr now) ;;
   Task_new (py_str v_id) (py_str v_title) (py_str v_description) n_priority
            (py_bool v_done) (map py_str l_tags) (py_str v_created))%result.
Proof.
  intros Hi Ht. unfold from_dict, getitem. now rewrite Hi, Ht.
Qed.

Lemma dict_get_entry_or (entries : list (str * pyval)) (key : str) (default : pyval) :
  dict_get (PDict entries) key default = Ok (entry_or entries key default).
Proof. unfold dict_get, entry_or. now destruct (lookup key entries). Qed.

End RejectFacts.

(** X3. [load()] fails at the first stored element that does not decode, and
    leaves the file as it was.  An element that is not an object raises
    TypeError.  For an object with ["id"] and ["title"], where a key that is
    absent stands for its default, the checks come in this order: a
    ["priority"] that [int()] rejects raises the error of [int()] (TypeError
    for null: null is not replaced by the default); then a ["tags"] that cannot
    be iterated raises TypeError (so for null); then a title that is empty
    after [strip()] raises the ValueError "title must not be empty"; then a
    priority outside 1..5 raises the ValueError "priority must be in range
    1..5". *)
Theorem load_tasks_rejects_malformed {rt : Runtime} (clock : nat -> str)
    (pre post : list pyval) (ts : list Task) :
  from_dicts clock 0 pre = Ok ts ->
  (forall raw, (forall entries, raw <> PDict entries) ->
     load_tasks clock (Content (PList (pre ++ raw :: post)))
     = (Raise TypeError, Content (PList (pre ++ raw :: post)))) /\
  (forall entries v_id v_title,
     lookup (lit "id") entries = Some v_id ->
     lookup (lit "title") entries = Some v_title ->
     (forall e,
        py_int (entry_or entries (lit "priority") (PInt 3)) = Raise e ->
        load_tasks clock (Content (PList (pre ++ PDict entries :: post)))
        = (Raise e, Content (PList (pre ++ PDict entries :: post)))) /\
     (forall p e,
        py_int (entry_or entries (lit "priority") (PInt 3)) = Ok p ->
        py_iter (entry_or entries (lit "tags") (PList [])) = Raise e ->
        load_tasks clock (Content (PList (pre ++ PDict entries :: post)))
        = (Raise e, Content (PList (pre ++ PDict entries :: post)))) /\
     (forall p items,
        py_int (entry_or entries (lit "priority") (PInt 3)) = Ok p ->
        py_iter (entry_or entries (lit "tags") (PList [])) = Ok items ->
        strip (py_str v_title) = [] ->
        load_tasks clock (Content (PList (pre ++ PDict entries :: post)))
        = (Raise (ValueError (lit "title must not be empty")),
           Content (PList (pre ++ PDict entries :: post)))) /\
     (forall p items,
        py_int (entry_or entries (lit "priority") (PInt 3)) = Ok p ->
        py_iter (entry_or entries (lit "tags") (PList [])) = Ok items ->
        strip (py_str v_title) <> [] -> ~ 1 <= p <= 5 ->
        load_tasks clock (Content (PList (pre ++ PDict entries :: post)))
        = (Raise (ValueError (lit "priority must be in range 1..5")),
           Content (PList (pre ++ PDict entries :: post))))) /\
  py_int PNone = Raise TypeError /\
  py_iter PNone = Raise TypeError /\
  (forall v e, py_iter v = Raise e -> e = TypeError).
Proof.
  intros Hpre. refine (conj _ (conj _ (conj eq_refl (conj eq_refl _)))).
  - intros raw Hraw. eapply load_tasks_fails_at; [exact Hpre|].
    now apply from_dict_not_object.
  - intros entries v_id v_title Hi Ht.
    pose proof (fun now => from_dict_with_required now entries v_id v_title Hi Ht) as Hd.
    refine (conj _ (conj _ (conj _ _))).
    + intros e Hp. eapply load_tasks_fails_at; [exact Hpre|].
      rewrite Hd, !dict_get_entry_or. cbn [rbind]. now rewrite Hp.
    + intros p e Hp Hg. eapply load_tasks_fails_at; [exact Hpre|].
      rewrite Hd, !dict_get_entry_or. cbn [rbind]. rewrite Hp. cbn [rbind].
      now rewrite Hg.
    + intros p items Hp Hg He. eapply load_tasks_fails_at; [exact Hpre|].
      rewrite Hd, !dict_get_entry_or. cbn [rbind]. rewrite Hp. cbn [rbind].
      rewrite Hg. cbn [rbind].
      rewrite Task_new_cases, He. reflexivity.
    + intros p items Hp Hg Hne Hrange. eapply load_tasks_fails_at; [exact Hpre|].
      rewrite Hd, !dict_get_entry_or. cbn [rbind]. rewrite Hp. cbn [rbind].
      rewrite Hg. cbn [rbind].
      apply nonempty_true in Hne.
      assert ((1 <=? p) && (p <=? 5) = false) as Hb.
      { destruct ((1 <=? p) && (p <=? 5)) eqn:E; [|reflexivity].
        apply andb_true_iff in E as [H1 H2]. apply Z.leb_le in H1, H2. lia. }
      rewrite Task_new_cases, Hne, Hb. reflexivity.
  - intros v e H. destruct v; simpl in H; congruence.
Qed.

Lemma load_tasks_rejects_malformed_witness :
  load_tasks (rt := example_runtime) fixed_clock
    (Content (PList [PDict [(lit "id", PStr (lit "1")); (lit "title", PStr (lit "A"))];
                     PStr (lit "not a task")]))
  = (Raise TypeError,
     Content (PList [PDict [(lit "id", PStr (lit "1")); (lit "title", PStr (lit "A"))];
                     PStr (lit "not a task")])) /\
  load_tasks (rt := example_runtime) fixed_clock
    (Content (PList [PDict [(lit "id", PStr (lit "1")); (lit "title", PStr (lit "A"))];
                     PDict [(lit "id", PStr (lit "2")); (lit "title", PStr (lit " "));
                            (lit "priority", PNone)]]))
  = (Raise TypeError,
     Content (PList [PDict [(lit "id", PStr (lit "1")); (lit "title", PStr (lit "A"))];
                     PDict [(lit "id", PStr (lit "2")); (lit "title", PStr (lit " "));
                            (lit "priority", PNone)]])) /\
  load_tasks (rt := example_runtime) fixed_clock
    (Content (PList [PDict [(lit "id", PStr (lit "1")); (lit "title", PStr (lit "A"))];
                     PDict [(lit "id", PStr (lit "2")); (lit "title", PStr (lit " "));
                            (lit "priority", PInt 9)]]))
  = (Raise (ValueError (lit "title must not be empty")),
     Content (PList [PDict [(lit "id", PStr (lit "1")); (lit "title", PStr (lit "A"))];
                     PDict [(lit "id", PStr (lit "2")); (lit "title", PStr (lit " "));
                            (lit "priority", PInt 9)]])).
Proof.
  pose proof (load_tasks_rejects_malformed (rt := example_runtime) fixed_clock
                [PDict [(lit "id", PStr (lit "1")); (lit "title", PStr (lit "A"))]]
                [] [mk_Task (lit "1") (lit "A") [] 3 false [] noon] eq_refl)
    as (Hraw & Hobject & _).
  refine (conj _ (conj _ _)).
  - apply Hraw. intros entries H. discriminate H.
  - apply (proj1 (Hobject [(lit "id", PStr (lit "2")); (lit "title", PStr (lit " "));
                            (lit "priority", PNone)]
                    (PStr (lit "2")) (PStr (lit " ")) eq_refl eq_refl)).
    reflexivity.
  - apply (proj1 (proj2 (proj2 (Hobject [(lit "id", PStr (lit "2"));
                                         (lit "title", PStr (lit " "));
                                         (lit "priority", PInt 9)]
                                  (PStr (lit "2")) (PStr (lit " "))
                                  eq_refl eq_refl))) 9 []);
      reflexivity.
Defined.

(** ** service.py: the next task and the counts *)

Section ListingFacts.
Context {rt : Runtime}.

Lemma selected_all (tasks : list Task) : filter (selected true None) tasks = tasks.
Proof. apply filter_all. reflexivity. Qed.

Lemma selected_open (tasks : list Task) :
  filter (selected false None) tasks = filter (fun t => negb (done t)) tasks.
Proof. apply filter_ext. intros t. unfold selected. simpl. apply andb_true_r. Qed.

Lemma sorted_by_length {A K} (ltb : K -> K -> bool) (key : A -> K) (l : list A) :
  List.length (sorted_by ltb key l) = List.length l.
Proof. symmetry. apply Permutation_length, sorted_by_perm. Qed.

(** The listing of the open tasks, as [next_task] and [count_tasks] use it. *)
Lemma list_open_run (clock : nat -> str) (f : file) (tasks : list Task) :
  load_tasks clock f = (Ok tasks, f) ->
  list_tasks clock false None f =
  (Ok (sorted_by key_ltb sort_key (filter (fun t => negb (done t)) tasks)), f).
Proof.
  intros Hload. rewrite (list_tasks_run clock false None f tasks Hload).
  now rewrite selected_open.
Qed.

Lemma count_all_run (clock : nat -> str) (f : file) (tasks : list Task) :
  load_tasks clock f = (Ok tasks, f) ->
  count_tasks clock true f = (Ok (len tasks), f).
Proof.
  intros Hload. unfold count_tasks, io_bind.
  rewrite (list_tasks_run clock true None f tasks Hload).
  unfold io_ret, len. now rewrite sorted_by_length, selected_all.
Qed.

End ListingFacts.

(** X4. [next_task()] leaves the file as it was and returns none exactly when
    every stored task is done (or there is none); otherwise it returns an open
    stored task that no open task precedes: every open task has a lower
    priority, or the same priority and a [created_at] that is not earlier; and
    among the open tasks with its priority and [created_at] it is the first
    stored. *)
Theorem next_task_is_first_open {rt : Runtime} (clock : nat -> str) (f : file)
    (tasks : list Task) :
  load_tasks clock f = (Ok tasks, f) ->
  exists r,
    next_task clock f = (Ok r, f) /\
    (r = None <-> forall t, In t tasks -> done t = true) /\
    (forall t, r = Some t ->
       In t tasks /\ done t = false /\
       (forall u, In u tasks -> done u = false -> listed_before t u) /\
       exists others,
         filter (fun u => negb (done u) && key_eqb (sort_key u) (sort_key t)) tasks
         = t :: others).
Proof.
  intros Hload. unfold next_task, io_bind.
  rewrite (list_open_run clock f tasks Hload). unfold io_ret.
  set (opened := filter (fun t => negb (done t)) tasks).
  pose proof (sorted_by_perm key_ltb sort_key opened) as Hperm.
  pose proof (sorted_by_sorted key_ltb sort_key key_ltb_asym key_leb_trans opened)
    as Hsorted.
  pose proof (sorted_by_stable key_ltb sort_key) as Hstable.
  destruct (sorted_by key_ltb sort_key opened) as [|t rest] eqn:Es.
  - exists None. refine (conj eq_refl (conj _ _)); [|discriminate].
    split; [intros _ | reflexivity].
    apply Permutation_sym, Permutation_nil in Hperm.
    intros t Ht. destruct (done t) eqn:Ed; [reflexivity|].
    assert (In t opened) as Hin by (apply filter_In; split; [exact Ht | now rewrite Ed]).
    rewrite Hperm in Hin. destruct Hin.
  - exists (Some t).
    assert (In t opened) as Hin
      by (eapply Permutation_in; [apply Permutation_sym; exact Hperm | now left]).
    apply filter_In in Hin as [Hin Hopen]. apply negb_true_iff in Hopen.
    refine (conj eq_refl (conj _ _)).
    + split; [discriminate|]. intros Hall. rewrite (Hall t Hin) in Hopen. discriminate.
    + intros t' Ht'. injection Ht' as <-. refine (conj Hin (conj Hopen (conj _ _))).
      * intros u Hu Hd.
        assert (In u (t :: rest)) as [<- | Hrest].
        { eapply Permutation_in; [exact Hperm|]. apply filter_In.
          split; [exact Hu | now rewrite Hd]. }
        -- right. split; [reflexivity | apply str_ltb_irrefl].
        -- inversion Hsorted as [|? ? _ Hall]; subst.
           rewrite Forall_forall in Hall. apply in_order_sort_key. now apply Hall.
      * specialize (Hstable (fun u => key_eqb (sort_key u) (sort_key t)) opened).
        rewrite Es in Hstable. simpl in Hstable.
        assert (key_eqb (sort_key t) (sort_key t) = true) as Hrefl by now apply key_eqb_eq.
        rewrite Hrefl in Hstable. unfold opened in Hstable.
        rewrite filter_twice in Hstable. eexists. symmetry. apply Hstable.
        intros a b Ha Hb. apply key_eqb_eq in Ha, Hb. rewrite Ha, Hb.
        apply key_ltb_irrefl.
Qed.

Lemma next_task_is_first_open_witness :
  exists r,
    next_task (rt := example_runtime) fixed_clock two_tasks_file = (Ok r, two_tasks_file) /\
    (r = None <-> forall t, In t two_tasks -> done t = true) /\
    (forall t, r = Some t ->
       In t two_tasks /\ done t = false /\
       (forall u, In u two_tasks -> done u = false -> listed_before t u) /\
       exists others,
         filter (fun u => negb (done u) && key_eqb (sort_key u) (sort_key t)) two_tasks
         = t :: others).
Proof.
  apply (next_task_is_first_open (rt := example_runtime) fixed_clock two_tasks_file
           two_tasks).
  reflexivity.
Defined.

(** X5. [count_tasks()] leaves the file as it was; with done tasks included it
    is the number of stored tasks, without them the number of open ones, never
    more; and the two counts are the [total] and [open] entries of [stats()]. *)
Theorem count_tasks_counts {rt : Runtime} (clock : nat -> str) (f : file)
    (tasks : list Task) :
  load_tasks clock f = (Ok tasks, f) ->
  count_tasks clock true f = (Ok (len tasks), f) /\
  count_tasks clock false f = (Ok (len (filter (fun t => negb (done t)) tasks)), f) /\
  len (filter (fun t => negb (done t)) tasks) <= len tasks /\
  exists s,
    stats clock f = (Ok s, f) /\
    stats_total s = len tasks /\
    stats_open s = len (filter (fun t => negb (done t)) tasks).
Proof.
  intros Hload. refine (conj _ (conj _ (conj _ _))).
  - unfold count_tasks, io_bind. rewrite (list_tasks_run clock true None f tasks Hload).
    unfold io_ret, len. now rewrite sorted_by_length, selected_all.
  - unfold count_tasks, io_bind. rewrite (list_open_run clock f tasks Hload).
    unfold io_ret, len. now rewrite sorted_by_length.
  - unfold len. pose proof (filter_length_le (fun t => negb (done t)) tasks). lia.
  - unfold stats, io_bind. rewrite Hload. unfold io_ret. eexists.
    split; [reflexivity|]. cbn [stats_total stats_open].
    rewrite py_sum_ones. unfold len.
    pose proof (filter_length_split done tasks). split; [reflexivity | lia].
Qed.

Lemma count_tasks_counts_witness :
  count_tasks (rt := example_runtime) fixed_clock true listing_file
  = (Ok 3, listing_file) /\
  count_tasks (rt := example_runtime) fixed_clock false listing_file
  = (Ok 2, listing_file).
Proof.
  destruct (count_tasks_counts (rt := example_runtime) fixed_clock listing_file
              listing_tasks eq_refl) as (Hall & Hopen & _).
  split; [exact Hall | exact Hopen].
Defined.

(** ** service.py: operations one after the other *)




(** X6. A task added and then deleted by its id leaves the collection as it
    was loaded: when the title and priority are valid, the id drawn is not
    that of a stored task, and no string of the stored tasks or of the new one
    holds a lone surrogate, [add] followed by [count] gives one more than the
    number of stored tasks, and [add] followed by [delete] of the new id
    returns true and stores the collection loaded before. *)
Theorem add_then_delete_restores {rt : Runtime} (clock : nat -> str)
    (uuid now title0 description0 : str) (priority0 : Z) (tags0 : option (list str))
    (f : file) (tasks : list Task) :
  load_tasks clock f = (Ok tasks, f) ->
  strip title0 <> [] -> 1 <= priority0 <= 5 ->
  (forall t, In t tasks -> id t <> uuid) ->
  forallb task_encodable
    (tasks ++ [mk_Task uuid (strip title0) description0 priority0 false
                 (match tags0 with Some given => given | None => [] end) now]) = true ->
  outcome (_ <- add_task clock uuid now title0 description0 priority0 tags0 ;;
           count_tasks clock true)%io f
  = Ok (len tasks + 1) /\
  (task <- add_task clock uuid now title0 description0 priority0 tags0 ;;
   delete_task clock (id task))%io f
  = (Ok true, Content (PList (map to_dict tasks))) /\
  load_tasks clock (Content (PList (map to_dict tasks)))
  = (Ok tasks, Content (PList (map to_dict tasks))).
Proof.
  intros Hload Htitle Hprio Hfresh Henc. rewrite <- or_empty_spec in Henc.
  pose proof (add_task_run clock uuid now title0 description0 priority0 tags0 f
                tasks Hload) as Hrun.
  rewrite Task_new_ok in Hrun by assumption.
  set (task := mk_Task uuid (strip title0) description0 priority0 false
                 (or_empty tags0) now) in *.
  rewrite Henc in Hrun.
  assert (Henc0 : forallb task_encodable tasks = true)
    by (rewrite forallb_app in Henc; now apply andb_true_iff in Henc).
  assert (Hvalid : Forall valid_task tasks)
    by (eapply load_tasks_valid; now rewrite Hload).
  assert (Hvalid' : Forall valid_task (tasks ++ [task])).
  { apply Forall_app. split; [exact Hvalid|]. constructor; [|constructor].
    eapply Task_new_valid. now apply Task_new_ok. }
  pose proof (load_saved clock _ Hvalid') as Hload'.
  refine (conj _ (conj _ (load_saved clock _ Hvalid))).
  - unfold outcome, io_bind at 1. rewrite Hrun.
    rewrite (count_all_run clock _ _ Hload'). simpl. f_equal.
    unfold len. rewrite length_app. simpl. lia.
  - unfold io_bind at 1. rewrite Hrun.
    rewrite (delete_task_run clock (id task) _ _ Hload').
    assert (existsb (has_id (id task)) (tasks ++ [task]) = true) as ->.
    { apply existsb_exists. exists task. split; [apply in_elt | apply str_eqb_refl]. }
    assert (filter (fun t => negb (has_id (id task) t)) (tasks ++ [task]) = tasks) as ->.
    { rewrite <- (app_nil_r tasks) at 2. apply filter_unique_id; [|reflexivity].
      rewrite app_nil_r. exact Hfresh. }
    now rewrite Henc0.
Qed.

Lemma add_then_delete_restores_witness :
  (task <- add_task (rt := example_runtime) fixed_clock (lit "three") noon
             (lit " Task three ") [] 5 None ;;
   delete_task (rt := example_runtime) fixed_clock (id task))%io two_tasks_file
  = (Ok true, two_tasks_file).
Proof.
  apply (proj1 (proj2 (add_then_delete_restores (rt := example_runtime) fixed_clock
                         (lit "three") noon (lit " Task three ") [] 5 None
                         two_tasks_file two_tasks eq_refl
                         ltac:(discriminate) ltac:(lia)
                         ltac:(intros t [<- | [<- | []]]; discriminate)
                         eq_refl))).
Defined.





(** ** analytics.py: the distribution of priorities *)

Lemma at_level_cons (level : Z) (t : Task) (tasks : list Task) :
  at_level level (t :: tasks)
  = (if priority t =? level then 1 else 0) + at_level level tasks.
Proof.
  unfold at_level, len. cbn [filter].
  destruct (priority t =? level); cbn [List.length]; lia.
Qed.

Lemma distribution_from_levels (a1 a2 a3 a4 a5 : Z) (tasks : list Task) :
  Forall (fun t => 1 <= priority t <= 5) tasks ->
  distribution_from [(1, a1); (2, a2); (3, a3); (4, a4); (5, a5)] tasks
  = inr [ (1, a1 + at_level 1 tasks); (2, a2 + at_level 2 tasks);
          (3, a3 + at_level 3 tasks); (4, a4 + at_level 4 tasks);
          (5, a5 + at_level 5 tasks) ].
Proof.
  intros H. revert a1 a2 a3 a4 a5.
  induction H as [|t tasks Ht H IH]; intros a1 a2 a3 a4 a5.
  - simpl. unfold at_level, len. simpl. now rewrite !Z.add_0_r.
  - rewrite !at_level_cons. cbn [distribution_from].
    assert (priority t = 1 \/ priority t = 2 \/ priority t = 3 \/ priority t = 4 \/
            priority t = 5) as Hp by lia.
    destruct Hp as [-> | [-> | [-> | [-> | ->]]]];
      cbn [bump Z.eqb Pos.eqb option_map]; rewrite IH; apply f_equal;
      repeat (apply f_equal2; [apply f_equal2; [reflexivity | lia]|]); reflexivity.
Qed.

Lemma distribution_from_key_error (a1 a2 a3 a4 a5 : Z) (pre post : list Task)
    (t : Task) :
  Forall (fun t => 1 <= priority t <= 5) pre -> ~ 1 <= priority t <= 5 ->
  distribution_from [(1, a1); (2, a2); (3, a3); (4, a4); (5, a5)] (pre ++ t :: post)
  = inl (priority t).
Proof.
  intros H Ht. revert a1 a2 a3 a4 a5.
  induction H as [|u pre Hu H IH]; intros a1 a2 a3 a4 a5.
  - cbn [app distribution_from bump].
    destruct (Z.eqb_spec 1 (priority t)); [lia|].
    destruct (Z.eqb_spec 2 (priority t)); [lia|].
    destruct (Z.eqb_spec 3 (priority t)); [lia|].
    destruct (Z.eqb_spec 4 (priority t)); [lia|].
    destruct (Z.eqb_spec 5 (priority t)); [lia|]. reflexivity.
  - assert (priority u = 1 \/ priority u = 2 \/ priority u = 3 \/ priority u = 4 \/
            priority u = 5) as Hp by lia.
    cbn [app distribution_from].
    destruct Hp as [-> | [-> | [-> | [-> | ->]]]];
      cbn [bump Z.eqb Pos.eqb option_map]; apply IH.
Qed.

Lemma at_level_total (tasks : list Task) :
  Forall (fun t => 1 <= priority t <= 5) tasks ->
  at_level 1 tasks + at_level 2 tasks + at_level 3 tasks + at_level 4 tasks
  + at_level 5 tasks = len tasks.
Proof.
  induction 1 as [|t tasks Ht H IH].
  - reflexivity.
  - rewrite !at_level_cons. unfold len in *. cbn [List.length].
    assert (priority t = 1 \/ priority t = 2 \/ priority t = 3 \/ priority t = 4 \/
            priority t = 5) as Hp by lia.
    destruct Hp as [-> | [-> | [-> | [-> | ->]]]]; cbn [Z.eqb Pos.eqb]; lia.
Qed.

(** X9. [priority_distribution]: for tasks whose priorities are within 1..5 the
    result has the keys 1, 2, 3, 4, 5, in this order, each with the number of
    tasks of that priority (0 when there is none), and the values add up to the
    number of tasks; a first task with a priority outside 1..5 makes it raise
    the KeyError of that priority; and every collection [load()] returns has a
    distribution. *)
Theorem priority_distribution_counts (tasks : list Task) :
  (Forall (fun t => 1 <= priority t <= 5) tasks ->
   priority_distribution tasks
   = inr (map (fun level => (level, at_level level tasks)) [1; 2; 3; 4; 5]) /\
   py_sum (map (fun level => at_level level tasks) [1; 2; 3; 4; 5]) = len tasks) /\
  (forall pre t post,
     tasks = pre ++ t :: post ->
     Forall (fun t => 1 <= priority t <= 5) pre -> ~ 1 <= priority t <= 5 ->
     priority_distribution tasks = inl (priority t)) /\
  (forall (rt : Runtime) clock f,
     load_tasks clock f = (Ok tasks, f) ->
     priority_distribution tasks
     = inr (map (fun level => (level, at_level level tasks)) [1; 2; 3; 4; 5])).
Proof.
  assert (Hin : Forall (fun t => 1 <= priority t <= 5) tasks ->
            priority_distribution tasks
            = inr (map (fun level => (level, at_level level tasks)) [1; 2; 3; 4; 5])).
  { intros H. unfold priority_distribution.
    change (map (fun level => (level, 0)) (py_range 1 6 1))
      with [(1, 0); (2, 0); (3, 0); (4, 0); (5, 0)].
    now rewrite distribution_from_levels. }
  refine (conj _ (conj _ _)).
  - intros H. split; [now apply Hin|].
    unfold py_sum. simpl. rewrite <- (at_level_total tasks H). lia.
  - intros pre t post -> Hpre Ht. unfold priority_distribution.
    change (map (fun level => (level, 0)) (py_range 1 6 1))
      with [(1, 0); (2, 0); (3, 0); (4, 0); (5, 0)].
    now apply distribution_from_key_error.
  - intros rt clock f Hload. apply Hin.
    assert (Forall valid_task tasks) as Hvalid
      by (eapply load_tasks_valid; now rewrite Hload).
    eapply Forall_impl; [|exact Hvalid]. intros t (_ & _ & Hp). exact Hp.
Qed.

(** ** analytics.py and service.py: the rate of a listing *)

Lemma filter_length_perm {A} (p : A -> bool) (l l' : list A) :
  Permutation l l' -> List.length (filter p l) = List.length (filter p l').
Proof.
  induction 1 as [|x l l' H IH|x y l|l l' l'' H1 IH1 H2 IH2]; simpl.
  - reflexivity.
  - destruct (p x); simpl; now rewrite IH.
  - destruct (p x), (p y); reflexivity.
  - now rewrite IH1.
Qed.

(** X10. The completion rate does not depend on the order of the tasks: it is
    the same for any two collections with the same tasks; so the rate computed
    from the listing [list(include_done=true)] (as the stats command does) is
    the [completion_rate] entry of [stats()], and the distribution of
    priorities of the listing is that of the stored collection. *)
Theorem completion_rate_of_listing {rt : Runtime} (clock : nat -> str) (f : file)
    (tasks : list Task) :
  load_tasks clock f = (Ok tasks, f) ->
  (forall l l', Permutation l l' -> completion_rate l = completion_rate l') /\
  exists listed s,
    list_tasks clock true None f = (Ok listed, f) /\
    stats clock f = (Ok s, f) /\
    completion_rate listed = stats_completion_rate s /\
    priority_distribution listed = priority_distribution tasks.
Proof.
  intros Hload.
  assert (Hperm_rate : forall l l', Permutation l l' ->
            completion_rate l = completion_rate l').
  { intros l l' H. unfold completion_rate. rewrite !py_sum_ones. unfold len.
    pose proof (Permutation_length H) as Hlen.
    pose proof (filter_length_perm done l l' H) as Hdone.
    destruct l as [|x l], l' as [|x' l']; try discriminate; [reflexivity|].
    now rewrite Hlen, Hdone. }
  split; [exact Hperm_rate|].
  exists (sorted_by key_ltb sort_key tasks).
  pose proof (sorted_by_perm key_ltb sort_key tasks) as Hperm.
  unfold stats, io_bind. rewrite Hload. unfold io_ret. eexists.
  refine (conj _ (conj eq_refl (conj _ _))).
  - rewrite (list_tasks_run clock true None f tasks Hload). now rewrite selected_all.
  - cbn [stats_completion_rate].
    rewrite <- (Hperm_rate _ _ Hperm). unfold completion_rate.
    destruct tasks as [|t tasks]; reflexivity.
  - assert (Forall (fun t => 1 <= priority t <= 5) tasks) as Hrange.
    { assert (Forall valid_task tasks) as Hvalid
        by (eapply load_tasks_valid; now rewrite Hload).
      eapply Forall_impl; [|exact Hvalid]. intros t (_ & _ & Hp). exact Hp. }
    assert (Forall (fun t => 1 <= priority t <= 5) (sorted_by key_ltb sort_key tasks))
      as Hrange'.
    { rewrite Forall_forall in *. intros t Ht. apply Hrange.
      eapply Permutation_in; [apply Permutation_sym; exact Hperm | exact Ht]. }
    unfold priority_distribution.
    change (map (fun level => (level, 0)) (py_range 1 6 1))
      with [(1, 0); (2, 0); (3, 0); (4, 0); (5, 0)].
    rewrite !distribution_from_levels by assumption.
    unfold at_level, len.
    now rewrite !(filter_length_perm _ _ _ Hperm).
Qed.

Lemma completion_rate_of_listing_witness :
  exists listed s,
    list_tasks (rt := example_runtime) fixed_clock true None listing_file
    = (Ok listed, listing_file) /\
    stats (rt := example_runtime) fixed_clock listing_file = (Ok s, listing_file) /\
    completion_rate (rt := example_runtime) listed = stats_completion_rate s /\
    priority_distribution listed = priority_distribution listing_tasks.
Proof.
  apply (proj2 (completion_rate_of_listing (rt := example_runtime) fixed_clock
                  listing_file listing_tasks eq_refl)).
Defined.

(** ** async_jobs.py: batching is not observable *)

(** A coroutine that does not raise is its sleeps and its value. *)
Lemma coro_of_run {A} (m : coro A) (ds : list float) (a : A) :
  run m = (ds, Ok a) -> m = sleeps ds a.
Proof.
  revert ds. induction m as [b|e|d m IH]; intros ds H; simpl in H.
  - injection H as <- <-. reflexivity.
  - discriminate.
  - destruct (run m) as [ds' r]. injection H as <- ->.
    simpl. f_equal. now apply IH.
Qed.

(** X11. [simulate_sync] suspends once per task and returns the number of
    tasks; for a batch size above 0, [sync_in_batches] is the same coroutine:
    the same suspensions with the same delays and the same result, whatever the
    batch size. *)
Theorem sync_in_batches_is_simulate_sync (tasks : list Task) (batch_size : Z)
    (delay : float) :
  0 < batch_size ->
  simulate_sync tasks delay = sleeps (repeat delay (List.length tasks)) (len tasks) /\
  sync_in_batches tasks batch_size delay = simulate_sync tasks delay /\
  (forall other, 0 < other ->
     sync_in_batches tasks other delay = sync_in_batches tasks batch_size delay).
Proof.
  intros Hb.
  assert (Hsim : simulate_sync tasks delay
                 = sleeps (repeat delay (List.length tasks)) (len tasks)).
  { apply coro_of_run. unfold simulate_sync. now rewrite run_simulate_sync_from. }
  assert (Hany : forall size, 0 < size ->
            sync_in_batches tasks size delay
            = sleeps (repeat delay (List.length tasks)) (len tasks)).
  { intros size Hsize. apply coro_of_run. unfold sync_in_batches.
    destruct (Z.leb_spec size 0); [lia|].
    rewrite sync_from_batches. fold (batches tasks size).
    now rewrite run_sync_batches, concat_batches. }
  refine (conj Hsim (conj _ _)).
  - now rewrite Hsim, Hany.
  - intros other Hother. now rewrite !Hany.
Qed.

Lemma sync_in_batches_is_simulate_sync_witness :
  sync_in_batches (repeat (test_task "0" "task" 3 false "") 12) 5 0%float
  = simulate_sync (repeat (test_task "0" "task" 3 false "") 12) 0%float.
Proof.
  apply (proj1 (proj2 (sync_in_batches_is_simulate_sync
                         (repeat (test_task "0" "task" 3 false "") 12) 5 0%float
                         ltac:(lia)))).
Defined.

(** ** service.py: filtering and sorting commute *)

Section SortFilter.
Context {A K : Type} (ltb : K -> K -> bool) (key : A -> K).

Hypothesis leb_trans :
  forall a b c, ltb b a = false -> ltb c b = false -> ltb c a = false.




End SortFilter.




(** ** cli.py: the handlers *)

Section CliFacts.
Context {rt : Runtime}.

Lemma next_task_run (clock : nat -> str) (f : file) (tasks : list Task) :
  load_tasks clock f = (Ok tasks, f) ->
  next_task clock f =
  (Ok (match sorted_by key_ltb sort_key (filter (fun t => negb (done t)) tasks) with
       | [] => None
       | t :: _ => Some t
       end), f).
Proof.
  intros Hload. unfold next_task, io_bind.
  now rewrite (list_open_run clock f tasks Hload).
Qed.

Lemma list_line_state (t : Task) :
  startswith (if done t then lit "[x] (" else lit "[ ] (") (list_line t) = true.
Proof.
  apply startswith_spec. unfold list_line.
  destruct (done t); eexists; cbn [lit list_ascii_of_string map app]; reflexivity.
Qed.

(** When the standard output can encode every text, all are printed and the
    code is returned. *)
Lemma say_accepted (texts : list str) (code : Z) :
  forallb stdout_accepts texts = true -> say texts code = (texts, Ok code).
Proof.
  induction texts as [|text texts IH]; simpl; [reflexivity|].
  intros H. apply andb_true_iff in H as [-> H]. now rewrite (IH H).
Qed.

(** Only then is a code returned. *)
Lemma say_returns (texts out : list str) (code c : Z) :
  say texts code = (out, Ok c) ->
  out = texts /\ c = code /\ forallb stdout_accepts texts = true.
Proof.
  revert out. induction texts as [|text texts IH]; simpl; intros out H.
  - now injection H as <- <-.
  - destruct (stdout_accepts text); [|discriminate].
    destruct (say texts code) as [out' r] eqn:E.
    injection H as <- ->. destruct (IH out' eq_refl) as (-> & -> & ->).
    now repeat split.
Qed.

Lemma calling_ok {A} (m : io A) (k : A -> list str * result Z) (f f' : file) (a : A) :
  m f = (Ok a, f') -> calling m k f = (k a, f').
Proof. intros H. unfold calling. now rewrite H. Qed.

Lemma calling_raise {A} (m : io A) (k : A -> list str * result Z) (f f' : file)
    (e : exn) :
  m f = (Raise e, f') -> calling m k f = (([], Raise e), f').
Proof. intros H. unfold calling. now rewrite H. Qed.

End CliFacts.

(** X13. The [done] and [delete] commands. When no stored task has the id
    they print "not found", return 1 and leave the file as it was. When one
    has, [done] stores the collection with the first such task done, prints
    "done" and returns 0, and [delete] stores the tasks of other ids, prints
    "deleted" and returns 0, provided no string of what is stored holds a lone
    surrogate; when one does, the command raises UnicodeEncodeError, prints
    nothing and leaves an empty file. A text that the standard output can
    encode is printed; so a command that returns, returns 0 exactly when a
    stored task has the id, and when it returns 1 it has printed "not found"
    and left the file as it was. *)
Theorem cmd_done_and_delete_exit_codes {rt : Runtime} (clock : nat -> str) (f : file)
    (tasks : list Task) (task_id : str) :
  load_tasks clock f = (Ok tasks, f) ->
  ((forall t, In t tasks -> id t <> task_id) ->
   cmd_done clock task_id f = (say [lit "not found"] 1, f) /\
   cmd_delete clock task_id f = (say [lit "not found"] 1, f)) /\
  ((exists t, In t tasks /\ id t = task_id) ->
   (forallb task_encodable tasks = true ->
    cmd_done clock task_id f
    = (say [lit "done"] 0,
       Content (PList (map to_dict (fst (mark_first task_id tasks)))))) /\
   (forallb task_encodable tasks = false ->
    cmd_done clock task_id f = (([], Raise UnicodeEncodeError), Unparsable)) /\
   (forallb task_encodable
      (filter (fun task => negb (has_id task_id task)) tasks) = true ->
    cmd_delete clock task_id f
    = (say [lit "deleted"] 0,
       Content (PList (map to_dict
                  (filter (fun task => negb (has_id task_id task)) tasks))))) /\
   (forallb task_encodable
      (filter (fun task => negb (has_id task_id task)) tasks) = false ->
    cmd_delete clock task_id f = (([], Raise UnicodeEncodeError), Unparsable))) /\
  (forall texts code,
     forallb stdout_accepts texts = true -> say texts code = (texts, Ok code)) /\
  (forall out code f',
     cmd_done clock task_id f = ((out, Ok code), f') \/
     cmd_delete clock task_id f = ((out, Ok code), f') ->
     (code = 0 \/ code = 1) /\
     (code = 0 <-> exists t, In t tasks /\ id t = task_id) /\
     (code = 1 -> f' = f /\ out = [lit "not found"])).
Proof.
  intros Hload.
  pose proof (complete_task_run clock task_id f tasks Hload) as Hc.
  pose proof (delete_task_run clock task_id f tasks Hload) as Hd.
  rewrite mark_first_encodable in Hc.
  assert (Hex : existsb (has_id task_id) tasks = true <->
                exists t, In t tasks /\ id t = task_id).
  { rewrite existsb_exists. unfold has_id.
    split; intros (t & Hin & Ht); exists t; split; try assumption;
      now apply str_eqb_eq. }
  refine (conj _ (conj _ (conj say_accepted _))).
  - intros Hnone. apply existsb_has_id_false in Hnone. rewrite Hnone in Hc, Hd.
    unfold cmd_done, cmd_delete.
    now rewrite (calling_ok _ _ _ _ _ Hc), (calling_ok _ _ _ _ _ Hd).
  - intros Hsome. apply Hex in Hsome. rewrite Hsome in Hc, Hd.
    unfold cmd_done, cmd_delete.
    refine (conj _ (conj _ (conj _ _))); intros Henc; rewrite Henc in *.
    + now rewrite (calling_ok _ _ _ _ _ Hc).
    + now rewrite (calling_raise _ _ _ _ _ Hc).
    + now rewrite (calling_ok _ _ _ _ _ Hd).
    + now rewrite (calling_raise _ _ _ _ _ Hd).
  - intros out code f'. rewrite <- Hex. unfold cmd_done, cmd_delete, calling.
    rewrite Hc, Hd. clear Hc Hd.
    destruct (existsb (has_id task_id) tasks).
    + intros [H | H].
      * destruct (forallb task_encodable tasks); [|discriminate].
        apply pair_equal_spec in H as [H _].
        apply say_returns in H as (_ & -> & _).
        repeat split; auto; discriminate.
      * destruct (forallb task_encodable _); [|discriminate].
        apply pair_equal_spec in H as [H _].
        apply say_returns in H as (_ & -> & _).
        repeat split; auto; discriminate.
    + intros [H | H]; apply pair_equal_spec in H as [H <-];
        apply say_returns in H as (-> & -> & _);
        repeat split; auto; discriminate.
Qed.

Lemma cmd_done_and_delete_exit_codes_witness :
  (cmd_done (rt := example_runtime) fixed_clock (lit "two") two_tasks_file
   = (say (rt := example_runtime) [lit "done"] 0,
      Content (PList (map to_dict (fst (mark_first (lit "two") two_tasks))))) /\
   cmd_delete (rt := example_runtime) fixed_clock (lit "two") two_tasks_file
   = (say (rt := example_runtime) [lit "deleted"] 0,
      Content (PList (map to_dict
                 (filter (fun task => negb (has_id (lit "two") task)) two_tasks))))) /\
  (cmd_done (rt := example_runtime) fixed_clock (lit "unknown") two_tasks_file
   = (say (rt := example_runtime) [lit "not found"] 1, two_tasks_file) /\
   cmd_delete (rt := example_runtime) fixed_clock (lit "unknown") two_tasks_file
   = (say (rt := example_runtime) [lit "not found"] 1, two_tasks_file)).
Proof.
  split.
  - destruct (proj1 (proj2 (cmd_done_and_delete_exit_codes (rt := example_runtime)
                              fixed_clock two_tasks_file two_tasks (lit "two")
                              eq_refl))) as (Hdone & _ & Hdelete & _).
    + exists (mk_Task (lit "two") (lit "Task two") [] 4 false []
                (lit "2024-01-01T11:00:00+00:00")).
      split; [right; left; reflexivity | reflexivity].
    + split; [apply Hdone | apply Hdelete]; reflexivity.
  - apply (proj1 (cmd_done_and_delete_exit_codes (rt := example_runtime) fixed_clock
                    two_tasks_file two_tasks (lit "unknown") eq_refl)).
    intros t [<- | [<- | []]]; discriminate.
Defined.

(** X14. The [list] command leaves the file as it was. For an empty listing it
    calls [print] once, with "no tasks"; otherwise once per listed task, in the
    order of the listing, with a text that starts with "[x] (" for a done task
    and with "[ ] (" for an open one (the text holds the id, the title and the
    tags as they are stored, so it is more than one line of output when one of
    them holds a line break); with [--open] every text is of an open task.
    When the standard output can encode every text, all are printed and the
    command returns 0. The [count] command prints the number of tasks that
    [list] prints, with the same flag and no query. *)
Theorem cmd_list_prints_the_listing {rt : Runtime} (clock : nat -> str) (f : file)
    (tasks : list Task) (open_only : bool) (query : option str) :
  load_tasks clock f = (Ok tasks, f) ->
  exists listed texts,
    list_tasks clock (negb open_only) query f = (Ok listed, f) /\
    cmd_list clock open_only query f = (say texts 0, f) /\
    (listed = [] -> texts = [lit "no tasks"]) /\
    (listed <> [] ->
     texts = map list_line listed /\ List.length texts = List.length listed) /\
    (forallb stdout_accepts texts = true ->
     cmd_list clock open_only query f = ((texts, Ok 0), f)) /\
    (forall t, In t listed ->
       startswith (if done t then lit "[x] (" else lit "[ ] (") (list_line t) = true) /\
    (open_only = true -> forall t, In t listed -> done t = false) /\
    (query = None ->
     cmd_count clock open_only f = (say [py_str (PInt (len listed))] 0, f)).
Proof.
  intros Hload.
  pose proof (list_tasks_run clock (negb open_only) query f tasks Hload) as Hrun.
  set (listed := sorted_by key_ltb sort_key
                   (filter (selected (negb open_only) query) tasks)) in *.
  exists listed, (match listed with [] => [lit "no tasks"] | _ :: _ => map list_line listed end).
  assert (Hcmd : cmd_list clock open_only query f
                 = (say (match listed with
                         | [] => [lit "no tasks"]
                         | _ :: _ => map list_line listed
                         end) 0, f)).
  { unfold cmd_list. rewrite (calling_ok _ _ _ _ _ Hrun). now destruct listed. }
  refine (conj Hrun (conj Hcmd (conj _ (conj _ (conj _ (conj _ (conj _ _))))))).
  - now intros ->.
  - intros Hne. destruct listed as [|t l]; [congruence|].
    split; [reflexivity | apply length_map].
  - intros Hacc. rewrite Hcmd. now rewrite (say_accepted _ _ Hacc).
  - intros t _. apply list_line_state.
  - intros -> t Ht. unfold listed in Ht.
    eapply Permutation_in in Ht; [|apply Permutation_sym, sorted_by_perm].
    apply filter_In in Ht as [_ Hsel]. apply selected_spec in Hsel as [Hd _].
    now apply Hd.
  - intros ->. unfold cmd_count.
    assert (count_tasks clock (negb open_only) f = (Ok (len listed), f)) as Hcount
      by (unfold count_tasks, io_bind; now rewrite Hrun).
    now rewrite (calling_ok _ _ _ _ _ Hcount).
Qed.

Lemma cmd_list_prints_the_listing_witness :
  exists listed texts,
    list_tasks (rt := example_runtime) fixed_clock (negb true) None listing_file
    = (Ok listed, listing_file) /\
    (listed <> [] ->
     texts = map (list_line (rt := example_runtime)) listed /\
     List.length texts = List.length listed) /\
    (forallb (stdout_accepts (Runtime := example_runtime)) texts = true ->
     cmd_list (rt := example_runtime) fixed_clock true None listing_file
     = ((texts, Ok 0), listing_file)).
Proof.
  destruct (cmd_list_prints_the_listing (rt := example_runtime) fixed_clock
              listing_file listing_tasks true None eq_refl)
    as (listed & texts & Hl & _ & _ & Htexts & Hc & _).
  exists listed, texts. exact (conj Hl (conj Htexts Hc)).
Defined.

(** X15. The [add] command, for a title that is empty after [strip()] or a
    priority outside 1..5, raises the ValueError of the constructor, prints
    nothing and leaves the file as it was. Otherwise, when no string of the
    stored tasks or of the new one holds a lone surrogate, it stores the new
    task after the stored ones and prints "created: " and the new id with
    code 0, and the [done] command with that id then prints "done" with code
    0; when a string holds a lone surrogate it raises UnicodeEncodeError,
    prints nothing and leaves an empty file. The [next] command leaves the
    file as it was; it prints "all tasks completed" when no stored task is
    open, and otherwise "next: (", the priority, ") ", the id, a space and the
    title of an open stored task. A text that the standard output can encode
    is printed and the code returned. *)
Theorem cmd_add_and_next_outputs {rt : Runtime} (clock : nat -> str)
    (uuid now title0 description0 : str) (priority0 : Z) (tag : list str)
    (f : file) (tasks : list Task) :
  load_tasks clock f = (Ok tasks, f) ->
  (strip title0 = [] \/ ~ 1 <= priority0 <= 5 ->
   exists msg,
     cmd_add clock uuid now title0 description0 priority0 tag f
     = (([], Raise (ValueError msg)), f)) /\
  (strip title0 <> [] -> 1 <= priority0 <= 5 ->
   forallb task_encodable
     (tasks ++ [mk_Task uuid (strip title0) description0 priority0 false tag now])
   = true ->
   cmd_add clock uuid now title0 description0 priority0 tag f
   = (say [lit "created: " ++ uuid] 0,
      Content (PList (map to_dict
         (tasks ++ [mk_Task uuid (strip title0) description0 priority0 false tag now])))) /\
   fst (cmd_done clock uuid
          (Content (PList (map to_dict
             (tasks ++ [mk_Task uuid (strip title0) description0 priority0 false
                          tag now])))))
   = say [lit "done"] 0) /\
  (strip title0 <> [] -> 1 <= priority0 <= 5 ->
   forallb task_encodable
     (tasks ++ [mk_Task uuid (strip title0) description0 priority0 false tag now])
   = false ->
   cmd_add clock uuid now title0 description0 priority0 tag f
   = (([], Raise UnicodeEncodeError), Unparsable)) /\
  ((forall t, In t tasks -> done t = true) ->
   cmd_next clock f = (say [lit "all tasks completed"] 0, f)) /\
  ((exists t, In t tasks /\ done t = false) ->
   exists u,
     In u tasks /\ done u = false /\
     cmd_next clock f
     = (say [lit "next: (" ++ py_str (PInt (priority u)) ++ lit ") " ++ id u ++
             lit " " ++ title u] 0, f)) /\
  (forall texts code,
     forallb stdout_accepts texts = true -> say texts code = (texts, Ok code)).
Proof.
  intros Hload.
  pose proof (add_task_run clock uuid now title0 description0 priority0 (Some tag) f
                tasks Hload) as Hadd.
  rewrite or_empty_spec in Hadd.
  pose proof (next_task_run clock f tasks Hload) as Hnext.
  pose proof (sorted_by_perm key_ltb sort_key (filter (fun t => negb (done t)) tasks))
    as Hperm.
  refine (conj _ (conj _ (conj _ (conj _ (conj _ say_accepted))))).
  - intros Hbad. unfold cmd_add. rewrite Task_new_cases in Hadd.
    destruct (nonempty (strip title0)) eqn:Et; simpl in Hadd;
      [|eexists; apply (calling_raise _ _ _ _ _ Hadd)].
    destruct ((1 <=? priority0) && (priority0 <=? 5)) eqn:Ep; simpl in Hadd;
      [|eexists; apply (calling_raise _ _ _ _ _ Hadd)].
    apply nonempty_true in Et. apply andb_true_iff in Ep as [H1 H2].
    apply Z.leb_le in H1, H2. destruct Hbad as [Hbad | Hbad]; [contradiction | lia].
  - intros Ht Hp Henc. unfold cmd_add.
    rewrite Task_new_ok in Hadd by assumption.
    set (task := mk_Task uuid (strip title0) description0 priority0 false tag now)
      in *.
    rewrite Henc in Hadd. split; [now rewrite (calling_ok _ _ _ _ _ Hadd)|].
    assert (Hvalid : Forall valid_task (tasks ++ [task])).
    { apply Forall_app. split.
      - eapply load_tasks_valid. now rewrite Hload.
      - constructor; [|constructor]. eapply Task_new_valid. now apply Task_new_ok. }
    pose proof (complete_task_run clock uuid _ _ (load_saved clock _ Hvalid)) as Hc.
    rewrite mark_first_encodable, Henc in Hc.
    assert (existsb (has_id uuid) (tasks ++ [task]) = true) as Hex.
    { apply existsb_exists. exists task. split; [apply in_elt | apply str_eqb_refl]. }
    rewrite Hex in Hc. unfold cmd_done. now rewrite (calling_ok _ _ _ _ _ Hc).
  - intros Ht Hp Henc. unfold cmd_add.
    rewrite Task_new_ok in Hadd by assumption. rewrite Henc in Hadd.
    apply (calling_raise _ _ _ _ _ Hadd).
  - intros Hall. unfold cmd_next. rewrite (calling_ok _ _ _ _ _ Hnext).
    destruct (sorted_by key_ltb sort_key (filter (fun t => negb (done t)) tasks))
      as [|u rest]; [reflexivity|].
    assert (In u (filter (fun t => negb (done t)) tasks)) as Hu
      by (eapply Permutation_in; [apply Permutation_sym; exact Hperm | now left]).
    apply filter_In in Hu as [Hin Hopen]. rewrite (Hall u Hin) in Hopen. discriminate.
  - intros (t & Hin & Hopen). unfold cmd_next. rewrite (calling_ok _ _ _ _ _ Hnext).
    destruct (sorted_by key_ltb sort_key (filter (fun t => negb (done t)) tasks))
      as [|u rest].
    + apply Permutation_sym, Permutation_nil in Hperm.
      assert (In t (filter (fun t => negb (done t)) tasks)) as Ht
        by (apply filter_In; split; [exact Hin | now rewrite Hopen]).
      rewrite Hperm in Ht. destruct Ht.
    + exists u.
      assert (In u (filter (fun t => negb (done t)) tasks)) as Hu
        by (eapply Permutation_in; [apply Permutation_sym; exact Hperm | now left]).
      apply filter_In in Hu as [Hu Hd]. apply negb_true_iff in Hd.
      now repeat split.
Qed.

Lemma cmd_add_and_next_outputs_witness :
  (cmd_add (rt := example_runtime) fixed_clock (lit "three") noon
     (lit " Task three ") [] 5 [lit "home"] two_tasks_file
   = (say (rt := example_runtime) [lit "created: " ++ lit "three"] 0,
      Content (PList (map to_dict
         (two_tasks ++ [mk_Task (lit "three")
                          (strip (rt := example_runtime) (lit " Task three "))
                          [] 5 false [lit "home"] noon])))) /\
   fst (cmd_done (rt := example_runtime) fixed_clock (lit "three")
          (Content (PList (map to_dict
             (two_tasks ++ [mk_Task (lit "three")
                              (strip (rt := example_runtime) (lit " Task three "))
                              [] 5 false [lit "home"] noon])))))
   = say (rt := example_runtime) [lit "done"] 0) /\
  (exists u,
     In u two_tasks /\ done u = false /\
     cmd_next (rt := example_runtime) fixed_clock two_tasks_file
     = (say (rt := example_runtime)
          [lit "next: (" ++ py_str (rt := example_runtime) (PInt (priority u)) ++
           lit ") " ++ id u ++ lit " " ++ title u] 0, two_tasks_file)).
Proof.
  destruct (cmd_add_and_next_outputs (rt := example_runtime) fixed_clock
              (lit "three") noon (lit " Task three ") [] 5 [lit "home"]
              two_tasks_file two_tasks eq_refl)
    as (_ & Hadd & _ & _ & Hnext & _).
  split.
  - apply Hadd; [discriminate | lia | reflexivity].
  - apply Hnext.
    exists (mk_Task (lit "two") (lit "Task two") [] 4 false []
              (lit "2024-01-01T11:00:00+00:00")).
    split; [right; left; reflexivity | reflexivity].
Defined.

(** ** models.py: keys that [from_dict] does not read *)

Section UnknownKeys.
Context {rt : Runtime}.

Lemma lookup_app_other (k key : str) (v : pyval) (entries : list (str * pyval)) :
  k <> key -> lookup key (entries ++ [(k, v)]) = lookup key entries.
Proof.
  intros Hne. rewrite lookup_app. apply str_eqb_neq in Hne. rewrite Hne.
  now destruct (lookup key entries).
Qed.

(** Decoding reads an object through [lookup] of the seven keys only. *)
Lemma from_dict_lookup_ext (now : str) (entries entries' : list (str * pyval)) :
  (forall key, In key task_keys -> lookup key entries' = lookup key entries) ->
  from_dict now (PDict entries') = from_dict now (PDict entries).
Proof.
  intros H. unfold from_dict, getitem, dict_get.
  rewrite !H by (unfold task_keys; simpl; tauto). reflexivity.
Qed.

Lemma from_dicts_at (clock : nat -> str) (i : nat) (pre post : list pyval)
    (a b : pyval) :
  from_dict (clock (i + List.length pre)%nat) a
  = from_dict (clock (i + List.length pre)%nat) b ->
  from_dicts clock i (pre ++ a :: post) = from_dicts clock i (pre ++ b :: post).
Proof.
  intros H. rewrite !from_dicts_app. cbn [from_dicts]. now rewrite H.
Qed.

End UnknownKeys.

(** X16. A stored element is decoded through the keys id, title, description,
    priority, done, tags and created_at only: an entry under a key that is
    none of these, and that the element does not have yet, changes nothing in
    what [load()] returns; and what [save()] writes for a task has these seven
    keys and no other. *)
Theorem load_tasks_ignores_other_keys {rt : Runtime} (clock : nat -> str)
    (pre post : list pyval) (entries : list (str * pyval)) (k : str) (v : pyval) :
  ~ In k task_keys -> ~ In k (map fst entries) ->
  load_tasks clock (Content (PList (pre ++ PDict (entries ++ [(k, v)]) :: post)))
  = (outcome (load_tasks clock) (Content (PList (pre ++ PDict entries :: post))),
     Content (PList (pre ++ PDict (entries ++ [(k, v)]) :: post))) /\
  (forall t, exists saved,
     to_dict t = PDict saved /\ map fst saved = task_keys).
Proof.
  intros Hk _. split.
  - unfold outcome. rewrite !load_tasks_content. cbn [fst]. f_equal.
    apply from_dicts_at. apply from_dict_lookup_ext. intros key Hkey.
    apply lookup_app_other. intros ->. contradiction.
  - intros t. eexists. split; reflexivity.
Qed.

Lemma load_tasks_ignores_other_keys_witness :
  load_tasks (rt := example_runtime) fixed_clock
    (Content (PList [PDict ([(lit "id", PStr (lit "1")); (lit "title", PStr (lit "A"))]
                            ++ [(lit "owner", PStr (lit "me"))])]))
  = (outcome (load_tasks (rt := example_runtime) fixed_clock)
       (Content (PList [PDict [(lit "id", PStr (lit "1")); (lit "title", PStr (lit "A"))]])),
     Content (PList [PDict ([(lit "id", PStr (lit "1")); (lit "title", PStr (lit "A"))]
                            ++ [(lit "owner", PStr (lit "me"))])])).
Proof.
  apply (proj1 (load_tasks_ignores_other_keys (rt := example_runtime) fixed_clock
                  [] [] [(lit "id", PStr (lit "1")); (lit "title", PStr (lit "A"))]
                  (lit "owner") (PStr (lit "me"))
                  ltac:(intros H; repeat (destruct H as [H | H]; [discriminate H|]);
                        exact H)
                  ltac:(intros H; repeat (destruct H as [H | H]; [discriminate H|]);
                        exact H))).
Defined.

(** ** analytics.py: limits and totals of the keywords *)

Lemma py_sum_cons (x : Z) (l : list Z) : py_sum (x :: l) = x + py_sum l.
Proof. unfold py_sum at 1. simpl. apply py_sum_from. Qed.

Lemma py_sum_app (l l' : list Z) : py_sum (l ++ l') = py_sum l + py_sum l'.
Proof.
  induction l as [|x l IH]; simpl; [reflexivity|].
  rewrite !py_sum_cons, IH. lia.
Qed.

Lemma py_sum_perm (l l' : list Z) : Permutation l l' -> py_sum l = py_sum l'.
Proof.
  induction 1; rewrite ?py_sum_cons; lia.
Qed.

Lemma counter_incr_total (w : str) (c : list (str * Z)) :
  py_sum (map snd (counter_incr w c)) = py_sum (map snd c) + 1.
Proof.
  induction c as [|[k n] c IH]; simpl; [reflexivity|].
  destruct (str_eqb k w); simpl; rewrite !py_sum_cons; [lia | rewrite IH; lia].
Qed.

(** The counts of a counter add up to the number of words counted. *)
Lemma Counter_total (ws : list str) : py_sum (map snd (Counter ws)) = len ws.
Proof.
  unfold len. induction ws as [|w ws IH] using rev_ind; [reflexivity|].
  rewrite Counter_snoc, counter_incr_total, IH, length_app. simpl. lia.
Qed.

Lemma Counter_positive (ws : list str) : Forall (fun e => 0 < snd e) (Counter ws).
Proof.
  destruct (Counter_counts ws) as (_ & Hkeys & Hvals & _).
  apply Forall_forall. intros [k n] Hin. simpl.
  rewrite (Hvals k n Hin). apply occurrences_pos, Hkeys.
  apply in_map_iff. now exists (k, n).
Qed.

(** X17. The keywords for a smaller limit are the first ones of the keywords
    for a larger limit; the counts returned never add up to more than the
    number of kept words, and add up to exactly that number when the limit is
    at least the number of distinct kept words. *)
Theorem top_keywords_limits_and_totals {rt : Runtime} (tasks : list Task) (n m : Z) :
  (n <= m -> top_keywords tasks n = firstn (Z.to_nat n) (top_keywords tasks m)) /\
  py_sum (map snd (top_keywords tasks n)) <= len (kept_words tasks) /\
  (Z.of_nat (List.length (nodup str_eq_dec (kept_words tasks))) <= n ->
   py_sum (map snd (top_keywords tasks n)) = len (kept_words tasks)).
Proof.
  rewrite !top_keywords_unfold.
  set (sorted := sorted_by (fun a b => b <? a) snd (Counter (kept_words tasks))).
  pose proof (sorted_by_perm (fun a b => b <? a) snd (Counter (kept_words tasks)))
    as Hperm. fold sorted in Hperm.
  assert (Htotal : py_sum (map snd sorted) = len (kept_words tasks)).
  { rewrite <- Counter_total. symmetry. apply py_sum_perm.
    now apply Permutation_map. }
  assert (Hpos : Forall (fun e => 0 < snd e) sorted).
  { eapply Permutation_Forall; [exact Hperm | apply Counter_positive]. }
  refine (conj _ (conj _ _)).
  - intros Hnm. rewrite firstn_firstn. f_equal. lia.
  - rewrite <- Htotal. rewrite <- (firstn_skipn (Z.to_nat n) sorted) at 2.
    rewrite map_app, py_sum_app.
    assert (0 <= py_sum (map snd (skipn (Z.to_nat n) sorted))); [|lia].
    assert (Forall (fun e => 0 < snd e) (skipn (Z.to_nat n) sorted)) as Hrest.
    { rewrite <- (firstn_skipn (Z.to_nat n) sorted) in Hpos.
      now apply Forall_app in Hpos. }
    induction Hrest as [|e l He _ IH]; [reflexivity|].
    simpl. rewrite py_sum_cons. lia.
  - intros Hn. rewrite <- Htotal. do 2 f_equal. apply firstn_all2.
    destruct (Counter_counts (kept_words tasks)) as (Hnd & Hkeys & _ & _).
    rewrite <- (Permutation_length Hperm), <- (length_map fst).
    assert (List.length (map fst (Counter (kept_words tasks)))
            = List.length (nodup str_eq_dec (kept_words tasks))) as ->; [|lia].
    apply Permutation_length, NoDup_Permutation; [exact Hnd | apply NoDup_nodup |].
    intros k. rewrite Hkeys. symmetry. apply nodup_In.
Qed.

(** ** service.py: the statistics after a task is completed *)

Lemma stats_run {rt : Runtime} (clock : nat -> str) (f : file) (tasks : list Task) :
  load_tasks clock f = (Ok tasks, f) ->
  exists s,
    stats clock f = (Ok s, f) /\
    stats_total s = len tasks /\
    stats_done s = len (filter done tasks) /\
    stats_open s = len tasks - len (filter done tasks).
Proof.
  intros Hload. unfold stats, io_bind. rewrite Hload. unfold io_ret. eexists.
  split; [reflexivity|]. cbn [stats_total stats_done stats_open].
  now rewrite py_sum_ones.
Qed.

(** X18. Completing an open task moves one task from open to done in the
    statistics: when the first stored task with the id is open and no string
    of the stored tasks holds a lone surrogate, [stats()] after [complete(id)]
    has the same total, one more done and one less open than before. *)
Theorem stats_after_complete {rt : Runtime} (clock : nat -> str) (f : file)
    (pre post : list Task) (t : Task) (task_id : str) :
  load_tasks clock f = (Ok (pre ++ t :: post), f) ->
  (forall u, In u pre -> id u <> task_id) -> id t = task_id -> done t = false ->
  forallb task_encodable (pre ++ t :: post) = true ->
  exists s s',
    stats clock f = (Ok s, f) /\
    stats clock (file_after (complete_task clock task_id) f)
    = (Ok s', file_after (complete_task clock task_id) f) /\
    stats_total s' = stats_total s /\
    stats_done s' = stats_done s + 1 /\
    stats_open s' = stats_open s - 1.
Proof.
  intros Hload Hpre Ht Hopen Henc.
  destruct (stats_run clock f _ Hload) as (s & Hs & Htotal & Hdone & Hopen_s).
  assert (Hvalid : Forall valid_task (pre ++ set_done t :: post)).
  { assert (Forall valid_task (pre ++ t :: post)) as Hv
      by (eapply load_tasks_valid; now rewrite Hload).
    apply Forall_app in Hv as [Hv1 Hv2]. apply Forall_app. split; [exact Hv1|].
    inversion Hv2; subst. constructor; [now apply set_done_valid | assumption]. }
  assert (Hfile : file_after (complete_task clock task_id) f
                  = Content (PList (map to_dict (pre ++ set_done t :: post)))).
  { unfold file_after. rewrite (complete_task_run clock task_id f _ Hload).
    assert (existsb (has_id task_id) (pre ++ t :: post) = true) as ->.
    { apply existsb_exists. exists t. split; [apply in_elt | now apply str_eqb_eq]. }
    rewrite mark_first_encodable, Henc. now rewrite mark_first_some. }
  rewrite Hfile.
  destruct (stats_run clock _ _ (load_saved clock _ Hvalid))
    as (s' & Hs' & Htotal' & Hdone' & Hopen').
  exists s, s'. refine (conj Hs (conj Hs' _)).
  rewrite Htotal, Htotal', Hdone, Hdone', Hopen_s, Hopen'.
  unfold len. rewrite !filter_app, !length_app. cbn [filter set_done done].
  rewrite Hopen. cbn [List.length]. lia.
Qed.

Lemma stats_after_complete_witness :
  exists s s',
    stats (rt := example_runtime) fixed_clock two_tasks_file = (Ok s, two_tasks_file) /\
    stats (rt := example_runtime) fixed_clock
      (file_after (complete_task (rt := example_runtime) fixed_clock (lit "two"))
         two_tasks_file)
    = (Ok s', file_after (complete_task (rt := example_runtime) fixed_clock (lit "two"))
                two_tasks_file) /\
    stats_total s' = stats_total s /\
    stats_done s' = stats_done s + 1 /\
    stats_open s' = stats_open s - 1.
Proof.
  apply (stats_after_complete (rt := example_runtime) fixed_clock two_tasks_file
           [mk_Task (lit "one") (lit "Task one") [] 3 false []
              (lit "2024-01-01T10:00:00+00:00")]
           []
           (mk_Task (lit "two") (lit "Task two") [] 4 false []
              (lit "2024-01-01T11:00:00+00:00"))
           (lit "two") eq_refl).
  - intros u [<- | []]. discriminate.
  - reflexivity.
  - reflexivity.
  - reflexivity.
Defined.
(** ** The tests of the repository, run on the embedding *)

(** tests/test_analytics.py: [test_completion_rate]. *)
Example test_completion_rate :
  completion_rate (rt := example_runtime)
    [test_task "1" "A" 3 true ""; test_task "2" "B" 3 false "";
     test_task "3" "C" 3 true ""]
  = 66.67%float.
Proof. vm_compute. reflexivity. Qed.

(** tests/test_analytics.py: [test_top_keywords]. *)
Example test_top_keywords :
  top_keywords (rt := example_runtime)
    [test_task "1" "Learn Python" 3 false "Python async basics";
     test_task "2" "Write Python tests" 3 false "tests and coverage"] 3
  = [(lit "python", 3); (lit "tests", 2); (lit "learn", 1)].
Proof. vm_compute. reflexivity. Qed.

(** tests/test_async_jobs.py: [test_sync_in_batches]. *)
Example test_sync_in_batches :
  snd (run (sync_in_batches (repeat (test_task "0" "task" 3 false "") 12) 5 0%float))
  = Ok 12.
Proof. vm_compute. reflexivity. Qed.

(** tests/test_async_jobs.py: [test_sync_in_batches_rejects_bad_batch_size]. *)
Example test_sync_in_batches_rejects_bad_batch_size :
  sync_in_batches [] 0 0.01%float = Throw (ValueError (lit "batch_size must be > 0")) /\
  str_in (lit "batch_size") (lit "batch_size must be > 0") = true.
Proof. split; reflexivity. Qed.

(** tests/test_storage.py: [test_load_empty_when_file_missing]. *)
Example test_load_empty_when_file_missing :
  outcome (load_tasks (rt := example_runtime) fixed_clock) Missing = Ok [].
Proof. reflexivity. Qed.

(** tests/test_storage.py: [test_round_trip_save_and_load]. *)
Example test_round_trip_save_and_load :
  outcome (load_tasks (rt := example_runtime) fixed_clock)
    (file_after (save_tasks round_trip_tasks) Missing)
  = Ok round_trip_tasks.
Proof. vm_compute. reflexivity. Qed.

(** tests/test_service.py: [test_add_list_and_count]. *)
Example test_add_list_and_count :
  (tasks <- outcome (list_tasks (rt := example_runtime) fixed_clock true None)
              (after_two_adds "A" "B" 2 5) ;;
   Ok (map title tasks))%result = Ok [lit "B"; lit "A"] /\
  outcome (count_tasks (rt := example_runtime) fixed_clock true)
    (after_two_adds "A" "B" 2 5) = Ok 2.
Proof. split; vm_compute; reflexivity. Qed.

(** tests/test_service.py: [test_complete_delete_and_next], and the scenario of
    the specification: the next task is the open one of highest priority, then
    the other one, then none. *)
Example test_complete_delete_and_next :
  let f0 := after_two_adds "Task one" "Task two" 3 4 in
  let f1 := file_after (complete_task (rt := example_runtime) fixed_clock (lit "id-2")) f0 in
  let f2 := file_after (complete_task (rt := example_runtime) fixed_clock (lit "id-1")) f1 in
  (t <- outcome (next_task (rt := example_runtime) fixed_clock) f0 ;;
   Ok (option_map id t))%result = Ok (Some (lit "id-2")) /\
  outcome (complete_task (rt := example_runtime) fixed_clock (lit "id-2")) f0 = Ok true /\
  complete_task (rt := example_runtime) fixed_clock (lit "unknown") f1 = (Ok false, f1) /\
  (t <- outcome (next_task (rt := example_runtime) fixed_clock) f1 ;;
   Ok (option_map id t))%result = Ok (Some (lit "id-1")) /\
  outcome (next_task (rt := example_runtime) fixed_clock) f2 = Ok None /\
  outcome (delete_task (rt := example_runtime) fixed_clock (lit "id-1")) f1 = Ok true /\
  delete_task (rt := example_runtime) fixed_clock (lit "unknown") f1 = (Ok false, f1).
Proof. repeat split; vm_compute; reflexivity. Qed.

(** tests/test_service.py: [test_query_filter]. *)
Example test_query_filter :
  (tasks <- outcome (list_tasks (rt := example_runtime) fixed_clock true
                       (Some (lit "python")))
              (after_two_adds "Learn Python" "Read docs" 3 3) ;;
   Ok (map title tasks))%result = Ok [lit "Learn Python"].
Proof. vm_compute. reflexivity. Qed.

(** Completing a task that is done already: the task is found, the call
    returns true and saves the collection it loaded. *)
Example complete_task_twice :
  let f0 := after_two_adds "Task one" "Task two" 3 4 in
  let f1 := file_after (complete_task (rt := example_runtime) fixed_clock (lit "id-2")) f0 in
  complete_task (rt := example_runtime) fixed_clock (lit "id-2") f1 = (Ok true, f1).
Proof. vm_compute. reflexivity. Qed.

(** Equal priorities list by [created_at], and equal keys in stored order. *)
Example list_tasks_ties :
  sorted_by key_ltb sort_key
    [dated_task "1" 3 "2024-01-02"; dated_task "2" 5 "2024-01-03";
     dated_task "3" 3 "2024-01-01"; dated_task "4" 5 "2024-01-03";
     dated_task "5" 3 "2024-01-02"]
  = [dated_task "2" 5 "2024-01-03"; dated_task "4" 5 "2024-01-03";
     dated_task "3" 3 "2024-01-01"; dated_task "1" 3 "2024-01-02";
     dated_task "5" 3 "2024-01-02"].
Proof. vm_compute. reflexivity. Qed.

(** Stop words and short words are dropped whatever their case; the letters
    outside the class of [_WORD_RE] (here U+0451) separate words. *)
Example top_keywords_drops :
  top_keywords (rt := example_runtime)
    [mk_Task (lit "1") (lit "The AND For it Tests")
       [1044; 1051; 1071; 32; 1105; 1083; 1082; 1072]%N 3 false [] noon] 5
  = [(lit "tests", 1); ([1083; 1082; 1072]%N, 1)].
Proof. vm_compute. reflexivity. Qed.

(** A limit of zero or less returns nothing; a large one returns every word. *)
Example top_keywords_limits :
  let tasks := [test_task "1" "alpha beta alpha" 3 false "gamma beta alpha"] in
  top_keywords (rt := example_runtime) tasks 0 = [] /\
  top_keywords (rt := example_runtime) tasks (-1) = [] /\
  top_keywords (rt := example_runtime) tasks 10
  = [(lit "alpha", 3); (lit "beta", 2); (lit "gamma", 1)].
Proof. repeat split; vm_compute; reflexivity. Qed.

(** tests/test_analytics.py: [test_priority_distribution]. *)
Example test_priority_distribution :
  priority_distribution
    [test_task "1" "A" 1 false ""; test_task "2" "B" 5 false "";
     test_task "3" "C" 5 false ""]
  = inr [(1, 1); (2, 0); (3, 0); (4, 0); (5, 2)].
Proof. vm_compute. reflexivity. Qed.

(** The lines of the [list] command, and of [count], [next] and [done]. *)
Example cmd_list_lines :
  fst (cmd_list (rt := example_runtime) fixed_clock false None listing_file)
  = ([lit "[x] (5) c Abc"; lit "[ ] (5) b B"; lit "[ ] (2) a A"], Ok 0) /\
  fst (cmd_list (rt := example_runtime) fixed_clock true (Some (lit "zzz"))
         listing_file)
  = ([lit "no tasks"], Ok 0) /\
  fst (cmd_count (rt := example_runtime) fixed_clock true listing_file)
  = ([lit "2"], Ok 0) /\
  fst (cmd_next (rt := example_runtime) fixed_clock listing_file)
  = ([lit "next: (5) b B"], Ok 0) /\
  fst (cmd_done (rt := example_runtime) fixed_clock (lit "b") listing_file)
  = ([lit "done"], Ok 0).
Proof. repeat split; vm_compute; reflexivity. Qed.

(** A stored title with a lone surrogate: [list] prints the tasks before it,
    then [print] raises. *)
Example cmd_list_surrogate :
  fst (cmd_list (rt := example_runtime) fixed_clock false None mixed_store)
  = ([lit "[ ] (3) 1 A"], Raise UnicodeEncodeError).
Proof. vm_compute. reflexivity. Qed.

(** A listed task with tags. *)
Example list_line_with_tags :
  list_line (rt := example_runtime)
    (mk_Task (lit "1") (lit "Learn Python") [] 5 false [lit "study"; lit "py"] noon)
  = lit "[ ] (5) 1 Learn Python tags=study,py".
Proof. vm_compute. reflexivity. Qed.
